(** * storage-proof-generator: block-header encoder and proof assembler

    A shallow embedding of [src/core/rlp-encoder.ts], [src/core/types.ts] and
    [src/core/proof-generator.ts], and the properties of the specification
    that were checked against them.

    Conventions.
    - A JavaScript string is a [string]; the strings that matter here are
      ASCII hexadecimal text, so code units and characters coincide.
    - A [bigint] is a [Z].
    - The block object handed to the encoder comes from [client.getBlock]
      through [as unknown as RpcBlockHeader]: its fields are dynamically
      typed.  They are modelled by [JsValue]: a field is a string (the
      declared type), a [bigint] (what the client library returns for
      quantities), [null], or [undefined] (a missing property reads as
      [undefined]).
    - An exception is a value of [Exception]; code that may throw returns
      [result A = Exception + A].
    - [keccak256] and [toRlp] are the trusted library primitives of the
      specification; they are parameters of the development. *)

From Stdlib Require Import ZArith List Bool Ascii String Lia DecimalString.
Import ListNotations.

Local Open Scope string_scope.
Local Open Scope Z_scope.

(* ================================================================== *)
(** ** JavaScript values and built-ins used by the sources             *)
(* ================================================================== *)

Module Js.

Inductive JsValue : Type :=
| JsUndefined
| JsNull
| JsString (s : string)
| JsBigInt (n : Z).

(** [ToBoolean]: what [if (v)] tests. *)
Definition truthy (v : JsValue) : bool :=
  match v with
  | JsUndefined | JsNull => false
  | JsString s => negb (s =? "")%string
  | JsBigInt n => negb (n =? 0)
  end.

(** [v !== undefined]. *)
Definition is_defined (v : JsValue) : bool :=
  match v with
  | JsUndefined => false
  | _ => true
  end.

(** Strict equality of a string with a dynamically typed value
    ([s === v]). *)
Definition strict_eq_string (s : string) (v : JsValue) : bool :=
  match v with
  | JsString t => (s =? t)%string
  | _ => false
  end.

(** Everything that can be thrown in the modelled code. *)
Inductive Exception : Type :=
| BlockHashMismatchError (expected : JsValue) (computed : string)
| StateRootMismatchError (expected : JsValue) (computed : string)
| RpcMethodNotAvailableError (method : string)
| RpcFailure (reason : string)      (* thrown by the RPC collaborator *)
| TypeError (msg : string)          (* JavaScript runtime *)
| SyntaxError (msg : string)        (* BigInt() on a malformed string *)
| LibraryError (msg : string).      (* thrown by a library primitive *)

Definition result (A : Type) : Type := (Exception + A)%type.

Definition Ok {A} (a : A) : result A := inr a.
Definition Throw {A} (e : Exception) : result A := inl e.

Definition rbind {A B} (r : result A) (k : A -> result B) : result B :=
  match r with
  | inl e => inl e
  | inr a => k a
  end.

(** *** Hexadecimal digits *)

Definition hexChar (d : Z) : ascii :=
  match d with
  | 0 => "0" | 1 => "1" | 2 => "2" | 3 => "3" | 4 => "4" | 5 => "5"
  | 6 => "6" | 7 => "7" | 8 => "8" | 9 => "9" | 10 => "a" | 11 => "b"
  | 12 => "c" | 13 => "d" | 14 => "e" | _ => "f"
  end%char.

(** Value of a digit character, both letter cases (as [BigInt] and the
    hex decoders accept them). *)
Definition hexVal (c : ascii) : option Z :=
  let n := Z.of_nat (nat_of_ascii c) in
  if (48 <=? n) && (n <=? 57) then Some (n - 48)
  else if (97 <=? n) && (n <=? 102) then Some (n - 87)
  else if (65 <=? n) && (n <=? 70) then Some (n - 55)
  else None.

Definition isLowerHex (c : ascii) : bool :=
  let n := Z.of_nat (nat_of_ascii c) in
  ((48 <=? n) && (n <=? 57)) || ((97 <=? n) && (n <=? 102)).

(** *** [BigInt.prototype.toString(16)] *)

(** Base-16 digits of a positive number, least significant first. *)
Fixpoint digits16 (fuel : nat) (n : Z) : list Z :=
  match fuel with
  | O => []
  | S f => if n <? 16 then [n] else (n mod 16) :: digits16 f (n / 16)
  end.

Definition natToString16 (n : Z) : string :=
  string_of_list_ascii
    (map hexChar (rev (digits16 (S (Z.to_nat (Z.log2 n))) n))).

Definition toString16 (n : Z) : string :=
  if n <? 0 then "-" ++ natToString16 (- n) else natToString16 n.

(** *** [BigInt(string)] ([StringToBigInt]) *)

(** White space among the ASCII characters: tab, line feed, vertical
    tab, form feed, carriage return and space.  [StringToBigInt] also
    trims the white space beyond ASCII (U+00A0, U+FEFF, the line and
    paragraph separators and the space separators); the strings of this
    development are ASCII text, which holds none of them. *)
Definition isWhite (c : ascii) : bool :=
  let n := nat_of_ascii c in
  ((9 <=? n) && (n <=? 13))%nat || (n =? 32)%nat.

Fixpoint trimStart (s : string) : string :=
  match s with
  | String c s' => if isWhite c then trimStart s' else s
  | EmptyString => EmptyString
  end.

Fixpoint trimEnd (s : string) : string :=
  match s with
  | String c s' =>
      let t := trimEnd s' in
      if isWhite c && (t =? "")%string then "" else String c t
  | EmptyString => EmptyString
  end.

Fixpoint parseDigits (radix : Z) (s : string) (acc : Z) : option Z :=
  match s with
  | EmptyString => Some acc
  | String c s' =>
      match hexVal c with
      | Some d => if d <? radix then parseDigits radix s' (acc * radix + d)
                  else None
      | None => None
      end
  end.

Definition parseNonEmpty (radix : Z) (s : string) : option Z :=
  match s with
  | EmptyString => None
  | _ => parseDigits radix s 0
  end.

Definition StringToBigInt (s : string) : option Z :=
  match trimEnd (trimStart s) with
  | EmptyString => Some 0
  | String "0" (String "x" r) | String "0" (String "X" r) => parseNonEmpty 16 r
  | String "0" (String "o" r) | String "0" (String "O" r) => parseNonEmpty 8 r
  | String "0" (String "b" r) | String "0" (String "B" r) => parseNonEmpty 2 r
  | String "-" r => option_map Z.opp (parseNonEmpty 10 r)
  | String "+" r => parseNonEmpty 10 r
  | t => parseNonEmpty 10 t
  end.

(** [BigInt(v)]. *)
Definition BigInt (v : JsValue) : result Z :=
  match v with
  | JsBigInt n => Ok n
  | JsString s =>
      match StringToBigInt s with
      | Some n => Ok n
      | None => Throw (SyntaxError "Cannot convert string to a BigInt")
      end
  | JsUndefined => Throw (TypeError "Cannot convert undefined to a BigInt")
  | JsNull => Throw (TypeError "Cannot convert null to a BigInt")
  end.

(** *** Decoding hexadecimal text (used to state byte-level properties) *)

Fixpoint hexPairs (l : list ascii) : option (list Z) :=
  match l with
  | [] => Some []
  | a :: b :: r =>
      match hexVal a, hexVal b, hexPairs r with
      | Some x, Some y, Some bs => Some (16 * x + y :: bs)
      | _, _, _ => None
      end
  | _ => None
  end.

(** The byte string denoted by ["0x…"] text. *)
Definition hexToBytes (s : string) : option (list Z) :=
  match s with
  | String "0" (String "x" r) => hexPairs (list_ascii_of_string r)
  | _ => None
  end.

(** Big-endian value of a byte string. *)
Definition be_value (bs : list Z) : Z :=
  fold_left (fun acc b => acc * 256 + b) bs 0.

(** Canonical hex text: ["0x"], then lowercase hex digits, an even number
    of them. *)
Definition canonicalHex (s : string) : bool :=
  match s with
  | String "0" (String "x" r) =>
      forallb isLowerHex (list_ascii_of_string r)
      && Nat.even (String.length r)
  | _ => false
  end.


End Js.

Export Js.

Notation "x <- e ;; k" := (rbind e (fun x => k))
  (at level 61, e at next level, right associativity).

(** Hex text, the [Hex] type of the client library. *)
Definition Hex : Type := string.

(* ================================================================== *)
(** ** Library primitives with a fixed meaning ([toHex], [pad])        *)
(* ================================================================== *)

Module Viem.

Fixpoint repeatChar (c : ascii) (n : nat) : string :=
  match n with
  | O => EmptyString
  | S k => String c (repeatChar c k)
  end.

(** [s.padStart(len, c)]. *)
Definition padStart (s : string) (len : nat) (c : ascii) : string :=
  repeatChar c (len - String.length s) ++ s.

(** [hex.replace('0x', '')] on text that starts with the prefix or does
    not contain it. *)
Definition strip0x (s : string) : string :=
  match s with
  | String "0" (String "x" r) => r
  | _ => s
  end.

(** [pad(hex, { size })]: left-pads to [size] bytes. *)
Definition pad (hex : Hex) (size : nat) : result Hex :=
  let h := strip0x hex in
  if (size * 2 <? String.length h)%nat
  then Throw (LibraryError "SizeExceedsPaddingSizeError")
  else Ok ("0x" ++ padStart h (size * 2) "0").

(** [numberToHex(value, { size })] for a [bigint]; [size = 0] counts as
    no size, as the library tests [if (size)]. *)
Definition numberToHex (value : Z) (size : option nat) : result Hex :=
  let sized := match size with Some (S _) => true | _ => false end in
  let maxValue :=
    match size with Some sz => 2 ^ (Z.of_nat sz * 8) - 1 | None => 0 end in
  if (sized && (maxValue <? value)) || (value <? 0)
  then Throw (LibraryError "IntegerOutOfRangeError")
  else
    let hex := "0x" ++ toString16 value in
    match size with
    | Some (S _ as sz) => pad hex sz
    | _ => Ok hex
    end.

(** [stringToHex]: the bytes of the text, two digits each. *)
Fixpoint bytesHex (s : string) : string :=
  match s with
  | EmptyString => EmptyString
  | String c r =>
      let n := Z.of_nat (nat_of_ascii c) in
      String (hexChar (n / 16)) (String (hexChar (n mod 16)) (bytesHex r))
  end.

(** [toHex(v)] without options dispatches on the run-time type. *)
Definition toHex (v : JsValue) : result Hex :=
  match v with
  | JsBigInt n => numberToHex n None
  | JsString s => Ok ("0x" ++ bytesHex s)
  | JsUndefined | JsNull =>
      Throw (TypeError "Cannot read properties of undefined (reading 'length')")
  end.

(** A primitive that rejects its input throws a library error. *)
Definition prim {A} (o : option A) (what : string) : result A :=
  match o with
  | Some a => Ok a
  | None => Throw (LibraryError what)
  end.

End Viem.

Export Viem.

(* ================================================================== *)
(** ** [src/core/rlp-encoder.ts]                                       *)
(* ================================================================== *)

Module RlpEncoder.

(** [cleanHex(hex)]: [hex.replace(/^0x/, '')], then a ['0'] in front when
    the number of characters is odd.  [replace] exists on strings only. *)
Definition cleanHex (hex : JsValue) : result Hex :=
  match hex with
  | JsString s =>
      let clean := strip0x s in
      Ok ("0x" ++ (if Nat.even (String.length clean) then clean
                   else "0" ++ clean))
  | _ => Throw (TypeError "hex.replace is not a function")
  end.

(** [encodeInt(hex)]. *)
Definition encodeInt (hex : JsValue) : result Hex :=
  value <- BigInt hex ;;
  if value =? 0 then Ok "0x"
  else cleanHex (JsString (toString16 value)).

(** The header object.  Every property is dynamically typed; an optional
    field that is missing reads as [JsUndefined]. *)
Record RpcBlockHeader : Type := {
  parentHash : JsValue;
  sha3Uncles : JsValue;
  miner : JsValue;
  stateRoot : JsValue;
  transactionsRoot : JsValue;
  receiptsRoot : JsValue;
  logsBloom : JsValue;
  difficulty : JsValue;
  number : JsValue;
  gasLimit : JsValue;
  gasUsed : JsValue;
  timestamp : JsValue;
  extraData : JsValue;
  mixHash : JsValue;
  nonce : JsValue;
  (* Post-London (EIP-1559) *)
  baseFeePerGas : JsValue;
  (* Post-Shanghai (EIP-4895) *)
  withdrawalsRoot : JsValue;
  (* Post-Cancun (EIP-4844) *)
  blobGasUsed : JsValue;
  excessBlobGas : JsValue;
  parentBeaconBlockRoot : JsValue;
  (* Post-Pectra (EIP-7685) *)
  requestsHash : JsValue
}.

(** [if (cond) { headerFields.push(item) }]: [item] is evaluated only
    when the condition holds. *)
Definition push_if (cond : bool) (item : result Hex) (fields : list Hex)
  : result (list Hex) :=
  if cond then (x <- item ;; Ok (fields ++ [x])%list) else Ok fields.

(** The fifteen fields of the array literal, evaluated left to right. *)
Definition baseFields (rpcBlock : RpcBlockHeader) : result (list Hex) :=
  f0 <- cleanHex (parentHash rpcBlock) ;;
  f1 <- cleanHex (sha3Uncles rpcBlock) ;;
  f2 <- cleanHex (miner rpcBlock) ;;
  f3 <- cleanHex (stateRoot rpcBlock) ;;
  f4 <- cleanHex (transactionsRoot rpcBlock) ;;
  f5 <- cleanHex (receiptsRoot rpcBlock) ;;
  f6 <- cleanHex (logsBloom rpcBlock) ;;
  f7 <- encodeInt (difficulty rpcBlock) ;;
  f8 <- encodeInt (number rpcBlock) ;;
  f9 <- encodeInt (gasLimit rpcBlock) ;;
  f10 <- encodeInt (gasUsed rpcBlock) ;;
  f11 <- encodeInt (timestamp rpcBlock) ;;
  f12 <- cleanHex (extraData rpcBlock) ;;
  f13 <- cleanHex (mixHash rpcBlock) ;;
  f14 <- cleanHex (nonce rpcBlock) ;;
  Ok [f0; f1; f2; f3; f4; f5; f6; f7; f8; f9; f10; f11; f12; f13; f14].

(** The list [headerFields] as it stands when [toRlp] is called. *)
Definition headerFields (rpcBlock : RpcBlockHeader) : result (list Hex) :=
  fields <- baseFields rpcBlock ;;
  (* EIP-1559: London hard fork *)
  fields <- push_if (truthy (baseFeePerGas rpcBlock))
              (encodeInt (baseFeePerGas rpcBlock)) fields ;;
  (* EIP-4895: Shanghai hard fork (withdrawals) *)
  fields <- push_if (truthy (withdrawalsRoot rpcBlock))
              (cleanHex (withdrawalsRoot rpcBlock)) fields ;;
  (* EIP-4844: Cancun hard fork (blobs) *)
  fields <- push_if (truthy (blobGasUsed rpcBlock))
              (encodeInt (blobGasUsed rpcBlock)) fields ;;
  fields <- push_if (is_defined (excessBlobGas rpcBlock))
              (encodeInt (excessBlobGas rpcBlock)) fields ;;
  fields <- push_if (truthy (parentBeaconBlockRoot rpcBlock))
              (cleanHex (parentBeaconBlockRoot rpcBlock)) fields ;;
  (* EIP-7685: Pectra hard fork (requests) *)
  push_if (truthy (requestsHash rpcBlock))
    (cleanHex (requestsHash rpcBlock)) fields.

Section Encoder.

(** [toRlp] of the client library: the RLP encoding of a list of byte
    strings, [None] when it rejects an item. *)
Variable toRlp : list Hex -> option Hex.

Definition encodeBlockHeaderToRlp (rpcBlock : RpcBlockHeader) : result Hex :=
  fields <- headerFields rpcBlock ;;
  prim (toRlp fields) "toRlp".

End Encoder.

End RlpEncoder.

Export RlpEncoder.

(* ================================================================== *)
(** ** [src/core/types.ts]                                             *)
(* ================================================================== *)

Module ProofGeneratorOptions.
Record t : Type := {
  rpc : string;          (* RPC endpoint URL *)
  account : string;      (* account address, as the caller wrote it *)
  slot : Z;              (* storage slot, a bigint *)
  blockNumber : Z        (* block number, a bigint *)
}.
End ProofGeneratorOptions.

(** The proof record.  [blockHash] and [stateRoot] are copied from the
    block object and keep its dynamic type; [sendRoot] is [None] when the
    property is not set on the result. *)
Module StorageProof.
Record t : Type := {
  blockNumber : Hex;
  blockHash : JsValue;
  stateRoot : JsValue;
  account : string;
  slot : Hex;
  slotValue : Hex;
  rlpBlockHeader : Hex;
  rlpAccountProof : Hex;
  rlpStorageProof : Hex;
  sendRoot : option JsValue
}.
End StorageProof.

(* ================================================================== *)
(** ** The RPC collaborator                                            *)
(* ================================================================== *)

Module Rpc.

(** What [client.getBlock] resolves to: the header fields, the block hash
    and, on some chains, a [sendRoot] property ([None]: the object has no
    such property). *)
Record Block : Type := {
  header : RpcBlockHeader;
  hash : JsValue;
  sendRoot : option JsValue
}.

Record StorageProofEntry : Type := {
  key : Hex;
  proof : list Hex;
  value : Z
}.

Record GetProofReturn : Type := {
  accountProof : list Hex;
  storageProof : list StorageProofEntry
}.

(** A client answers each call with a value or fails with a reason
    ([inl]): the three calls the generator makes. *)
Record PublicClient : Type := {
  getBlock : Z -> string + Block;
  request : string -> list Hex -> string + Hex;
  getProof : string -> list Hex -> Z -> string + GetProofReturn
}.

(** The requests that went out, in order. *)
Inductive RpcCall : Type :=
| GetBlock (blockNumber : Z)
| Request (method : string) (params : list Hex)
| GetProof (address : string) (storageKeys : list Hex) (blockNumber : Z).

(** Asynchronous code: a computation threads the log of requests and
    ends in a value or an exception. *)
Definition M (A : Type) : Type := list RpcCall -> result A * list RpcCall.

Definition ret {A} (a : A) : M A := fun log => (Ok a, log).

Definition throw {A} (e : Exception) : M A := fun log => (Throw e, log).

Definition bind {A B} (m : M A) (k : A -> M B) : M B :=
  fun log =>
    match m log with
    | (inr a, log') => k a log'
    | (inl e, log') => (inl e, log')
    end.

Definition lift {A} (r : result A) : M A := fun log => (r, log).

(** [try { body } catch { handler }]. *)
Definition try_catch {A} (body handler : M A) : M A :=
  fun log =>
    match body log with
    | (inr a, log') => (inr a, log')
    | (inl _, log') => handler log'
    end.

(** [await client.…(…)]: the request is logged, then it resolves or
    rejects. *)
Definition call {A} (c : RpcCall) (response : string + A) : M A :=
  fun log =>
    (match response with
     | inl reason => Throw (RpcFailure reason)
     | inr a => Ok a
     end, (log ++ [c])%list).

Definition run {A} (m : M A) : result A * list RpcCall := m [].

End Rpc.

Export Rpc.

Notation "x <~ e ;; k" := (bind e (fun x => k))
  (at level 61, e at next level, right associativity).

(* ================================================================== *)
(** ** [src/core/proof-generator.ts]                                   *)
(* ================================================================== *)

Module ProofGenerator.

Import ProofGeneratorOptions.

Inductive HeaderMethod : Type := debug_getRawHeader | manual.

Record Proofs : Type := {
  computedStateRoot : Hex;
  rlpAccountProof : Hex;
  rlpStorageProof : Hex;
  slotValue : Hex
}.

(** [list[0]] followed by a property access: a [TypeError] on an empty
    list. *)
Definition first_entry {A} (l : list A) : result A :=
  match l with
  | x :: _ => Ok x
  | [] => Throw (TypeError "Cannot read properties of undefined")
  end.

Section Generator.

(** The trusted primitives; [None] when the primitive rejects its
    input. *)
Variable keccak256 : Hex -> option Hex.
Variable toRlp : list Hex -> option Hex.
(** [createPublicClient({ transport: http(rpc) })]: the node behind an
    endpoint. *)
Variable createPublicClient : string -> PublicClient.

(** [keccak256(list[0])]: the argument is [undefined] on an empty
    list, which the hash function rejects. *)
Definition keccak256_first (l : list Hex) : result Hex :=
  match l with
  | x :: _ => prim (keccak256 x) "keccak256"
  | [] => Throw (LibraryError "keccak256: Uint8Array expected")
  end.

Definition getRlpBlockHeader (client : PublicClient) (blockNumber : Z)
    (blockHeader : Block) : M (Hex * HeaderMethod) :=
  try_catch
    (* Try to use debug_getRawHeader if available *)
    (param <~ lift (toHex (JsBigInt blockNumber)) ;;
     rawHeader <~ call (Request "debug_getRawHeader" [param])
                    (request client "debug_getRawHeader" [param]) ;;
     ret (rawHeader, debug_getRawHeader))
    (* Fall back to manual RLP encoding *)
    (rlpHeader <~ lift (encodeBlockHeaderToRlp toRlp (header blockHeader)) ;;
     ret (rlpHeader, manual)).

Definition getStorageAndAccountProof (client : PublicClient)
    (account : string) (slot : Z) (blockNumber : Z) : M Proofs :=
  storageKey <~ lift (numberToHex slot (Some 32%nat)) ;;
  proof <~ call (GetProof account [storageKey] blockNumber)
             (getProof client account [storageKey] blockNumber) ;;
  lift
    (computedStateRoot <- keccak256_first (accountProof proof) ;;
     rlpAccountProof <- prim (toRlp (accountProof proof)) "toRlp" ;;
     entry <- first_entry (storageProof proof) ;;
     rlpStorageProof <- prim (toRlp (Rpc.proof entry)) "toRlp" ;;
     entry' <- first_entry (storageProof proof) ;;
     slotValue <- toHex (JsBigInt (value entry')) ;;
     Ok {| computedStateRoot := computedStateRoot;
           rlpAccountProof := rlpAccountProof;
           rlpStorageProof := rlpStorageProof;
           slotValue := slotValue |}).

(** ['sendRoot' in blockHeader && blockHeader.sendRoot]. *)
Definition has_sendRoot (blockHeader : Block) : bool :=
  match Rpc.sendRoot blockHeader with
  | Some v => truthy v
  | None => false
  end.

Definition generateStorageProof (options : ProofGeneratorOptions.t)
  : M StorageProof.t :=
  let client := createPublicClient (rpc options) in
  (* Get block header *)
  blockHeader <~ call (GetBlock (blockNumber options))
                   (getBlock client (blockNumber options)) ;;
  (* Get RLP-encoded block header *)
  resolved <~ getRlpBlockHeader client (blockNumber options) blockHeader ;;
  let rlpBlockHeader := fst resolved in
  (* Verify block hash *)
  computedBlockHash <~ lift (prim (keccak256 rlpBlockHeader) "keccak256") ;;
  if negb (strict_eq_string computedBlockHash (hash blockHeader))
  then throw (BlockHashMismatchError (hash blockHeader) computedBlockHash)
  else
  (* Get account and storage proofs *)
  proofs <~ getStorageAndAccountProof client (account options)
              (slot options) (blockNumber options) ;;
  (* Verify state root *)
  if negb (strict_eq_string (computedStateRoot proofs)
             (stateRoot (header blockHeader)))
  then throw (StateRootMismatchError (stateRoot (header blockHeader))
                (computedStateRoot proofs))
  else
  (* Build result *)
  blockNumberHex <~ lift (toHex (number (header blockHeader))) ;;
  slotHex <~ lift (numberToHex (slot options) (Some 32%nat)) ;;
  let result :=
    {| StorageProof.blockNumber := blockNumberHex;
       StorageProof.blockHash := hash blockHeader;
       StorageProof.stateRoot := stateRoot (header blockHeader);
       StorageProof.account := account options;
       StorageProof.slot := slotHex;
       StorageProof.slotValue := slotValue proofs;
       StorageProof.rlpBlockHeader := rlpBlockHeader;
       StorageProof.rlpAccountProof := rlpAccountProof proofs;
       StorageProof.rlpStorageProof := rlpStorageProof proofs;
       StorageProof.sendRoot := None |} in
  (* Include sendRoot for Arbitrum-style chains if present *)
  if has_sendRoot blockHeader
  then ret {| StorageProof.blockNumber := StorageProof.blockNumber result;
              StorageProof.blockHash := StorageProof.blockHash result;
              StorageProof.stateRoot := StorageProof.stateRoot result;
              StorageProof.account := StorageProof.account result;
              StorageProof.slot := StorageProof.slot result;
              StorageProof.slotValue := StorageProof.slotValue result;
              StorageProof.rlpBlockHeader := StorageProof.rlpBlockHeader result;
              StorageProof.rlpAccountProof := StorageProof.rlpAccountProof result;
              StorageProof.rlpStorageProof := StorageProof.rlpStorageProof result;
              StorageProof.sendRoot := Rpc.sendRoot blockHeader |}
  else ret result.

End Generator.

End ProofGenerator.

Export ProofGenerator.

(* ================================================================== *)
(** ** Concrete headers, nodes and requests                            *)
(* ================================================================== *)

Module Samples.

Import ProofGeneratorOptions.

(** A 32-byte value written with one repeated digit. *)
Definition h32 (c : ascii) : Hex := "0x" ++ repeatChar c 64.

(** A legacy header, every field a string as the interface declares. *)
Definition legacyHeader : RpcBlockHeader :=
  {| parentHash := JsString (h32 "1");
     sha3Uncles := JsString (h32 "2");
     miner := JsString "0x00000000000000000000000000000000000000aa";
     stateRoot := JsString (h32 "3");
     transactionsRoot := JsString (h32 "4");
     receiptsRoot := JsString (h32 "5");
     logsBloom := JsString "0x00";
     difficulty := JsString "0x0";
     number := JsString "0xbc614e";
     gasLimit := JsString "0x1c9c380";
     gasUsed := JsString "0xff";
     timestamp := JsString "0x6502b3f";
     extraData := JsString "0x";
     mixHash := JsString (h32 "6");
     nonce := JsString "0x0000000000000000";
     baseFeePerGas := JsUndefined;
     withdrawalsRoot := JsUndefined;
     blobGasUsed := JsUndefined;
     excessBlobGas := JsUndefined;
     parentBeaconBlockRoot := JsUndefined;
     requestsHash := JsUndefined |}.

(** A post-Cancun header as [client.getBlock] returns it: quantities are
    bigints, hashes are strings.  The block carries no blob, so
    [blobGasUsed] and [excessBlobGas] are both present and zero. *)
Definition cancunHeader (blobGasUsed' : JsValue) : RpcBlockHeader :=
  {| parentHash := JsString (h32 "1");
     sha3Uncles := JsString (h32 "2");
     miner := JsString "0x00000000000000000000000000000000000000aa";
     stateRoot := JsString (h32 "3");
     transactionsRoot := JsString (h32 "4");
     receiptsRoot := JsString (h32 "5");
     logsBloom := JsString "0x00";
     difficulty := JsBigInt 0;
     number := JsBigInt 19426587;
     gasLimit := JsBigInt 30000000;
     gasUsed := JsBigInt 255;
     timestamp := JsBigInt 1710338135;
     extraData := JsString "0x";
     mixHash := JsString (h32 "6");
     nonce := JsString "0x0000000000000000";
     baseFeePerGas := JsBigInt 7;
     withdrawalsRoot := JsString (h32 "7");
     blobGasUsed := blobGasUsed';
     excessBlobGas := JsBigInt 0;
     parentBeaconBlockRoot := JsString (h32 "8");
     requestsHash := JsUndefined |}.

(** The same header with string quantities, as the interface declares
    them. *)
Definition cancunHeaderText (blobGasUsed' : JsValue) : RpcBlockHeader :=
  {| parentHash := JsString (h32 "1");
     sha3Uncles := JsString (h32 "2");
     miner := JsString "0x00000000000000000000000000000000000000aa";
     stateRoot := JsString (h32 "3");
     transactionsRoot := JsString (h32 "4");
     receiptsRoot := JsString (h32 "5");
     logsBloom := JsString "0x00";
     difficulty := JsString "0x0";
     number := JsString "0x1286d1b";
     gasLimit := JsString "0x1c9c380";
     gasUsed := JsString "0xff";
     timestamp := JsString "0x65f1b057";
     extraData := JsString "0x";
     mixHash := JsString (h32 "6");
     nonce := JsString "0x0000000000000000";
     baseFeePerGas := JsString "0x7";
     withdrawalsRoot := JsString (h32 "7");
     blobGasUsed := blobGasUsed';
     excessBlobGas := JsString "0x0";
     parentBeaconBlockRoot := JsString (h32 "8");
     requestsHash := JsUndefined |}.

(** Stand-ins for the primitives: a hash that tells the sample header
    and the sample trie node apart from everything else, and a list
    encoder with a fixed output. *)
Definition rawHeaderText : Hex := "0xf90210a0".
Definition rootNode : Hex := "0xf90211a0".

Definition sampleKeccak (x : Hex) : option Hex :=
  if (x =? rawHeaderText)%string then Some (h32 "a")
  else if (x =? rootNode)%string then Some (h32 "3")
  else Some (h32 "0").

Definition sampleToRlp (items : list Hex) : option Hex := Some "0xc0".

Definition sampleProof : GetProofReturn :=
  {| accountProof := [rootNode; "0xf8518080"];
     storageProof :=
       [ {| key := h32 "0"; proof := ["0xe3a120"]; value := 1 |} ] |}.

(** A node that serves block 1 with the given header, block hash and
    [sendRoot] property, supports [debug_getRawHeader] when [raw] is an
    answer, and serves [proof] for every account. *)
Definition node (hdr : RpcBlockHeader) (blockHash : JsValue)
    (sendRoot' : option JsValue) (raw : string + Hex)
    (proof : GetProofReturn) : PublicClient :=
  {| getBlock := fun n =>
       if n =? 1 then
         inr {| header := hdr; hash := blockHash; sendRoot := sendRoot' |}
       else inl "block not found";
     request := fun method params =>
       if (method =? "debug_getRawHeader")%string then raw
       else inl "method not found";
     getProof := fun address keys n =>
       if n =? 1 then inr proof else inl "missing trie node" |}.

(** Block 1 as the client returns it: number is the bigint [1n]. *)
Definition block1Header : RpcBlockHeader :=
  {| parentHash := JsString (h32 "1");
     sha3Uncles := JsString (h32 "2");
     miner := JsString "0x00000000000000000000000000000000000000aa";
     stateRoot := JsString (h32 "3");
     transactionsRoot := JsString (h32 "4");
     receiptsRoot := JsString (h32 "5");
     logsBloom := JsString "0x00";
     difficulty := JsBigInt 0;
     number := JsBigInt 1;
     gasLimit := JsBigInt 30000000;
     gasUsed := JsBigInt 0;
     timestamp := JsBigInt 1710338135;
     extraData := JsString "0x";
     mixHash := JsString (h32 "6");
     nonce := JsString "0x0000000000000000";
     baseFeePerGas := JsUndefined;
     withdrawalsRoot := JsUndefined;
     blobGasUsed := JsUndefined;
     excessBlobGas := JsUndefined;
     parentBeaconBlockRoot := JsUndefined;
     requestsHash := JsUndefined |}.

(** A healthy node with the raw-header method. *)
Definition goodNode (sendRoot' : option JsValue) : PublicClient :=
  node block1Header (JsString (h32 "a")) sendRoot' (inr rawHeaderText)
    sampleProof.

(** A node without the raw-header method: the manual encoder is used and
    its output (["0xc0"] under [sampleToRlp]) hashes to [h32 "0"]. *)
Definition plainNode (blockHash : JsValue) (proof : GetProofReturn)
  : PublicClient :=
  node block1Header blockHash None (inl "method not found") proof.

(** A request whose address is written in mixed (checksummed) case. *)
Definition checksummedRequest : ProofGeneratorOptions.t :=
  {| rpc := "https://rpc.example.com";
     account := "0x5aAeb6053F3E94C9b9A09f33669435E7Ef1BeAed";
     slot := 0;
     blockNumber := 1 |}.

(** A proof response whose first account node does not hash to the
    state root of block 1. *)
Definition staleProof : GetProofReturn :=
  {| accountProof := ["0xf90211a1"];
     storageProof :=
       [ {| key := h32 "0"; proof := ["0xe3a120"]; value := 1 |} ] |}.


(** A node that answers in capitals: raw header and [sendRoot]. *)
Definition shoutingNode : PublicClient :=
  node block1Header (JsString (h32 "0")) (Some (JsString "0xABCD"))
    (inr "0xF90210A0") sampleProof.

(** The record returned for the request with a checksummed address at a
    healthy node. *)
Definition goodResult : StorageProof.t :=
  {| StorageProof.blockNumber := "0x1";
     StorageProof.blockHash := JsString (h32 "a");
     StorageProof.stateRoot := JsString (h32 "3");
     StorageProof.account := "0x5aAeb6053F3E94C9b9A09f33669435E7Ef1BeAed";
     StorageProof.slot := h32 "0";
     StorageProof.slotValue := "0x1";
     StorageProof.rlpBlockHeader := rawHeaderText;
     StorageProof.rlpAccountProof := "0xc0";
     StorageProof.rlpStorageProof := "0xc0";
     StorageProof.sendRoot := None |}.

Definition goodLog : list RpcCall :=
  [GetBlock 1; Request "debug_getRawHeader" ["0x1"];
   GetProof "0x5aAeb6053F3E94C9b9A09f33669435E7Ef1BeAed" [h32 "0"] 1].

End Samples.

(* ================================================================== *)
(** ** Vocabulary: digits, bytes and values                            *)
(* ================================================================== *)

Module HexSpec.

(** Value of a digit list, least significant digit first. *)
Fixpoint le_value (ds : list Z) : Z :=
  match ds with
  | [] => 0
  | d :: r => d + 16 * le_value r
  end.

(** Value of a digit list, most significant digit first. *)
Definition be16 (acc : Z) (ds : list Z) : Z :=
  fold_left (fun a d => a * 16 + d) ds acc.

Definition is_digit (d : Z) : Prop := 0 <= d < 16.

(** The digits of [n.toString(16)] for a positive [n], most significant
    first. *)
Definition hexDigits (n : Z) : list Z :=
  rev (digits16 (S (Z.to_nat (Z.log2 n))) n).

(** The digits [cleanHex] leaves: a zero in front when their number is
    odd. *)
Definition evenDigits (ds : list Z) : list Z :=
  if Nat.even (List.length ds) then ds else 0 :: ds.

Definition is_byte (b : Z) : Prop := 0 <= b < 256.

Definition be256 (acc : Z) (bs : list Z) : Z :=
  fold_left (fun a b => a * 256 + b) bs acc.

(** Two digits make a byte. *)
Fixpoint pairUp (ds : list Z) : list Z :=
  match ds with
  | a :: b :: r => 16 * a + b :: pairUp r
  | _ => []
  end.

(** A byte string is the minimal big-endian form of [n]: it has value
    [n], no leading zero byte, and no byte string of the same value is
    shorter. *)
Definition minimal_big_endian (n : Z) (bs : list Z) : Prop :=
  Forall is_byte bs
  /\ be_value bs = n
  /\ (forall b rest, bs = b :: rest -> b <> 0)
  /\ (forall other, Forall is_byte other -> be_value other = n ->
        (List.length bs <= List.length other)%nat).

End HexSpec.

Export HexSpec.

(* ================================================================== *)
(** ** Vocabulary: the layout of the field list                        *)
(* ================================================================== *)

Module EncoderSpec.

Inductive FieldKind : Type := IntField | BytesField.

(** How a field of a given kind is turned into an item. *)
Definition encodeField (k : FieldKind) (v : JsValue) : result Hex :=
  match k with
  | IntField => encodeInt v
  | BytesField => cleanHex v
  end.

Definition baseLayout (h : RpcBlockHeader) : list (FieldKind * JsValue) :=
  [ (BytesField, parentHash h); (BytesField, sha3Uncles h);
    (BytesField, miner h); (BytesField, stateRoot h);
    (BytesField, transactionsRoot h); (BytesField, receiptsRoot h);
    (BytesField, logsBloom h); (IntField, difficulty h);
    (IntField, number h); (IntField, gasLimit h); (IntField, gasUsed h);
    (IntField, timestamp h); (BytesField, extraData h);
    (BytesField, mixHash h); (BytesField, nonce h) ].

Definition keep (cond : bool) (f : FieldKind * JsValue)
  : list (FieldKind * JsValue) :=
  if cond then [f] else [].

(** The fields the encoder emits, guarded as in the source. *)
Definition emittedLayout (h : RpcBlockHeader) : list (FieldKind * JsValue) :=
  (baseLayout h
   ++ keep (truthy (baseFeePerGas h)) (IntField, baseFeePerGas h)
   ++ keep (truthy (withdrawalsRoot h)) (BytesField, withdrawalsRoot h)
   ++ keep (truthy (blobGasUsed h)) (IntField, blobGasUsed h)
   ++ keep (is_defined (excessBlobGas h)) (IntField, excessBlobGas h)
   ++ keep (truthy (parentBeaconBlockRoot h)) (BytesField, parentBeaconBlockRoot h)
   ++ keep (truthy (requestsHash h)) (BytesField, requestsHash h))%list.

(** The fields the specification asks for: the fifteen base fields, then
    every trailing field that is available in the source header, in the
    fixed order. *)
Definition specLayout (h : RpcBlockHeader) : list (FieldKind * JsValue) :=
  (baseLayout h
   ++ keep (is_defined (baseFeePerGas h)) (IntField, baseFeePerGas h)
   ++ keep (is_defined (withdrawalsRoot h)) (BytesField, withdrawalsRoot h)
   ++ keep (is_defined (blobGasUsed h)) (IntField, blobGasUsed h)
   ++ keep (is_defined (excessBlobGas h)) (IntField, excessBlobGas h)
   ++ keep (is_defined (parentBeaconBlockRoot h)) (BytesField, parentBeaconBlockRoot h)
   ++ keep (is_defined (requestsHash h)) (BytesField, requestsHash h))%list.

(** Item [x] is the encoding of field [f]. *)
Definition encodes (f : FieldKind * JsValue) (x : Hex) : Prop :=
  encodeField (fst f) (snd f) = Ok x.

(** Decidable form of [Forall2 encodes]. *)
Fixpoint encodes_all (fs : list (FieldKind * JsValue)) (xs : list Hex) : bool :=
  match fs, xs with
  | [], [] => true
  | f :: fs', x :: xs' =>
      match encodeField (fst f) (snd f) with
      | inr y => (y =? x)%string && encodes_all fs' xs'
      | inl _ => false
      end
  | _, _ => false
  end.

End EncoderSpec.

Export EncoderSpec.

(* ================================================================== *)
(** ** Vocabulary of the properties of the generator                   *)
(* ================================================================== *)

Module GeneratorSpec.

Import ProofGeneratorOptions.


(** The two mismatch errors. *)
Definition is_mismatch_error (e : Exception) : bool :=
  match e with
  | BlockHashMismatchError _ _ | StateRootMismatchError _ _ => true
  | _ => false
  end.

(** Exceptions of the language run time and of the library primitives. *)
Definition is_runtime_error (e : Exception) : bool :=
  match e with
  | TypeError _ | SyntaxError _ | LibraryError _ => true
  | _ => false
  end.



(** The outcome of the fast-path call of the resolver: the parameter is
    built, then the request resolves or rejects. *)
Definition fastPath (client : PublicClient) (blockNumber : Z) : result Hex :=
  param <- toHex (JsBigInt blockNumber) ;;
  match request client "debug_getRawHeader" [param] with
  | inl reason => Throw (RpcFailure reason)
  | inr rawHeader => Ok rawHeader
  end.

Section Resolver.

Variable toRlp : list Hex -> option Hex.

(** The resolver as the specification words it: the fast-path result
    unmodified and tagged raw when the call succeeds, the Header
    Encoder applied to the already-fetched fields and tagged manual
    when it fails, whatever the failure. *)
Definition resolve_spec (fast : result Hex) (headerFields : RpcBlockHeader)
  : result (Hex * HeaderMethod) :=
  match fast with
  | inr rawHeader => Ok (rawHeader, debug_getRawHeader)
  | inl _ =>
      rlp <- encodeBlockHeaderToRlp toRlp headerFields ;;
      Ok (rlp, manual)
  end.

End Resolver.

(** A computation whose only exceptions are run-time ones. *)
Definition runtime_only {A} (r : result A) : Prop :=
  forall e, r = Throw e -> is_runtime_error e = true.

(** The requests the resolver adds to the log. *)
Definition resolverRequests (blockNumber : Z) : list RpcCall :=
  match toHex (JsBigInt blockNumber) with
  | inr param => [Request "debug_getRawHeader" [param]]
  | inl _ => []
  end.

Section HashCheck.

Variable keccak256 : Hex -> option Hex.
Variable toRlp : list Hex -> option Hex.
Variable createPublicClient : string -> PublicClient.

(** The run up to the block-hash comparison. *)
Definition reachesHashCheck (options : ProofGeneratorOptions.t)
    (blockHeader : Block) (rlp : Hex) (log1 : list RpcCall)
    (computed : Hex) : Prop :=
  getBlock (createPublicClient (rpc options)) (blockNumber options)
    = inr blockHeader
  /\ (exists method,
        getRlpBlockHeader toRlp (createPublicClient (rpc options)) (blockNumber options)
          blockHeader [GetBlock (blockNumber options)]
        = (Ok (rlp, method), log1))
  /\ keccak256 rlp = Some computed.

End HashCheck.

End GeneratorSpec.

Export GeneratorSpec.

(* ================================================================== *)
(** ** [src/core/types.ts]: the messages of the error classes         *)
(* ================================================================== *)

Module ErrorText.

(** [String(v)], as a template literal converts a value. *)
Definition toStringJs (v : JsValue) : string :=
  match v with
  | JsUndefined => "undefined"
  | JsNull => "null"
  | JsString s => s
  | JsBigInt n => NilZero.string_of_int (Z.to_int n)
  end.

(** [error.message]: the text given to [super(…)] by the three error
    classes, the reason of a collaborator failure, the text of a
    run-time error. *)
Definition message (e : Exception) : string :=
  match e with
  | BlockHashMismatchError expected computed =>
      "Block hash mismatch: expected " ++ toStringJs expected
      ++ ", computed " ++ computed
  | StateRootMismatchError expected computed =>
      "State root mismatch: expected " ++ toStringJs expected
      ++ ", computed " ++ computed
  | RpcMethodNotAvailableError method =>
      "RPC method not available: " ++ method
  | RpcFailure reason => reason
  | TypeError msg => msg
  | SyntaxError msg => msg
  | LibraryError msg => msg
  end.

End ErrorText.

Export ErrorText.

(* ================================================================== *)
(** ** [src/node/cli.ts]                                               *)
(* ================================================================== *)

Module Cli.

(** [values] of [parseArgs]: a string option is [None] when it was not
    given. *)
Record Values : Type := {
  rpc : option string;
  account : option string;
  slot : option string;
  block : option string;
  output : option string;
  help : bool
}.

(** What the process has done so far: lines on the two streams, files
    written, requests sent. *)
Record Process : Type := {
  stdout : list string;
  stderr : list string;
  files : list (string * string);
  requests : list RpcCall
}.

Definition started : Process :=
  {| stdout := []; stderr := []; files := []; requests := [] |}.

(** A step either goes on with a value or ends the process with an
    exit code ([process.exit]). *)
Definition Proc (A : Type) : Type := Process -> (Z + A) * Process.

Definition pret {A} (a : A) : Proc A := fun p => (inr a, p).

Definition pbind {A B} (m : Proc A) (k : A -> Proc B) : Proc B :=
  fun p =>
    match m p with
    | (inr a, p') => k a p'
    | (inl code, p') => (inl code, p')
    end.

Definition process_exit {A} (code : Z) : Proc A := fun p => (inl code, p).

Definition console_log (line : string) : Proc unit :=
  fun p =>
    (inr tt, {| stdout := (stdout p ++ [line])%list; stderr := stderr p;
                files := files p; requests := requests p |}).

Definition console_error (line : string) : Proc unit :=
  fun p =>
    (inr tt, {| stdout := stdout p; stderr := (stderr p ++ [line])%list;
                files := files p; requests := requests p |}).

(** [await] of a computation that talks to the node: its requests are
    added to those of the process. *)
Definition await {A} (m : M A) : Proc (result A) :=
  fun p =>
    (inr (fst (m (requests p))),
     {| stdout := stdout p; stderr := stderr p; files := files p;
        requests := snd (m (requests p)) |}).

Definition newline : string := String (ascii_of_nat 10) EmptyString.

End Cli.

Notation "x <! e ;; k" := (Cli.pbind e (fun x => k))
  (at level 61, e at next level, right associativity).

Module CliMain.

Import Cli.

(** [fail(msg)]. *)
Definition fail {A} (msg : string) : Proc A :=
  _ <! console_error ("[storage-proof-generator] Error: " ++ msg) ;;
  process_exit 1.

(** [log(msg)]. *)
Definition log (msg : string) : Proc unit :=
  console_log ("[storage-proof-generator] " ++ msg).

(** [if (!value) fail(msg)]: an option that was not given, or given
    empty, is falsy. *)
Definition required (value : option string) (msg : string) : Proc string :=
  match value with
  | Some s => if (s =? "")%string then fail msg else pret s
  | None => fail msg
  end.

(** The [catch (error)] block of [main]. *)
Definition report {A} (error : Exception) : Proc A :=
  match error with
  | BlockHashMismatchError expected computed =>
      fail ("Block hash verification failed." ++ newline
            ++ "  Expected: " ++ toStringJs expected ++ newline
            ++ "  Computed: " ++ computed)
  | StateRootMismatchError expected computed =>
      fail ("State root verification failed." ++ newline
            ++ "  Expected: " ++ toStringJs expected ++ newline
            ++ "  Computed: " ++ computed)
  | _ => fail (message error)
  end.

Section Main.

Variable keccak256 : Hex -> option Hex.
Variable toRlp : list Hex -> option Hex.
Variable createPublicClient : string -> PublicClient.
(** [HELP_TEXT], the usage text. *)
Variable HELP_TEXT : string.
(** [isAddress] of the client library. *)
Variable isAddress : string -> bool.
(** [JSON.stringify(proof, null, 2)]. *)
Variable stringify : StorageProof.t -> string.
(** [fs.writeFileSync(path, data)]: [Some msg] when it throws an error
    with that message. *)
Variable writeFileSync : string -> string -> option string.

(** [fs.writeFileSync] inside the [try] block, then the log line. *)
Definition save (path data : string) : Proc unit :=
  match writeFileSync path data with
  | Some msg => fail msg
  | None =>
      _ <! (fun p =>
              (inr tt, {| stdout := stdout p; stderr := stderr p;
                          files := (files p ++ [(path, data)])%list;
                          requests := requests p |})) ;;
      log ("Proof saved to " ++ path)
  end.

(** The rest of the [try] block once the proof is there, and the
    [catch] block when it is not. *)
Definition deliver (values : Values) (outcome : result StorageProof.t)
  : Proc unit :=
  match outcome with
  | inr proof =>
      _ <! log "Proof generated successfully" ;;
      _ <! log ("  Block hash: " ++ toStringJs (StorageProof.blockHash proof)) ;;
      _ <! log ("  State root: " ++ toStringJs (StorageProof.stateRoot proof)) ;;
      _ <! log ("  Slot value: " ++ StorageProof.slotValue proof) ;;
      match output values with
      | Some path =>
          if (path =? "")%string then console_log (stringify proof)
          else save path (stringify proof)
      | None => console_log (stringify proof)
      end
  | inl error => report error
  end.

(** [main] from the [--help] test on: [values] is what the call of
    [parseArgs] at the top of [main] has returned. *)
Definition main (values : Values) : Proc unit :=
  _ <! (if help values
        then (_ <! console_log HELP_TEXT ;; process_exit 0)
        else pret tt) ;;
  (* Validate required arguments *)
  rpc' <! required (rpc values) "--rpc is required" ;;
  account' <! required (account values) "--account is required" ;;
  slotText <! required (slot values) "--slot is required" ;;
  blockText <! required (block values) "--block is required" ;;
  (* Validate account address *)
  _ <! (if isAddress account' then pret tt
        else fail "--account must be a valid EVM address") ;;
  (* Parse slot (supports both decimal and hex) *)
  slot' <! match StringToBigInt slotText with
           | Some n => pret n
           | None => fail ("Invalid slot value: " ++ slotText)
           end ;;
  (* Parse block number *)
  blockNumber' <! match StringToBigInt blockText with
                  | Some n => pret n
                  | None => fail ("Invalid block number: " ++ blockText)
                  end ;;
  _ <! log ("Generating proof for block " ++ toStringJs (JsBigInt blockNumber')
            ++ "...") ;;
  _ <! log ("  Account: " ++ account') ;;
  _ <! log ("  Slot: " ++ slotText) ;;
  outcome <! await (generateStorageProof keccak256 toRlp createPublicClient
                      {| ProofGeneratorOptions.rpc := rpc';
                         ProofGeneratorOptions.account := account';
                         ProofGeneratorOptions.slot := slot';
                         ProofGeneratorOptions.blockNumber := blockNumber' |}) ;;
  deliver values outcome.

(** The process from start to end: the exit code ([0] when [main]
    returns) and what it has done. *)
Definition runMain (values : Values) : Z * Process :=
  match main values started with
  | (inl code, p) => (code, p)
  | (inr _, p) => (0, p)
  end.

End Main.

(** The request the command line asks for, when every check of [main]
    passes. *)
Definition checkedArgs (isAddress : string -> bool) (values : Values)
  : option ProofGeneratorOptions.t :=
  match rpc values, account values, slot values, block values with
  | Some r, Some a, Some s, Some b =>
      if (r =? "")%string || (a =? "")%string || (s =? "")%string
         || (b =? "")%string || negb (isAddress a)
      then None
      else
        match StringToBigInt s, StringToBigInt b with
        | Some slot', Some blockNumber' =>
            Some {| ProofGeneratorOptions.rpc := r;
                    ProofGeneratorOptions.account := a;
                    ProofGeneratorOptions.slot := slot';
                    ProofGeneratorOptions.blockNumber := blockNumber' |}
        | _, _ => None
        end
  | _, _, _, _ => None
  end.

End CliMain.

(** Command lines: a complete one for block 1 written in hex, the same
    with an output path, and one without a block. *)
Module CliSamples.

Import Cli Samples.

Definition fullArgs (output' : option string) : Values :=
  {| rpc := Some "https://rpc.example.com";
     account := Some "0x5aAeb6053F3E94C9b9A09f33669435E7Ef1BeAed";
     slot := Some "0x0";
     block := Some "1";
     output := output';
     help := false |}.

Definition noBlockArgs : Values :=
  {| rpc := Some "https://rpc.example.com";
     account := Some "0x5aAeb6053F3E94C9b9A09f33669435E7Ef1BeAed";
     slot := Some "0x0";
     block := None;
     output := Some "proof.json";
     help := false |}.

(** Stand-ins for the address check, the serialiser and the file
    system. *)
Definition anyAddress (a : string) : bool := true.
Definition sampleStringify (proof : StorageProof.t) : string :=
  "{ slotValue: " ++ StorageProof.slotValue proof ++ " }".
Definition diskOk (path data : string) : option string := None.

End CliSamples.

(** Further nodes and requests. *)
Module MoreSamples.

Import ProofGeneratorOptions Samples.

(** A node whose raw header does not hash to the block hash although the
    manual encoding of the same block would (["0xc0"] hashes to
    [h32 "0"] under [sampleKeccak]). *)
Definition misreportingNode : PublicClient :=
  node block1Header (JsString (h32 "0")) None (inr rawHeaderText) sampleProof.

(** A healthy node that has lost the state of block 1. *)
Definition prunedNode : PublicClient :=
  {| getBlock := getBlock (goodNode None);
     request := request (goodNode None);
     getProof := fun address keys n => inl "missing trie node" |}.

Definition block1 : Block :=
  {| header := block1Header; hash := JsString (h32 "a"); sendRoot := None |}.

(** Requests for a block the sample nodes do not have, and for a slot
    below the 256-bit range. *)
Definition unknownBlockRequest : ProofGeneratorOptions.t :=
  {| rpc := "https://rpc.example.com";
     account := "0x5aAeb6053F3E94C9b9A09f33669435E7Ef1BeAed";
     slot := 0;
     blockNumber := 2 |}.

Definition negativeSlotRequest : ProofGeneratorOptions.t :=
  {| rpc := "https://rpc.example.com";
     account := "0x5aAeb6053F3E94C9b9A09f33669435E7Ef1BeAed";
     slot := -1;
     blockNumber := 1 |}.

(** Block 1 with every optional field set to [null]. *)
Definition nullTrailingHeader : RpcBlockHeader :=
  {| parentHash := JsString (h32 "1");
     sha3Uncles := JsString (h32 "2");
     miner := JsString "0x00000000000000000000000000000000000000aa";
     stateRoot := JsString (h32 "3");
     transactionsRoot := JsString (h32 "4");
     receiptsRoot := JsString (h32 "5");
     logsBloom := JsString "0x00";
     difficulty := JsBigInt 0;
     number := JsBigInt 1;
     gasLimit := JsBigInt 30000000;
     gasUsed := JsBigInt 0;
     timestamp := JsBigInt 1710338135;
     extraData := JsString "0x";
     mixHash := JsString (h32 "6");
     nonce := JsString "0x0000000000000000";
     baseFeePerGas := JsNull;
     withdrawalsRoot := JsNull;
     blobGasUsed := JsNull;
     excessBlobGas := JsNull;
     parentBeaconBlockRoot := JsNull;
     requestsHash := JsNull |}.

End MoreSamples.

(* ================================================================== *)
(** ** Vocabulary of further properties                                *)
(* ================================================================== *)

Module MoreSpec.

(** The digit values of hex characters. *)
Definition hexValues (cs : list ascii) : list Z :=
  map (fun c => match hexVal c with Some d => d | None => 0 end) cs.

Definition isHexChar (c : ascii) : Prop := hexVal c <> None.

(** How many trailing fields pass their guard. *)
Definition trailingCount (h : RpcBlockHeader) : nat :=
  (Nat.b2n (truthy (baseFeePerGas h))
   + Nat.b2n (truthy (withdrawalsRoot h))
   + Nat.b2n (truthy (blobGasUsed h))
   + Nat.b2n (is_defined (excessBlobGas h))
   + Nat.b2n (truthy (parentBeaconBlockRoot h))
   + Nat.b2n (truthy (requestsHash h)))%nat.

(** A trailing field on which the truthiness test and the presence test
    agree: missing, or present with a truthy value. *)
Definition presentIsTruthy (v : JsValue) : Prop := truthy v = is_defined v.

(** The requests of a run up to the resolved header: the block fetch,
    then what the resolver sent. *)
Definition headerLog (blockNumber : Z) : list RpcCall :=
  GetBlock blockNumber :: resolverRequests blockNumber.

(** The four lines that announce a proof. *)
Definition proofLines (proof : StorageProof.t) : list string :=
  ["[storage-proof-generator] Proof generated successfully";
   "[storage-proof-generator]   Block hash: "
     ++ toStringJs (StorageProof.blockHash proof);
   "[storage-proof-generator]   State root: "
     ++ toStringJs (StorageProof.stateRoot proof);
   "[storage-proof-generator]   Slot value: " ++ StorageProof.slotValue proof].

End MoreSpec.

Export MoreSpec.

(** Headers with one trailing field replaced ([{ ...h, field: v }]), and
    a post-Cancun block without blobs whose excess blob gas is not
    zero. *)
Module TrailingZero.

Definition withBaseFeePerGas (v : JsValue) (h : RpcBlockHeader)
  : RpcBlockHeader :=
  {| parentHash := parentHash h; sha3Uncles := sha3Uncles h;
     miner := miner h; stateRoot := stateRoot h;
     transactionsRoot := transactionsRoot h; receiptsRoot := receiptsRoot h;
     logsBloom := logsBloom h; difficulty := difficulty h;
     number := number h; gasLimit := gasLimit h; gasUsed := gasUsed h;
     timestamp := timestamp h; extraData := extraData h;
     mixHash := mixHash h; nonce := nonce h;
     baseFeePerGas := v;
     withdrawalsRoot := withdrawalsRoot h;
     blobGasUsed := blobGasUsed h;
     excessBlobGas := excessBlobGas h;
     parentBeaconBlockRoot := parentBeaconBlockRoot h;
     requestsHash := requestsHash h |}.

Definition withBlobGasUsed (v : JsValue) (h : RpcBlockHeader)
  : RpcBlockHeader :=
  {| parentHash := parentHash h; sha3Uncles := sha3Uncles h;
     miner := miner h; stateRoot := stateRoot h;
     transactionsRoot := transactionsRoot h; receiptsRoot := receiptsRoot h;
     logsBloom := logsBloom h; difficulty := difficulty h;
     number := number h; gasLimit := gasLimit h; gasUsed := gasUsed h;
     timestamp := timestamp h; extraData := extraData h;
     mixHash := mixHash h; nonce := nonce h;
     baseFeePerGas := baseFeePerGas h;
     withdrawalsRoot := withdrawalsRoot h;
     blobGasUsed := v;
     excessBlobGas := excessBlobGas h;
     parentBeaconBlockRoot := parentBeaconBlockRoot h;
     requestsHash := requestsHash h |}.

(** A post-Cancun block without blobs, as [client.getBlock] returns it:
    [blobGasUsed = 0n], [excessBlobGas = 131072n]. *)
Definition quietCancunHeader : RpcBlockHeader :=
  {| parentHash := JsString (Samples.h32 "1");
     sha3Uncles := JsString (Samples.h32 "2");
     miner := JsString "0x00000000000000000000000000000000000000aa";
     stateRoot := JsString (Samples.h32 "3");
     transactionsRoot := JsString (Samples.h32 "4");
     receiptsRoot := JsString (Samples.h32 "5");
     logsBloom := JsString "0x00";
     difficulty := JsBigInt 0;
     number := JsBigInt 19426587;
     gasLimit := JsBigInt 30000000;
     gasUsed := JsBigInt 255;
     timestamp := JsBigInt 1710338135;
     extraData := JsString "0x";
     mixHash := JsString (Samples.h32 "6");
     nonce := JsString "0x0000000000000000";
     baseFeePerGas := JsBigInt 7;
     withdrawalsRoot := JsString (Samples.h32 "7");
     blobGasUsed := JsBigInt 0;
     excessBlobGas := JsBigInt 131072;
     parentBeaconBlockRoot := JsString (Samples.h32 "8");
     requestsHash := JsUndefined |}.

(** The items the encoder hands to [toRlp] for that block. *)
Definition quietCancunItems : list Hex :=
  [Samples.h32 "1"; Samples.h32 "2";
   "0x00000000000000000000000000000000000000aa";
   Samples.h32 "3"; Samples.h32 "4"; Samples.h32 "5";
   "0x00";
   "0x";                  (* difficulty = 0n *)
   "0x01286d1b";          (* number *)
   "0x01c9c380";          (* gasLimit *)
   "0xff";                (* gasUsed = 255n *)
   "0x65f1b057";          (* timestamp *)
   "0x";                  (* extraData *)
   Samples.h32 "6";
   "0x0000000000000000";
   "0x07";                (* baseFeePerGas *)
   Samples.h32 "7";       (* withdrawalsRoot *)
   "0x020000";            (* excessBlobGas *)
   Samples.h32 "8"].      (* parentBeaconBlockRoot *)

End TrailingZero.

(** The script as Node runs it: [main()] is called at the end of the
    file and nothing catches what it throws. *)
Module CliEntry.

Import Cli CliMain.

(** Text made of ASCII characters only. *)
Definition asciiText (s : string) : bool :=
  forallb (fun c => (nat_of_ascii c <? 128)%nat) (list_ascii_of_string s).

Definition asciiOption (value : option string) : bool :=
  match value with
  | Some s => asciiText s
  | None => true
  end.

(** [!value]: an option that was not given, or given empty. *)
Definition absent (value : option string) : bool :=
  match value with
  | Some s => (s =? "")%string
  | None => true
  end.

(** One of the four required options is absent, or the account is not
    an address. *)
Definition incomplete (isAddress : string -> bool) (values : Values) : bool :=
  absent (rpc values) || absent (account values) || absent (slot values)
  || absent (block values)
  || match account values with
     | Some a => negb (isAddress a)
     | None => true
     end.

Section Entry.

Variable keccak256 : Hex -> option Hex.
Variable toRlp : list Hex -> option Hex.
Variable createPublicClient : string -> PublicClient.
Variable HELP_TEXT : string.
Variable isAddress : string -> bool.
Variable stringify : StorageProof.t -> string.
Variable writeFileSync : string -> string -> option string.
(** [parseArgs({ options, allowPositionals: false })] of [node:util] on
    the arguments of the command line: the parsed values, or the message
    of the error it throws (an unknown option, a positional argument, an
    option without its value). *)
Variable parseArgs : list string -> string + Values.
(** What Node prints for an uncaught error with that message. *)
Variable uncaught : string -> string.

(** [parseArgs] is the first statement of [main], before the [--help]
    test and outside the [try] block: its error rejects the promise of
    [main()], which ends the process with exit code 1.  Otherwise the
    rest of [main] runs on the parsed values. *)
Definition script (argv : list string) : Z * Process :=
  match parseArgs argv with
  | inl error =>
      (1, {| stdout := []; stderr := [uncaught error]; files := [];
             requests := [] |})
  | inr values =>
      runMain keccak256 toRlp createPublicClient HELP_TEXT isAddress
        stringify writeFileSync values
  end.

End Entry.

End CliEntry.

(** Stand-ins for [parseArgs] and for the report of an uncaught error,
    and two more command lines. *)
Module CliEntrySamples.

Import Cli CliSamples.

Definition helpArgs : Values :=
  {| rpc := None; account := None; slot := None; block := None;
     output := None; help := true |}.

Definition badSlotArgs : Values :=
  {| rpc := Some "https://rpc.example.com";
     account := Some "0x5aAeb6053F3E94C9b9A09f33669435E7Ef1BeAed";
     slot := Some "1e3";
     block := Some "1";
     output := None;
     help := false |}.

Definition sampleParseArgs (argv : list string) : string + Values :=
  if existsb (String.eqb "--bogus") argv
  then inl "Unknown option '--bogus'"
  else if existsb (String.eqb "--help") argv then inr helpArgs
  else if existsb (String.eqb "1e3") argv then inr badSlotArgs
  else inr noBlockArgs.

Definition sampleUncaught (error : string) : string :=
  "TypeError [ERR_PARSE_ARGS_UNKNOWN_OPTION]: " ++ error.

End CliEntrySamples.

(* ================================================================== *)
(** ** Hexadecimal text: digits, values and bytes                      *)
(* ================================================================== *)

Module HexFacts.

Lemma digit_cases (d : Z) :
  0 <= d < 16 ->
  d = 0 \/ d = 1 \/ d = 2 \/ d = 3 \/ d = 4 \/ d = 5 \/ d = 6 \/ d = 7 \/
  d = 8 \/ d = 9 \/ d = 10 \/ d = 11 \/ d = 12 \/ d = 13 \/ d = 14 \/ d = 15.
Proof. lia. Qed.

Ltac each_digit H :=
  apply digit_cases in H;
  repeat (destruct H as [H | H]; [subst; try reflexivity |]);
  subst; try reflexivity.

Lemma hexVal_hexChar (d : Z) : 0 <= d < 16 -> hexVal (hexChar d) = Some d.
Proof. intros H. each_digit H. Qed.

Lemma isLowerHex_hexChar (d : Z) : isLowerHex (hexChar d) = true.
Proof.
  destruct d as [| p | p]; try reflexivity.
  do 4 (destruct p as [p | p |]; try reflexivity).
Qed.

Lemma hexChar_is_zero (d : Z) : 0 <= d < 16 -> hexChar d = "0"%char -> d = 0.
Proof. intros H. each_digit H; intros E; discriminate E. Qed.

Lemma length_string_of_list_ascii (l : list ascii) :
  String.length (string_of_list_ascii l) = List.length l.
Proof. induction l as [| c l IH]; simpl; congruence. Qed.

Lemma list_ascii_of_string_append (s t : string) :
  list_ascii_of_string (s ++ t)
  = (list_ascii_of_string s ++ list_ascii_of_string t)%list.
Proof. induction s as [| c s IH]; simpl; congruence. Qed.

Lemma length_append (s t : string) :
  String.length (s ++ t) = (String.length s + String.length t)%nat.
Proof. induction s as [| c s IH]; simpl; congruence. Qed.

Lemma list_ascii_repeatChar (c : ascii) (n : nat) :
  list_ascii_of_string (repeatChar c n) = repeat c n.
Proof. induction n as [| n IH]; simpl; congruence. Qed.

Lemma length_repeatChar (c : ascii) (n : nat) :
  String.length (repeatChar c n) = n.
Proof. induction n as [| n IH]; simpl; congruence. Qed.

Lemma digits16_spec (fuel : nat) :
  forall n, 0 < n < 16 ^ Z.of_nat fuel ->
    le_value (digits16 fuel n) = n
    /\ Forall is_digit (digits16 fuel n)
    /\ exists top front, digits16 fuel n = (front ++ [top])%list /\ 0 < top.
Proof.
  induction fuel as [| f IH]; intros n Hn.
  - simpl in Hn. lia.
  - cbn [digits16]. destruct (n <? 16) eqn:E.
    + apply Z.ltb_lt in E. repeat split.
      * simpl. lia.
      * constructor; [unfold is_digit; lia | constructor].
      * exists n, []. split; [reflexivity | lia].
    + apply Z.ltb_ge in E.
      assert (Hq : 0 < n / 16 < 16 ^ Z.of_nat f).
      { rewrite Nat2Z.inj_succ, Z.pow_succ_r in Hn by lia. split.
        - apply Z.div_str_pos. lia.
        - apply Z.div_lt_upper_bound; lia. }
      destruct (IH _ Hq) as (Hv & Hd & top & front & Hl & Ht).
      repeat split.
      * cbn [le_value]. rewrite Hv.
        pose proof (Z.div_mod n 16). lia.
      * constructor; [| exact Hd].
        unfold is_digit. pose proof (Z.mod_pos_bound n 16). lia.
      * exists top, (n mod 16 :: front). rewrite Hl. split; [reflexivity | exact Ht].
Qed.

Lemma fuel_enough (n : Z) :
  0 < n -> n < 16 ^ Z.of_nat (S (Z.to_nat (Z.log2 n))).
Proof.
  intros Hn.
  pose proof (Z.log2_nonneg n) as Hl.
  pose proof (Z.log2_spec n Hn) as [_ Hu].
  rewrite Nat2Z.inj_succ, Z2Nat.id by lia.
  eapply Z.lt_le_trans; [exact Hu |].
  change 16 with (2 ^ 4). rewrite <- Z.pow_mul_r by lia.
  apply Z.pow_le_mono_r; lia.
Qed.

Lemma be16_app (ds es : list Z) (acc : Z) :
  be16 acc (ds ++ es) = be16 (be16 acc ds) es.
Proof. unfold be16. apply fold_left_app. Qed.

Lemma be16_shift (ds : list Z) :
  forall acc, be16 acc ds = acc * 16 ^ Z.of_nat (List.length ds) + be16 0 ds.
Proof.
  induction ds as [| d ds IH]; intros acc.
  - simpl. lia.
  - cbn [be16 fold_left]. fold (be16 (acc * 16 + d) ds). fold (be16 (0 * 16 + d) ds).
    rewrite (IH (acc * 16 + d)), (IH (0 * 16 + d)).
    cbn [List.length]. rewrite Nat2Z.inj_succ, Z.pow_succ_r by lia. ring.
Qed.

Lemma be16_rev (ds : list Z) : be16 0 (rev ds) = le_value ds.
Proof.
  induction ds as [| d ds IH].
  - reflexivity.
  - cbn [rev le_value]. rewrite be16_app, IH.
    unfold be16. cbn [fold_left]. lia.
Qed.

Lemma natToString16_digits (n : Z) :
  natToString16 n = string_of_list_ascii (map hexChar (hexDigits n)).
Proof. reflexivity. Qed.

Lemma hexDigits_spec (n : Z) :
  0 < n ->
  be16 0 (hexDigits n) = n
  /\ Forall is_digit (hexDigits n)
  /\ exists top rest, hexDigits n = top :: rest /\ 0 < top.
Proof.
  intros Hn.
  destruct (digits16_spec _ n (conj Hn (fuel_enough n Hn)))
    as (Hv & Hd & top & front & Hl & Ht).
  unfold hexDigits. repeat split.
  - rewrite be16_rev. exact Hv.
  - apply Forall_rev. exact Hd.
  - exists top, (rev front). rewrite Hl, rev_app_distr. split; [reflexivity | exact Ht].
Qed.

Lemma hexDigits_zero : hexDigits 0 = [0].
Proof. reflexivity. Qed.

Lemma forallb_lower_digits (ds : list Z) :
  forallb isLowerHex (map hexChar ds) = true.
Proof.
  induction ds as [| d ds IH]; simpl; [reflexivity |].
  rewrite isLowerHex_hexChar. exact IH.
Qed.

End HexFacts.

(* ================================================================== *)
(** ** From digits to bytes                                            *)
(* ================================================================== *)

Module ByteFacts.

Import HexFacts.

Lemma pair_ind {A} (P : list A -> Prop) :
  P [] -> (forall a, P [a]) -> (forall a b l, P l -> P (a :: b :: l)) ->
  forall l, P l.
Proof.
  intros H0 H1 H2 l.
  enough (P l /\ forall a, P (a :: l)) as [H _] by exact H.
  induction l as [| x l [IHl IHx]]; split; auto.
Qed.

Lemma even_length_cons2 {A} (a b : A) (l : list A) :
  Nat.even (List.length (a :: b :: l)) = Nat.even (List.length l).
Proof. reflexivity. Qed.

Lemma hexPairs_digits (ds : list Z) :
  Forall is_digit ds -> Nat.even (List.length ds) = true ->
  hexPairs (map hexChar ds) = Some (pairUp ds).
Proof.
  induction ds as [| a | a b l IH] using pair_ind; intros Hd He.
  - reflexivity.
  - discriminate He.
  - inversion Hd as [| ? ? Ha Hd']; subst.
    inversion Hd' as [| ? ? Hb Hl]; subst.
    cbn [map hexPairs]. rewrite !hexVal_hexChar by assumption.
    rewrite IH by assumption. reflexivity.
Qed.

Lemma be256_pairUp (ds : list Z) :
  Nat.even (List.length ds) = true ->
  forall acc, be256 acc (pairUp ds) = be16 acc ds.
Proof.
  induction ds as [| a | a b l IH] using pair_ind; intros He acc.
  - reflexivity.
  - discriminate He.
  - cbn [pairUp]. unfold be256, be16. cbn [fold_left].
    fold (be256 (acc * 256 + (16 * a + b)) (pairUp l)).
    fold (be16 ((acc * 16 + a) * 16 + b) l).
    rewrite IH by exact He. f_equal. ring.
Qed.

Lemma length_pairUp (ds : list Z) :
  Nat.even (List.length ds) = true ->
  (2 * List.length (pairUp ds) = List.length ds)%nat.
Proof.
  induction ds as [| a | a b l IH] using pair_ind; intros He.
  - reflexivity.
  - discriminate He.
  - cbn [pairUp List.length]. specialize (IH He). lia.
Qed.

Lemma pairUp_bytes (ds : list Z) :
  Forall is_digit ds -> Forall is_byte (pairUp ds).
Proof.
  induction ds as [| a | a b l IH] using pair_ind; intros Hd.
  - constructor.
  - constructor.
  - inversion Hd as [| ? ? Ha Hd']; subst.
    inversion Hd' as [| ? ? Hb Hl]; subst.
    cbn [pairUp]. constructor; [| auto].
    unfold is_digit in *. unfold is_byte. lia.
Qed.

Lemma be256_shift (bs : list Z) :
  forall acc, be256 acc bs = acc * 256 ^ Z.of_nat (List.length bs) + be256 0 bs.
Proof.
  induction bs as [| b bs IH]; intros acc.
  - simpl. lia.
  - unfold be256. cbn [fold_left].
    fold (be256 (acc * 256 + b) bs). fold (be256 (0 * 256 + b) bs).
    rewrite (IH (acc * 256 + b)), (IH (0 * 256 + b)).
    cbn [List.length]. rewrite Nat2Z.inj_succ, Z.pow_succ_r by lia. ring.
Qed.

Lemma be256_bound (bs : list Z) :
  Forall is_byte bs -> 0 <= be256 0 bs < 256 ^ Z.of_nat (List.length bs).
Proof.
  induction 1 as [| b bs Hb Hbs IH].
  - simpl. lia.
  - unfold be256. cbn [fold_left]. fold (be256 (0 * 256 + b) bs).
    rewrite be256_shift.
    cbn [List.length]. rewrite Nat2Z.inj_succ, Z.pow_succ_r by lia.
    unfold is_byte in Hb.
    assert (0 < 256 ^ Z.of_nat (List.length bs)) by (apply Z.pow_pos_nonneg; lia).
    nia.
Qed.

Lemma be_value_be256 (bs : list Z) : be_value bs = be256 0 bs.
Proof. reflexivity. Qed.

(** A byte string without a leading zero byte is the shortest one with
    its value. *)
Lemma no_leading_zero_shortest (b : Z) (rest other : list Z) :
  Forall is_byte (b :: rest) -> b <> 0 -> Forall is_byte other ->
  be_value other = be_value (b :: rest) ->
  (List.length (b :: rest) <= List.length other)%nat.
Proof.
  intros Hbs Hb Ho Hv.
  inversion Hbs as [| ? ? Hb' Hrest]; subst.
  pose proof (be256_bound other Ho) as Hbo.
  pose proof (be256_bound rest Hrest) as Hbr.
  change (be_value other) with (be256 0 other) in Hv.
  change (be_value (b :: rest)) with (be256 (0 * 256 + b) rest) in Hv.
  rewrite (be256_shift rest) in Hv.
  assert (Hlt : 256 ^ Z.of_nat (List.length rest)
                < 256 ^ Z.of_nat (List.length other)).
  { unfold is_byte in Hb'.
    assert (0 < 256 ^ Z.of_nat (List.length rest)) by (apply Z.pow_pos_nonneg; lia).
    nia. }
  apply Z.pow_lt_mono_r_iff in Hlt; [| lia | lia].
  cbn [List.length]. lia.
Qed.

End ByteFacts.

(* ================================================================== *)
(** ** The encoder: integer items and the shape of the field list      *)
(* ================================================================== *)

Module EncoderFacts.

Import HexFacts ByteFacts.

Lemma rbind_ok {A B} (r : result A) (k : A -> result B) (b : B) :
  rbind r k = Ok b -> exists a, r = Ok a /\ k a = Ok b.
Proof.
  destruct r as [e | a]; simpl; intros H; [discriminate H |].
  exists a. split; [reflexivity | exact H].
Qed.

Lemma encodes_all_Forall2 fs xs :
  encodes_all fs xs = true <-> Forall2 encodes fs xs.
Proof.
  revert xs. induction fs as [| f fs IH]; intros [| x xs]; cbn [encodes_all].
  - split; [constructor | reflexivity].
  - split; intros H; [discriminate H | inversion H].
  - split; intros H; [discriminate H | inversion H].
  - split; intros H.
    + destruct (encodeField (fst f) (snd f)) as [e | y] eqn:E; [discriminate H |].
      apply andb_true_iff in H as [H1 H2]. apply String.eqb_eq in H1. subst y.
      constructor; [unfold encodes; exact E | apply IH; exact H2].
    + inversion H as [| ? ? ? ? He Hr]; subst. unfold encodes in He.
      rewrite He. unfold Ok. rewrite String.eqb_refl. apply IH. exact Hr.
Qed.

(** *** [cleanHex] and [encodeInt] *)

Lemma strip0x_cons (c : ascii) (s : string) :
  c <> "0"%char -> strip0x (String c s) = String c s.
Proof.
  intros Hc. unfold strip0x.
  destruct c as [[] [] [] [] [] [] [] []]; try reflexivity.
  exfalso. apply Hc. reflexivity.
Qed.

Lemma evenDigits_even (ds : list Z) :
  Nat.even (List.length (evenDigits ds)) = true.
Proof.
  unfold evenDigits. destruct (Nat.even (List.length ds)) eqn:E; [exact E |].
  cbn [List.length]. rewrite Nat.even_succ, <- Nat.negb_even, E. reflexivity.
Qed.

Lemma encodeInt_BigInt (v : JsValue) (n : Z) :
  BigInt v = Ok n -> encodeInt v = encodeInt (JsBigInt n).
Proof. unfold encodeInt. intros ->. reflexivity. Qed.

Lemma encodeInt_zero : encodeInt (JsBigInt 0) = Ok "0x".
Proof. reflexivity. Qed.

Lemma encodeInt_positive (n : Z) :
  0 < n ->
  encodeInt (JsBigInt n)
  = Ok ("0x" ++ string_of_list_ascii (map hexChar (evenDigits (hexDigits n)))).
Proof.
  intros Hn.
  destruct (hexDigits_spec n Hn) as (_ & Hd & top & rest & Hl & Ht).
  unfold encodeInt. cbn [BigInt rbind Ok].
  destruct (n =? 0) eqn:E; [apply Z.eqb_eq in E; lia |].
  unfold toString16. destruct (n <? 0) eqn:E'; [apply Z.ltb_lt in E'; lia |].
  rewrite natToString16_digits. unfold cleanHex, evenDigits.
  rewrite Hl. cbn [map string_of_list_ascii].
  rewrite strip0x_cons.
  - change (String.length (String (hexChar top) (string_of_list_ascii (map hexChar rest))))
      with (String.length (string_of_list_ascii (map hexChar (top :: rest)))).
    rewrite length_string_of_list_ascii, length_map.
    destruct (Nat.even (List.length (top :: rest))); reflexivity.
  - intros Hc. rewrite Hl in Hd. inversion Hd as [| ? ? Htop _]; subst.
    apply hexChar_is_zero in Hc; [lia | exact Htop].
Qed.

Lemma hexToBytes_of_digits (ds : list Z) :
  hexToBytes ("0x" ++ string_of_list_ascii (map hexChar ds))
  = hexPairs (map hexChar ds).
Proof.
  cbn [append hexToBytes]. rewrite list_ascii_of_string_of_list_ascii.
  reflexivity.
Qed.

Lemma canonicalHex_of_digits (ds : list Z) :
  Nat.even (List.length ds) = true ->
  canonicalHex ("0x" ++ string_of_list_ascii (map hexChar ds)) = true.
Proof.
  intros He. cbn [append canonicalHex].
  rewrite list_ascii_of_string_of_list_ascii, forallb_lower_digits.
  rewrite length_string_of_list_ascii, length_map, He. reflexivity.
Qed.

Lemma evenDigits_spec (n : Z) :
  0 < n ->
  Forall is_digit (evenDigits (hexDigits n))
  /\ be16 0 (evenDigits (hexDigits n)) = n
  /\ exists b rest, pairUp (evenDigits (hexDigits n)) = b :: rest /\ b <> 0.
Proof.
  intros Hn.
  destruct (hexDigits_spec n Hn) as (Hv & Hd & top & rest & Hl & Ht).
  pose proof (evenDigits_even (hexDigits n)) as He.
  unfold evenDigits in *.
  destruct (Nat.even (List.length (hexDigits n))) eqn:E.
  - repeat split; try assumption.
    rewrite Hl in *. destruct rest as [| d rest]; [discriminate E |].
    exists (16 * top + d), (pairUp rest). split; [reflexivity |].
    inversion Hd as [| ? ? _ Hd']; subst.
    inversion Hd' as [| ? ? Hdd _]; subst. unfold is_digit in Hdd. lia.
  - repeat split.
    + constructor; [unfold is_digit; lia | exact Hd].
    + exact Hv.
    + rewrite Hl. exists (16 * 0 + top), (pairUp rest). split; [reflexivity | lia].
Qed.

(** The item emitted for a positive integer denotes its minimal
    big-endian byte string. *)
Lemma encodeInt_positive_minimal (n : Z) :
  0 < n ->
  exists x bs,
    encodeInt (JsBigInt n) = Ok x
    /\ canonicalHex x = true
    /\ hexToBytes x = Some bs
    /\ minimal_big_endian n bs.
Proof.
  intros Hn.
  destruct (evenDigits_spec n Hn) as (Hd & Hv & b & rest & Hp & Hb).
  pose proof (evenDigits_even (hexDigits n)) as He.
  exists ("0x" ++ string_of_list_ascii (map hexChar (evenDigits (hexDigits n)))),
         (pairUp (evenDigits (hexDigits n))).
  split; [apply encodeInt_positive; exact Hn |].
  split; [apply canonicalHex_of_digits; exact He |].
  split; [rewrite hexToBytes_of_digits; apply hexPairs_digits; assumption |].
  assert (Hbytes : Forall is_byte (pairUp (evenDigits (hexDigits n))))
    by (apply pairUp_bytes; exact Hd).
  assert (Hval : be_value (pairUp (evenDigits (hexDigits n))) = n).
  { rewrite be_value_be256, be256_pairUp by exact He. exact Hv. }
  repeat split; try assumption.
  - intros b' rest' Hbs. rewrite Hp in Hbs. injection Hbs as <- _. exact Hb.
  - intros other Ho Hvo. rewrite Hp in *.
    apply no_leading_zero_shortest; try assumption. congruence.
Qed.

Lemma minimal_zero : minimal_big_endian 0 [].
Proof.
  repeat split.
  - constructor.
  - intros b rest H. discriminate H.
  - intros other _ _. simpl. lia.
Qed.

End EncoderFacts.

Module EncoderShape.

Import HexFacts ByteFacts EncoderFacts.

Lemma push_if_ok (cond : bool) (k : FieldKind) (v : JsValue)
    (fields fields' : list Hex) :
  push_if cond (encodeField k v) fields = Ok fields' ->
  exists out, fields' = (fields ++ out)%list
              /\ Forall2 encodes (keep cond (k, v)) out.
Proof.
  unfold push_if, keep. destruct cond; intros H.
  - apply rbind_ok in H as (x & Hx & H). injection H as <-.
    exists [x]. split; [reflexivity |]. constructor; [exact Hx | constructor].
  - injection H as <-. exists []. rewrite app_nil_r. split; constructor.
Qed.

Ltac step_bind :=
  match goal with
  | H : rbind _ _ = Ok _ |- _ =>
      let x := fresh "x" in
      let Hx := fresh "Hx" in
      apply rbind_ok in H; destruct H as (x & Hx & H)
  end.

Lemma baseFields_layout (h : RpcBlockHeader) (base : list Hex) :
  baseFields h = Ok base -> Forall2 encodes (baseLayout h) base.
Proof.
  unfold baseFields. intros H. repeat step_bind. injection H as <-.
  unfold baseLayout. repeat constructor; assumption.
Qed.

(** Every item of the list comes from the field of the same position in
    [emittedLayout], through [encodeInt] for an integer field and
    through [cleanHex] for the others. *)
Lemma headerFields_layout (h : RpcBlockHeader) (items : list Hex) :
  headerFields h = Ok items -> Forall2 encodes (emittedLayout h) items.
Proof.
  unfold headerFields. intros H.
  apply rbind_ok in H as (base & Hbase & H).
  apply rbind_ok in H as (l1 & H1 & H).
  apply rbind_ok in H as (l2 & H2 & H).
  apply rbind_ok in H as (l3 & H3 & H).
  apply rbind_ok in H as (l4 & H4 & H).
  apply rbind_ok in H as (l5 & H5 & H).
  apply (push_if_ok _ IntField) in H1 as (o1 & -> & F1).
  apply (push_if_ok _ BytesField) in H2 as (o2 & -> & F2).
  apply (push_if_ok _ IntField) in H3 as (o3 & -> & F3).
  apply (push_if_ok _ IntField) in H4 as (o4 & -> & F4).
  apply (push_if_ok _ BytesField) in H5 as (o5 & -> & F5).
  apply (push_if_ok _ BytesField) in H as (o6 & -> & F6).
  apply baseFields_layout in Hbase.
  unfold emittedLayout. rewrite <- !app_assoc.
  repeat (apply Forall2_app; [assumption |]). assumption.
Qed.

(** Where every trailing field that is present is also truthy (a
    non-empty string, a non-zero bigint), the guards of the source agree
    with availability. *)
Lemma emittedLayout_specLayout (h : RpcBlockHeader) :
  truthy (baseFeePerGas h) = is_defined (baseFeePerGas h) ->
  truthy (withdrawalsRoot h) = is_defined (withdrawalsRoot h) ->
  truthy (blobGasUsed h) = is_defined (blobGasUsed h) ->
  truthy (parentBeaconBlockRoot h) = is_defined (parentBeaconBlockRoot h) ->
  truthy (requestsHash h) = is_defined (requestsHash h) ->
  emittedLayout h = specLayout h.
Proof.
  intros H1 H2 H3 H4 H5. unfold emittedLayout, specLayout.
  rewrite H1, H2, H3, H4, H5. reflexivity.
Qed.

(** The fifteen base fields always come first, in the fixed order. *)
Lemma emittedLayout_base (h : RpcBlockHeader) :
  firstn 15 (emittedLayout h) = baseLayout h.
Proof. reflexivity. Qed.

End EncoderShape.

(* ================================================================== *)
(** ** Properties of the encoder                                       *)
(* ================================================================== *)

Module EncoderProperties.

Import HexFacts ByteFacts EncoderFacts EncoderShape Samples TrailingZero.

(** C1 (the code departs from the claim).  The claim: after the fifteen
    base fields the list holds exactly the trailing fields available in
    the source header.  The encoder guards [excessBlobGas] with
    [!== undefined] but the other trailing fields with a truthiness test,
    so a trailing field that is present with a falsy value is dropped.
    For a post-Cancun block without blobs, as [client.getBlock] returns
    it ([blobGasUsed = 0n], [excessBlobGas = 0n]), the field
    [blobGasUsed] is available and yet contributes no item: the list has
    19 items where the header has 20 fields, while the sibling
    [excessBlobGas = 0n] is emitted as the empty string.  The same
    happens under the declared string typing with [blobGasUsed = ''];
    with [blobGasUsed = '0x0'] the list is the one the claim asks for. *)
Theorem encoder_drops_present_falsy_trailing_field :
  (is_defined (blobGasUsed (cancunHeader (JsBigInt 0))) = true
   /\ exists items,
        headerFields (cancunHeader (JsBigInt 0)) = Ok items
        /\ List.length (specLayout (cancunHeader (JsBigInt 0))) = 20%nat
        /\ List.length items = 19%nat
        /\ nth_error items 16 = Some (h32 "7")   (* withdrawalsRoot *)
        /\ nth_error items 17 = Some "0x"        (* excessBlobGas = 0n *)
        /\ nth_error items 18 = Some (h32 "8")   (* parentBeaconBlockRoot *)
        /\ ~ Forall2 encodes (specLayout (cancunHeader (JsBigInt 0))) items)
  /\ (is_defined (blobGasUsed (cancunHeaderText (JsString ""))) = true
      /\ exists items,
           headerFields (cancunHeaderText (JsString "")) = Ok items
           /\ List.length items = 19%nat
           /\ ~ Forall2 encodes (specLayout (cancunHeaderText (JsString ""))) items)
  /\ (exists items,
        headerFields (cancunHeaderText (JsString "0x0")) = Ok items
        /\ List.length items = 20%nat
        /\ nth_error items 17 = Some "0x"        (* blobGasUsed = 0 *)
        /\ Forall2 encodes (specLayout (cancunHeaderText (JsString "0x0"))) items).
Proof.
  split; [| split].
  - split; [reflexivity |].
    eexists. split; [vm_compute; reflexivity |].
    repeat (split; [reflexivity |]).
    intros H. apply encodes_all_Forall2 in H. vm_compute in H. discriminate H.
  - split; [reflexivity |].
    eexists. split; [vm_compute; reflexivity |].
    split; [reflexivity |].
    intros H. apply encodes_all_Forall2 in H. vm_compute in H. discriminate H.
  - eexists. split; [vm_compute; reflexivity |].
    repeat (split; [reflexivity |]).
    apply encodes_all_Forall2. vm_compute. reflexivity.
Qed.

(** The rule of [encodeInt]: an unsigned value becomes its minimal
    big-endian byte string; 0 gives the empty byte string (the text
    ["0x"], not a zero byte), 255 gives the single byte [0xff], and the
    bytes never start with a zero byte. *)
Lemma encodeInt_minimal (v : JsValue) (n : Z) :
  BigInt v = Ok n -> 0 <= n ->
  exists x bs,
    encodeInt v = Ok x
    /\ canonicalHex x = true
    /\ hexToBytes x = Some bs
    /\ minimal_big_endian n bs
    /\ (n = 0 -> x = "0x" /\ bs = [])
    /\ (n = 255 -> x = "0xff" /\ bs = [255]).
Proof.
  intros Hv Hn. rewrite (encodeInt_BigInt v n Hv).
  assert (Hc : n = 0 \/ 0 < n) by lia. destruct Hc as [-> | Hpos].
  - exists "0x", [].
    split; [reflexivity |]. split; [reflexivity |]. split; [reflexivity |].
    split; [exact minimal_zero |].
    split; [intros _; split; reflexivity | intros H; discriminate H].
  - destruct (encodeInt_positive_minimal n Hpos) as (x & bs & Hx & Hcan & Hb & Hmin).
    exists x, bs.
    split; [exact Hx |]. split; [exact Hcan |]. split; [exact Hb |].
    split; [exact Hmin |].
    split; [intros ->; lia |].
    intros ->. vm_compute in Hx. injection Hx as <-.
    vm_compute in Hb. injection Hb as <-. split; reflexivity.
Qed.

(** A trailing field whose guard is a truthiness test is encoded, when
    its value is falsy, as if the header did not have it. *)
Lemma falsy_baseFeePerGas_as_absent (h : RpcBlockHeader) :
  truthy (baseFeePerGas h) = false ->
  headerFields h = headerFields (withBaseFeePerGas JsUndefined h).
Proof.
  intros H. destruct h. unfold headerFields, baseFields, withBaseFeePerGas.
  cbn [parentHash sha3Uncles miner stateRoot transactionsRoot receiptsRoot
       logsBloom difficulty number gasLimit gasUsed timestamp extraData
       mixHash nonce baseFeePerGas withdrawalsRoot blobGasUsed excessBlobGas
       parentBeaconBlockRoot requestsHash] in H |- *.
  rewrite H. reflexivity.
Qed.

Lemma falsy_blobGasUsed_as_absent (h : RpcBlockHeader) :
  truthy (blobGasUsed h) = false ->
  headerFields h = headerFields (withBlobGasUsed JsUndefined h).
Proof.
  intros H. destruct h. unfold headerFields, baseFields, withBlobGasUsed.
  cbn [parentHash sha3Uncles miner stateRoot transactionsRoot receiptsRoot
       logsBloom difficulty number gasLimit gasUsed timestamp extraData
       mixHash nonce baseFeePerGas withdrawalsRoot blobGasUsed excessBlobGas
       parentBeaconBlockRoot requestsHash] in H |- *.
  rewrite H. reflexivity.
Qed.

(** C2 (the code departs from the claim, by the defect of C1).  The
    claim: every integer-typed header field, the trailing ones
    included, is emitted as the minimal big-endian byte string, the
    value 0 as the empty string.  [encodeInt] does that for every
    unsigned value it is given (first part).  But the trailing fields
    [baseFeePerGas] and [blobGasUsed] are guarded by a truthiness test,
    and the value 0 ([0n], or the text ['']) is falsy: such a field
    never reaches [encodeInt], and the header is encoded exactly as if
    it did not have the field (second and third part).  For a
    post-Cancun block without blobs ([blobGasUsed = 0n],
    [excessBlobGas = 131072n]) the encoder returns 19 items, with
    nothing for [blobGasUsed] between [withdrawalsRoot] and
    [excessBlobGas]; the list the claim asks for is that list with the
    empty string ["0x"] inserted at position 17, which is what the
    encoder returns when the same zero is written ['0x0'], and what it
    does for the sibling field [excessBlobGas = 0n] and for the base
    field [difficulty = 0n]. *)
Theorem zero_trailing_quantity_not_encoded :
  (forall (v : JsValue) (n : Z),
      BigInt v = Ok n -> 0 <= n ->
      exists x bs,
        encodeInt v = Ok x
        /\ canonicalHex x = true
        /\ hexToBytes x = Some bs
        /\ minimal_big_endian n bs
        /\ (n = 0 -> x = "0x" /\ bs = [])
        /\ (n = 255 -> x = "0xff" /\ bs = [255]))
  /\ (forall h : RpcBlockHeader,
        truthy (baseFeePerGas h) = false ->
        headerFields h = headerFields (withBaseFeePerGas JsUndefined h))
  /\ (forall h : RpcBlockHeader,
        truthy (blobGasUsed h) = false ->
        headerFields h = headerFields (withBlobGasUsed JsUndefined h))
  /\ (BigInt (blobGasUsed quietCancunHeader) = Ok 0
      /\ is_defined (blobGasUsed quietCancunHeader) = true
      /\ headerFields quietCancunHeader = Ok quietCancunItems
      /\ List.length quietCancunItems = 19%nat
      /\ nth_error quietCancunItems 7 = Some "0x"           (* difficulty = 0n *)
      /\ nth_error quietCancunItems 16 = Some (h32 "7")     (* withdrawalsRoot *)
      /\ nth_error quietCancunItems 17 = Some "0x020000"    (* excessBlobGas *)
      /\ ~ Forall2 encodes (specLayout quietCancunHeader) quietCancunItems
      /\ Forall2 encodes (specLayout quietCancunHeader)
           (firstn 17 quietCancunItems ++ ["0x"] ++ skipn 17 quietCancunItems)%list
      /\ headerFields (withBlobGasUsed (JsString "0x0") quietCancunHeader)
         = Ok (firstn 17 quietCancunItems ++ ["0x"] ++ skipn 17 quietCancunItems)%list)
  /\ (BigInt (baseFeePerGas (withBaseFeePerGas (JsBigInt 0) quietCancunHeader))
      = Ok 0
      /\ headerFields (withBaseFeePerGas (JsBigInt 0) quietCancunHeader)
         = Ok (firstn 15 quietCancunItems ++ skipn 16 quietCancunItems)%list).
Proof.
  split; [exact encodeInt_minimal |].
  split; [exact falsy_baseFeePerGas_as_absent |].
  split; [exact falsy_blobGasUsed_as_absent |].
  split.
  - split; [reflexivity |]. split; [reflexivity |].
    split; [vm_compute; reflexivity |].
    split; [reflexivity |]. split; [reflexivity |].
    split; [reflexivity |]. split; [reflexivity |].
    split.
    + intros H. apply encodes_all_Forall2 in H. vm_compute in H. discriminate H.
    + split; [apply encodes_all_Forall2; vm_compute; reflexivity |].
      vm_compute. reflexivity.
  - split; [reflexivity | vm_compute; reflexivity].
Qed.

(** Witness for C2: the field [gasUsed = '0xff'] of a legacy header
    through [encodeInt], and the block without blobs, which is encoded
    as if it had no [blobGasUsed]. *)
Lemma zero_trailing_quantity_not_encoded_witness :
  (exists x bs,
      encodeInt (gasUsed legacyHeader) = Ok x
      /\ canonicalHex x = true
      /\ hexToBytes x = Some bs
      /\ minimal_big_endian 255 bs
      /\ (255 = 0 -> x = "0x" /\ bs = [])
      /\ (255 = 255 -> x = "0xff" /\ bs = [255]))
  /\ headerFields (withBaseFeePerGas (JsString "") quietCancunHeader)
     = headerFields
         (withBaseFeePerGas JsUndefined
            (withBaseFeePerGas (JsString "") quietCancunHeader))
  /\ headerFields quietCancunHeader
     = headerFields (withBlobGasUsed JsUndefined quietCancunHeader).
Proof.
  split; [| split].
  - apply (proj1 zero_trailing_quantity_not_encoded (gasUsed legacyHeader) 255).
    + reflexivity.
    + lia.
  - apply (proj1 (proj2 zero_trailing_quantity_not_encoded)
             (withBaseFeePerGas (JsString "") quietCancunHeader)).
    reflexivity.
  - apply (proj1 (proj2 (proj2 zero_trailing_quantity_not_encoded))
             quietCancunHeader).
    reflexivity.
Defined.

End EncoderProperties.

(* ================================================================== *)
(** ** The request monad                                               *)
(* ================================================================== *)

Module MonadFacts.

Lemma bind_ok_eq {A B} (m : M A) (k : A -> M B) log a log1 :
  m log = (Ok a, log1) -> bind m k log = k a log1.
Proof. unfold bind. intros ->. reflexivity. Qed.

Lemma bind_throw_eq {A B} (m : M A) (k : A -> M B) log e log1 :
  m log = (Throw e, log1) -> bind m k log = (Throw e, log1).
Proof. unfold bind. intros ->. reflexivity. Qed.

Lemma bind_ok_inv {A B} (m : M A) (k : A -> M B) log b log' :
  bind m k log = (Ok b, log') ->
  exists a log1, m log = (Ok a, log1) /\ k a log1 = (Ok b, log').
Proof.
  unfold bind. destruct (m log) as [[e | a] log1]; intros H.
  - discriminate H.
  - exists a, log1. split; [reflexivity | exact H].
Qed.

Lemma bind_throw_inv {A B} (m : M A) (k : A -> M B) log e log' :
  bind m k log = (Throw e, log') ->
  m log = (Throw e, log')
  \/ exists a log1, m log = (Ok a, log1) /\ k a log1 = (Throw e, log').
Proof.
  unfold bind. destruct (m log) as [[e1 | a] log1]; intros H.
  - left. injection H as -> ->. reflexivity.
  - right. exists a, log1. split; [reflexivity | exact H].
Qed.

Lemma lift_ok_inv {A} (r : result A) log a log' :
  lift r log = (Ok a, log') -> r = Ok a /\ log' = log.
Proof. unfold lift. intros H. injection H as -> ->. split; reflexivity. Qed.

Lemma lift_throw_inv {A} (r : result A) log e log' :
  lift r log = (Throw e, log') -> r = Throw e /\ log' = log.
Proof. unfold lift. intros H. injection H as -> ->. split; reflexivity. Qed.

Lemma call_ok_inv {A} (c : RpcCall) (resp : string + A) log a log' :
  call c resp log = (Ok a, log') -> resp = inr a /\ log' = (log ++ [c])%list.
Proof.
  unfold call. destruct resp as [reason | x]; intros H.
  - discriminate H.
  - injection H as -> <-. split; reflexivity.
Qed.

Lemma call_throw_inv {A} (c : RpcCall) (resp : string + A) log e log' :
  call c resp log = (Throw e, log') ->
  exists reason, resp = inl reason /\ e = RpcFailure reason
                 /\ log' = (log ++ [c])%list.
Proof.
  unfold call. destruct resp as [reason | x]; intros H.
  - injection H as <- <-. exists reason. repeat split.
  - discriminate H.
Qed.

Lemma ret_ok_inv {A} (x : A) log a log' :
  ret x log = (Ok a, log') -> a = x /\ log' = log.
Proof. unfold ret. intros H. injection H as -> ->. split; reflexivity. Qed.

End MonadFacts.

(* ================================================================== *)
(** ** What each step of the generator can return                      *)
(* ================================================================== *)

Module GeneratorFacts.

Import ProofGeneratorOptions HexFacts ByteFacts EncoderFacts MonadFacts
       GeneratorSpec.

Lemma runtime_only_Ok {A} (a : A) : runtime_only (Ok a).
Proof. intros e H. discriminate H. Qed.

Lemma runtime_only_rbind {A B} (r : result A) (k : A -> result B) :
  runtime_only r -> (forall a, runtime_only (k a)) -> runtime_only (rbind r k).
Proof.
  intros Hr Hk e H. destruct r as [e' | a]; simpl in H.
  - apply Hr. injection H as ->. reflexivity.
  - apply (Hk a). exact H.
Qed.

Lemma runtime_only_BigInt v : runtime_only (BigInt v).
Proof.
  intros e H. destruct v as [| | s | n]; simpl in H;
    try destruct (StringToBigInt s); inversion H; reflexivity.
Qed.

Lemma runtime_only_cleanHex v : runtime_only (cleanHex v).
Proof. intros e H. destruct v; simpl in H; inversion H; reflexivity. Qed.

Lemma runtime_only_encodeInt v : runtime_only (encodeInt v).
Proof.
  unfold encodeInt. apply runtime_only_rbind; [apply runtime_only_BigInt |].
  intros n. destruct (n =? 0); [apply runtime_only_Ok | apply runtime_only_cleanHex].
Qed.

Lemma runtime_only_pad hex size : runtime_only (pad hex size).
Proof.
  intros e H. unfold pad in H.
  destruct (size * 2 <? String.length (strip0x hex))%nat; inversion H; reflexivity.
Qed.

Lemma runtime_only_numberToHex n size : runtime_only (numberToHex n size).
Proof.
  intros e H. unfold numberToHex in H.
  destruct (_ || _); [inversion H; reflexivity |].
  destruct size as [[| sz] |]; try discriminate H.
  apply runtime_only_pad in H. exact H.
Qed.

Lemma runtime_only_toHex v : runtime_only (toHex v).
Proof.
  intros e H. destruct v as [| | s | n]; simpl in H;
    try (inversion H; reflexivity).
  apply runtime_only_numberToHex in H. exact H.
Qed.

Lemma runtime_only_prim {A} (o : option A) what : runtime_only (prim o what).
Proof. intros e H. destruct o; inversion H; reflexivity. Qed.

Lemma prim_ok {A} (o : option A) what (a : A) :
  prim o what = Ok a -> o = Some a.
Proof. destruct o; intros H; inversion H; reflexivity. Qed.

Lemma runtime_only_first_entry {A} (l : list A) : runtime_only (first_entry l).
Proof. intros e H. destruct l; inversion H; reflexivity. Qed.

Lemma runtime_only_push_if cond item fields :
  runtime_only item -> runtime_only (push_if cond item fields).
Proof.
  intros Hi. unfold push_if. destruct cond; [| apply runtime_only_Ok].
  apply runtime_only_rbind; [exact Hi | intros; apply runtime_only_Ok].
Qed.

Lemma runtime_only_headerFields h : runtime_only (headerFields h).
Proof.
  unfold headerFields, baseFields.
  repeat first
    [ apply runtime_only_Ok
    | apply runtime_only_cleanHex
    | apply runtime_only_encodeInt
    | apply runtime_only_push_if
    | apply runtime_only_rbind; [| intros ?] ].
Qed.

Section Generator.

Variable keccak256 : Hex -> option Hex.
Variable toRlp : list Hex -> option Hex.
Variable createPublicClient : string -> PublicClient.

Lemma runtime_only_encodeBlockHeaderToRlp h :
  runtime_only (encodeBlockHeaderToRlp toRlp h).
Proof.
  unfold encodeBlockHeaderToRlp.
  apply runtime_only_rbind; [apply runtime_only_headerFields |].
  intros fields. apply runtime_only_prim.
Qed.

Lemma runtime_only_keccak256_first l : runtime_only (keccak256_first keccak256 l).
Proof.
  intros e H. destruct l as [| x l]; simpl in H.
  - inversion H. reflexivity.
  - apply runtime_only_prim in H. exact H.
Qed.

(** The resolver of the source computes what the specification words. *)
Lemma getRlpBlockHeader_resolve_spec client blockNumber blockHeader log :
  getRlpBlockHeader toRlp client blockNumber blockHeader log
  = (resolve_spec toRlp (fastPath client blockNumber) (header blockHeader),
     (log ++ resolverRequests blockNumber)%list).
Proof.
  unfold getRlpBlockHeader, try_catch, bind, lift, call, ret, fastPath,
    resolverRequests, resolve_spec.
  destruct (toHex (JsBigInt blockNumber)) as [e | param]; cbn [rbind].
  - rewrite app_nil_r.
    destruct (encodeBlockHeaderToRlp toRlp (header blockHeader)); reflexivity.
  - destruct (request client "debug_getRawHeader" [param]) as [reason | raw].
    + cbn [Throw]. destruct (encodeBlockHeaderToRlp toRlp (header blockHeader)); reflexivity.
    + reflexivity.
Qed.

Lemma resolve_spec_runtime_only fast h :
  runtime_only (resolve_spec toRlp fast h).
Proof.
  unfold resolve_spec. destruct fast as [e | raw]; [| apply runtime_only_Ok].
  apply runtime_only_rbind; [apply runtime_only_encodeBlockHeaderToRlp |].
  intros; apply runtime_only_Ok.
Qed.

(** What a successful storage-proof fetch has done. *)
Lemma getStorageAndAccountProof_ok client account slot blockNumber log proofs log' :
  getStorageAndAccountProof keccak256 toRlp client account slot blockNumber log
  = (Ok proofs, log') ->
  exists storageKey proof node nodes entry entries,
    numberToHex slot (Some 32%nat) = Ok storageKey
    /\ getProof client account [storageKey] blockNumber = inr proof
    /\ log' = (log ++ [GetProof account [storageKey] blockNumber])%list
    /\ accountProof proof = node :: nodes
    /\ keccak256 node = Some (computedStateRoot proofs)
    /\ toRlp (accountProof proof) = Some (rlpAccountProof proofs)
    /\ storageProof proof = entry :: entries
    /\ toRlp (Rpc.proof entry) = Some (rlpStorageProof proofs)
    /\ toHex (JsBigInt (value entry)) = Ok (slotValue proofs).
Proof.
  unfold getStorageAndAccountProof. intros H.
  apply bind_ok_inv in H as (storageKey & log1 & Hkey & H).
  apply lift_ok_inv in Hkey as [Hkey ->].
  apply bind_ok_inv in H as (proof & log2 & Hcall & H).
  apply call_ok_inv in Hcall as [Hproof ->].
  apply lift_ok_inv in H as [H ->].
  apply rbind_ok in H as (root & Hroot & H).
  apply rbind_ok in H as (rlpA & HrlpA & H).
  apply rbind_ok in H as (entry & Hentry & H).
  apply rbind_ok in H as (rlpS & HrlpS & H).
  apply rbind_ok in H as (entry' & Hentry' & H).
  apply rbind_ok in H as (sv & Hsv & H).
  injection H as <-. cbn [computedStateRoot rlpAccountProof rlpStorageProof slotValue].
  apply prim_ok in HrlpA, HrlpS.
  destruct (accountProof proof) as [| node nodes] eqn:Ha; [discriminate Hroot |].
  destruct (storageProof proof) as [| e0 entries] eqn:Hs; [discriminate Hentry |].
  cbn in Hentry, Hentry'. injection Hentry as <-. injection Hentry' as <-.
  cbn [keccak256_first] in Hroot. apply prim_ok in Hroot.
  exists storageKey, proof, node, nodes, e0, entries.
  repeat split; try assumption; try reflexivity.
  rewrite Ha. exact HrlpA.
Qed.

(** A failed storage-proof fetch fails with the collaborator's error or
    with a run-time error. *)
Lemma getStorageAndAccountProof_throw client account slot blockNumber log e log' :
  getStorageAndAccountProof keccak256 toRlp client account slot blockNumber log
  = (Throw e, log') ->
  is_runtime_error e = true \/ exists reason, e = RpcFailure reason.
Proof.
  unfold getStorageAndAccountProof. intros H.
  apply bind_throw_inv in H as [H | (storageKey & log1 & _ & H)].
  { apply lift_throw_inv in H as [H _]. left.
    apply runtime_only_numberToHex in H. exact H. }
  apply bind_throw_inv in H as [H | (proof & log2 & _ & H)].
  { apply call_throw_inv in H as (reason & _ & -> & _). right. exists reason. reflexivity. }
  apply lift_throw_inv in H as [H _]. left. revert e H.
  repeat first
    [ apply runtime_only_Ok
    | apply runtime_only_keccak256_first
    | apply runtime_only_prim
    | apply runtime_only_first_entry
    | apply runtime_only_toHex
    | apply runtime_only_rbind; [| intros ?] ].
Qed.

End Generator.

End GeneratorFacts.

(* ================================================================== *)
(** ** The proof assembler, stage by stage                             *)
(* ================================================================== *)

Module GeneratorStages.

Import ProofGeneratorOptions HexFacts ByteFacts EncoderFacts MonadFacts
       GeneratorSpec GeneratorFacts.

Lemma strict_eq_string_true (s : string) (v : JsValue) :
  strict_eq_string s v = true <-> v = JsString s.
Proof.
  destruct v as [| | t | n]; simpl; split; intros H; try discriminate H.
  - apply String.eqb_eq in H. subst. reflexivity.
  - injection H as ->. apply String.eqb_refl.
Qed.

Lemma strict_eq_string_false (s : string) (v : JsValue) :
  strict_eq_string s v = false <-> v <> JsString s.
Proof.
  rewrite <- strict_eq_string_true.
  destruct (strict_eq_string s v); split; intros H; congruence.
Qed.

Lemma call_ok_eq {A} (c : RpcCall) (resp : string + A) (a : A) log :
  resp = inr a -> call c resp log = (Ok a, (log ++ [c])%list).
Proof. unfold call. intros ->. reflexivity. Qed.

Lemma lift_eq {A} (r : result A) log : lift r log = (r, log).
Proof. reflexivity. Qed.

Section Stages.

Variable keccak256 : Hex -> option Hex.
Variable toRlp : list Hex -> option Hex.
Variable createPublicClient : string -> PublicClient.

Local Abbreviation generate := (generateStorageProof keccak256 toRlp createPublicClient).
Local Abbreviation fetchProofs := (getStorageAndAccountProof keccak256 toRlp).
Local Abbreviation resolve := (getRlpBlockHeader toRlp).
Local Abbreviation atHashCheck :=
  (reachesHashCheck keccak256 toRlp createPublicClient).

Ltac enter_hash_check H :=
  destruct H as (Hblock & (method & Hresolve) & Hkeccak);
  unfold run, generateStorageProof; cbv zeta;
  erewrite bind_ok_eq; [| apply call_ok_eq; exact Hblock];
  erewrite bind_ok_eq; [| exact Hresolve];
  erewrite bind_ok_eq; [| rewrite lift_eq; cbn [fst]; rewrite Hkeccak; reflexivity];
  cbn [fst].

Lemma hash_mismatch_outcome options blockHeader rlp log1 computed :
  atHashCheck options blockHeader rlp log1 computed ->
  hash blockHeader <> JsString computed ->
  run (generate options)
  = (Throw (BlockHashMismatchError (hash blockHeader) computed), log1).
Proof.
  intros H Hne. enter_hash_check H.
  apply strict_eq_string_false in Hne. rewrite Hne. reflexivity.
Qed.

(** After a matching block hash the outcome is decided by the
    storage-proof fetch and the state-root comparison. *)
Lemma hash_match_outcome options blockHeader rlp log1 computed res log2 :
  atHashCheck options blockHeader rlp log1 computed ->
  hash blockHeader = JsString computed ->
  fetchProofs (createPublicClient (rpc options)) (account options)
    (slot options) (blockNumber options) log1 = (res, log2) ->
  snd (run (generate options)) = log2
  /\ match res with
     | inl e => fst (run (generate options)) = Throw e
     | inr proofs =>
         (stateRoot (header blockHeader) <> JsString (computedStateRoot proofs) ->
          fst (run (generate options))
          = Throw (StateRootMismatchError (stateRoot (header blockHeader))
                     (computedStateRoot proofs)))
         /\ (stateRoot (header blockHeader) = JsString (computedStateRoot proofs) ->
             forall e, fst (run (generate options)) = Throw e ->
                       is_runtime_error e = true)
     end.
Proof.
  intros H Heq Hfetch. enter_hash_check H.
  apply strict_eq_string_true in Heq. rewrite Heq. cbn [negb].
  destruct res as [e | proofs].
  - erewrite bind_throw_eq; [| exact Hfetch]. split; reflexivity.
  - erewrite bind_ok_eq; [| exact Hfetch].
    destruct (strict_eq_string (computedStateRoot proofs)
                (stateRoot (header blockHeader))) eqn:Hroot; cbn [negb].
    + apply strict_eq_string_true in Hroot.
      unfold bind at 1. rewrite lift_eq.
      destruct (toHex (number (header blockHeader))) as [e1 | bnHex] eqn:Hbn.
      { split; [reflexivity |]. split; [intros Hc; congruence |].
        intros _ e He. cbn in He. injection He as <-.
        exact (runtime_only_toHex _ _ Hbn). }
      unfold bind at 1. rewrite lift_eq.
      destruct (numberToHex (slot options) (Some 32%nat)) as [e2 | slotHex] eqn:Hslot.
      { split; [reflexivity |]. split; [intros Hc; congruence |].
        intros _ e He. cbn in He. injection He as <-.
        exact (runtime_only_numberToHex _ _ _ Hslot). }
      destruct (has_sendRoot blockHeader);
        (split; [reflexivity |]; split; [intros Hc; congruence |];
         intros _ e He; cbn in He; discriminate He).
    + apply strict_eq_string_false in Hroot.
      split; [reflexivity |]. split; [intros _; reflexivity | intros Hc; congruence].
Qed.

(** The storage-proof fetch sends exactly one request once the key is
    built. *)
Lemma fetchProofs_log client account slot blockNumber log storageKey :
  numberToHex slot (Some 32%nat) = Ok storageKey ->
  snd (fetchProofs client account slot blockNumber log)
  = (log ++ [GetProof account [storageKey] blockNumber])%list.
Proof.
  intros Hkey. unfold getStorageAndAccountProof.
  erewrite bind_ok_eq; [| rewrite lift_eq, Hkey; reflexivity].
  unfold bind, call, lift.
  destruct (getProof client account [storageKey] blockNumber); reflexivity.
Qed.

(** What a successful run has gone through. *)
Lemma generateStorageProof_ok options r log :
  run (generate options) = (Ok r, log) ->
  exists blockHeader rlp log1 computed proofs blockNumberHex slotHex,
    atHashCheck options blockHeader rlp log1 computed
    /\ hash blockHeader = JsString computed
    /\ fetchProofs (createPublicClient (rpc options)) (account options)
         (slot options) (blockNumber options) log1 = (Ok proofs, log)
    /\ stateRoot (header blockHeader) = JsString (computedStateRoot proofs)
    /\ toHex (number (header blockHeader)) = Ok blockNumberHex
    /\ numberToHex (slot options) (Some 32%nat) = Ok slotHex
    /\ r = {| StorageProof.blockNumber := blockNumberHex;
              StorageProof.blockHash := hash blockHeader;
              StorageProof.stateRoot := stateRoot (header blockHeader);
              StorageProof.account := account options;
              StorageProof.slot := slotHex;
              StorageProof.slotValue := slotValue proofs;
              StorageProof.rlpBlockHeader := rlp;
              StorageProof.rlpAccountProof := rlpAccountProof proofs;
              StorageProof.rlpStorageProof := rlpStorageProof proofs;
              StorageProof.sendRoot :=
                if has_sendRoot blockHeader then Rpc.sendRoot blockHeader
                else None |}.
Proof.
  unfold run, generateStorageProof. cbv zeta. intros H.
  apply bind_ok_inv in H as (blockHeader & l0 & Hcall & H).
  apply call_ok_inv in Hcall as [Hblock ->].
  apply bind_ok_inv in H as ([rlp method] & log1 & Hresolve & H).
  apply bind_ok_inv in H as (computed & l1 & Hk & H).
  apply lift_ok_inv in Hk as [Hk ->]. cbn [fst] in Hk, H. apply prim_ok in Hk.
  destruct (strict_eq_string computed (hash blockHeader)) eqn:Hhash;
    cbn [negb] in H; [| discriminate H].
  apply strict_eq_string_true in Hhash.
  apply bind_ok_inv in H as (proofs & log2 & Hfetch & H).
  destruct (strict_eq_string (computedStateRoot proofs)
              (stateRoot (header blockHeader))) eqn:Hroot;
    cbn [negb] in H; [| discriminate H].
  apply strict_eq_string_true in Hroot.
  apply bind_ok_inv in H as (bnHex & l2 & Hbn & H).
  apply lift_ok_inv in Hbn as [Hbn ->].
  apply bind_ok_inv in H as (slotHex & l3 & Hslot & H).
  apply lift_ok_inv in Hslot as [Hslot ->].
  exists blockHeader, rlp, log1, computed, proofs, bnHex, slotHex.
  split; [split; [exact Hblock | split; [exists method; exact Hresolve | exact Hk]] |].
  destruct (has_sendRoot blockHeader);
    apply ret_ok_inv in H as [-> ->]; repeat split; assumption.
Qed.

End Stages.

End GeneratorStages.

(* ================================================================== *)
(** ** The text produced by [toHex]                                    *)
(* ================================================================== *)

Module ToHexFacts.

Import HexFacts ByteFacts EncoderFacts.

Lemma toString16_nonneg (n : Z) :
  0 <= n -> toString16 n = string_of_list_ascii (map hexChar (hexDigits n)).
Proof.
  intros Hn. unfold toString16.
  destruct (n <? 0) eqn:E; [apply Z.ltb_lt in E; lia | reflexivity].
Qed.

Lemma hexDigits_nonneg (n : Z) :
  0 <= n -> be16 0 (hexDigits n) = n /\ Forall is_digit (hexDigits n).
Proof.
  intros Hn. assert (Hc : n = 0 \/ 0 < n) by lia. destruct Hc as [-> | Hpos].
  - split; [reflexivity |]. constructor; [unfold is_digit; lia | constructor].
  - destruct (hexDigits_spec n Hpos) as (Hv & Hd & _). split; assumption.
Qed.

(** [toHex] of a bigint without a size: the prefix, then the lowercase
    digits of the number, unpadded. *)
Lemma numberToHex_unsized (n : Z) (x : Hex) :
  numberToHex n None = Ok x -> 0 <= n /\ x = "0x" ++ toString16 n.
Proof.
  unfold numberToHex. cbn [andb orb].
  destruct (n <? 0) eqn:E; intros H; [discriminate H |].
  apply Z.ltb_ge in E. injection H as <-. split; [exact E | reflexivity].
Qed.




(** [toHex(n, { size: 32 })]: defined exactly on the 256-bit range; the
    digits of the number, left-padded with zeros to 64. *)
Lemma numberToHex_32 (n : Z) (x : Hex) :
  numberToHex n (Some 32%nat) = Ok x ->
  0 <= n < 2 ^ 256
  /\ (String.length (toString16 n) <= 64)%nat
  /\ x = "0x" ++ padStart (toString16 n) 64 "0".
Proof.
  unfold numberToHex. cbn [andb].
  change (2 ^ (Z.of_nat 32 * 8) - 1) with (2 ^ 256 - 1).
  destruct (2 ^ 256 - 1 <? n) eqn:E1; [intros H; discriminate H |].
  destruct (n <? 0) eqn:E2; [intros H; discriminate H |].
  cbn [orb]. apply Z.ltb_ge in E1, E2.
  unfold pad. change (strip0x ("0x" ++ toString16 n)) with (toString16 n).
  change (32 * 2)%nat with 64%nat.
  destruct (64 <? String.length (toString16 n))%nat eqn:E3; intros H; [discriminate H |].
  apply Nat.ltb_ge in E3. injection H as <-.
  split; [lia |]. split; [exact E3 | reflexivity].
Qed.

Lemma map_hexChar_repeat (k : nat) :
  repeat "0"%char k = map hexChar (repeat 0 k).
Proof. induction k as [| k IH]; simpl; congruence. Qed.

Lemma be16_zeros (k : nat) : be16 0 (repeat 0 k) = 0.
Proof. induction k as [| k IH]; [reflexivity | exact IH]. Qed.

Lemma Forall_digit_zeros (k : nat) : Forall is_digit (repeat 0 k).
Proof. apply Forall_forall. intros d Hd. apply repeat_spec in Hd. subst. unfold is_digit. lia. Qed.

(** The 32-byte key: 64 lowercase digits after the prefix, denoting 32
    bytes whose big-endian value is the number. *)
Lemma numberToHex_32_bytes (n : Z) (x : Hex) :
  numberToHex n (Some 32%nat) = Ok x ->
  String.length x = 66%nat
  /\ canonicalHex x = true
  /\ exists bs, hexToBytes x = Some bs
                /\ List.length bs = 32%nat
                /\ Forall is_byte bs
                /\ be_value bs = n.
Proof.
  intros H. apply numberToHex_32 in H as (Hn & Hlen & ->).
  destruct Hn as [Hn0 Hn1].
  rewrite toString16_nonneg in * by exact Hn0.
  destruct (hexDigits_nonneg n Hn0) as [Hv Hd].
  rewrite length_string_of_list_ascii, length_map in Hlen.
  set (ds := hexDigits n) in *.
  set (k := (64 - List.length ds)%nat).
  assert (Htext : padStart (string_of_list_ascii (map hexChar ds)) 64 "0"
                  = string_of_list_ascii (map hexChar (repeat 0 k ++ ds))).
  { unfold padStart. rewrite length_string_of_list_ascii, length_map. fold k.
    rewrite <- (string_of_list_ascii_of_string (repeatChar "0" k ++ _)).
    rewrite list_ascii_of_string_append, list_ascii_repeatChar.
    rewrite list_ascii_of_string_of_list_ascii, map_hexChar_repeat, <- map_app.
    reflexivity. }
  rewrite Htext.
  assert (Hlen64 : List.length (repeat 0 k ++ ds) = 64%nat).
  { rewrite length_app, repeat_length. unfold k. lia. }
  assert (Hdigits : Forall is_digit (repeat 0 k ++ ds)).
  { apply Forall_app. split; [apply Forall_digit_zeros | exact Hd]. }
  assert (Heven : Nat.even (List.length (repeat 0 k ++ ds)) = true)
    by (rewrite Hlen64; reflexivity).
  split; [| split].
  - cbn [append String.length].
    rewrite length_string_of_list_ascii, length_map, Hlen64. reflexivity.
  - apply canonicalHex_of_digits. exact Heven.
  - exists (pairUp (repeat 0 k ++ ds)).
    split; [rewrite hexToBytes_of_digits; apply hexPairs_digits; assumption |].
    split; [pose proof (length_pairUp _ Heven); lia |].
    split; [apply pairUp_bytes; exact Hdigits |].
    rewrite be_value_be256, be256_pairUp by exact Heven.
    rewrite be16_app, be16_zeros. exact Hv.
Qed.

End ToHexFacts.

(* ================================================================== *)
(** ** Properties of the resolver and of the two checks                *)
(* ================================================================== *)

Module GeneratorProperties.

Import ProofGeneratorOptions HexFacts ByteFacts EncoderFacts MonadFacts
       GeneratorSpec GeneratorFacts GeneratorStages ToHexFacts Samples.

Section Properties.

Variable keccak256 : Hex -> option Hex.
Variable toRlp : list Hex -> option Hex.
Variable createPublicClient : string -> PublicClient.

Local Abbreviation generate :=
  (generateStorageProof keccak256 toRlp createPublicClient).
Local Abbreviation fetchProofs := (getStorageAndAccountProof keccak256 toRlp).
Local Abbreviation resolve := (getRlpBlockHeader toRlp).
Local Abbreviation atHashCheck :=
  (reachesHashCheck keccak256 toRlp createPublicClient).


(** C3.  Once the header is fetched, resolved and hashed, the
    block-hash-mismatch error is raised if and only if the computed hash
    differs from the hash of the fetched block; the error carries the
    fetched hash as expected and the computed hash as computed, both
    unchanged; on a match the run goes on to the storage-proof request. *)
Theorem block_hash_mismatch_iff options blockHeader rlp log1 computed :
  atHashCheck options blockHeader rlp log1 computed ->
  ((exists expected computed',
       fst (run (generate options))
       = Throw (BlockHashMismatchError expected computed'))
   <-> hash blockHeader <> JsString computed)
  /\ (hash blockHeader <> JsString computed ->
      run (generate options)
      = (Throw (BlockHashMismatchError (hash blockHeader) computed), log1))
  /\ (hash blockHeader = JsString computed ->
      forall storageKey,
        numberToHex (slot options) (Some 32%nat) = Ok storageKey ->
        snd (run (generate options))
        = (log1 ++ [GetProof (account options) [storageKey]
                      (blockNumber options)])%list).
Proof.
  intros Hreach. split; [| split].
  - split.
    + intros (expected & computed' & H) Heq.
      destruct (fetchProofs (createPublicClient (rpc options)) (account options)
                  (slot options) (blockNumber options) log1) as [res log2] eqn:Hfetch.
      destruct (hash_match_outcome _ _ _ _ _ _ _ _ _ _ Hreach Heq Hfetch) as [_ Hout].
      destruct res as [e2 | proofs].
      * rewrite Hout in H. injection H as ->.
        apply getStorageAndAccountProof_throw in Hfetch as [Hr | [reason Hr]];
          discriminate Hr.
      * destruct Hout as [Hne Hok].
        destruct (strict_eq_string (computedStateRoot proofs)
                    (stateRoot (header blockHeader))) eqn:Hroot.
        -- apply strict_eq_string_true in Hroot.
           specialize (Hok Hroot _ H). discriminate Hok.
        -- apply strict_eq_string_false in Hroot.
           rewrite (Hne Hroot) in H. discriminate H.
    + intros Hne. exists (hash blockHeader), computed.
      rewrite (hash_mismatch_outcome _ _ _ _ _ _ _ _ Hreach Hne). reflexivity.
  - intros Hne. exact (hash_mismatch_outcome _ _ _ _ _ _ _ _ Hreach Hne).
  - intros Heq storageKey Hkey.
    destruct (fetchProofs (createPublicClient (rpc options)) (account options)
                (slot options) (blockNumber options) log1) as [res log2] eqn:Hfetch.
    destruct (hash_match_outcome _ _ _ _ _ _ _ _ _ _ Hreach Heq Hfetch) as [Hlog _].
    rewrite Hlog.
    pose proof (fetchProofs_log keccak256 toRlp (createPublicClient (rpc options))
                  (account options) (slot options) (blockNumber options) log1
                  storageKey Hkey) as Hl.
    rewrite Hfetch in Hl. exact Hl.
Qed.

(** C4.  After a matching block hash and a successful storage-proof
    fetch, the computed root is [keccak256] of the first node of the
    account proof the node returned, and the state-root-mismatch error
    is raised if and only if that root differs from [stateRoot] of the
    fetched header; it carries the header's [stateRoot] as expected and
    the computed root as computed. *)
Theorem state_root_mismatch_iff options blockHeader rlp log1 computed proofs log2 :
  atHashCheck options blockHeader rlp log1 computed ->
  hash blockHeader = JsString computed ->
  fetchProofs (createPublicClient (rpc options)) (account options)
    (slot options) (blockNumber options) log1 = (Ok proofs, log2) ->
  (exists storageKey proof node nodes,
      numberToHex (slot options) (Some 32%nat) = Ok storageKey
      /\ getProof (createPublicClient (rpc options)) (account options)
           [storageKey] (blockNumber options) = inr proof
      /\ accountProof proof = node :: nodes
      /\ keccak256 node = Some (computedStateRoot proofs))
  /\ ((exists expected computed',
          fst (run (generate options))
          = Throw (StateRootMismatchError expected computed'))
      <-> stateRoot (header blockHeader) <> JsString (computedStateRoot proofs))
  /\ (stateRoot (header blockHeader) <> JsString (computedStateRoot proofs) ->
      run (generate options)
      = (Throw (StateRootMismatchError (stateRoot (header blockHeader))
                  (computedStateRoot proofs)), log2)).
Proof.
  intros Hreach Heq Hfetch.
  destruct (hash_match_outcome _ _ _ _ _ _ _ _ _ _ Hreach Heq Hfetch)
    as [Hlog [Hne Hok]].
  split; [| split].
  - apply getStorageAndAccountProof_ok in Hfetch
      as (storageKey & proof & node & nodes & entry & entries
          & Hkey & Hproof & _ & Ha & Hroot & _).
    exists storageKey, proof, node, nodes. repeat split; assumption.
  - split.
    + intros (expected & computed' & H) Hroot.
      specialize (Hok Hroot _ H). discriminate Hok.
    + intros Hroot. eexists _, _. exact (Hne Hroot).
  - intros Hroot. rewrite (surjective_pairing (run (generate options))).
    rewrite Hlog, (Hne Hroot). reflexivity.
Qed.

(** C5.  The resolver computes what the specification words: the
    fast-path result unmodified and tagged [debug_getRawHeader] when the
    call succeeds; when it fails, whatever the failure, exactly the
    output of the Header Encoder on the fetched header tagged [manual],
    and the only exception that can come out is the encoder's own. *)
Theorem resolver_fallback_equivalence client blockNumber blockHeader log :
  fst (resolve client blockNumber blockHeader log)
  = resolve_spec toRlp (fastPath client blockNumber) (header blockHeader)
  /\ (forall rawHeader,
        fastPath client blockNumber = Ok rawHeader ->
        fst (resolve client blockNumber blockHeader log)
        = Ok (rawHeader, debug_getRawHeader))
  /\ (forall failure,
        fastPath client blockNumber = Throw failure ->
        fst (resolve client blockNumber blockHeader log)
        = (rlp <- encodeBlockHeaderToRlp toRlp (header blockHeader) ;;
           Ok (rlp, manual))
        /\ (forall rlp,
              encodeBlockHeaderToRlp toRlp (header blockHeader) = Ok rlp ->
              fst (resolve client blockNumber blockHeader log)
              = Ok (rlp, manual))
        /\ (forall e,
              fst (resolve client blockNumber blockHeader log) = Throw e ->
              encodeBlockHeaderToRlp toRlp (header blockHeader) = Throw e)).
Proof.
  rewrite getRlpBlockHeader_resolve_spec. cbn [fst].
  split; [reflexivity |]. split.
  - intros rawHeader ->. reflexivity.
  - intros failure ->. unfold resolve_spec, Throw.
    split; [reflexivity |]. split.
    + intros rlp ->. reflexivity.
    + intros e H.
      destruct (encodeBlockHeaderToRlp toRlp (header blockHeader)) as [e' | rlp];
        cbn in H; [injection H as ->; reflexivity | discriminate H].
Qed.



(** C7.  A run that returns has produced a record whose parts agree:
    the block hash is [keccak256] of [rlpBlockHeader] and the hash of
    the fetched block, the state root is [keccak256] of the first node
    of the account proof and the [stateRoot] of the fetched header, the
    account is the requested one, the slot is the requested slot as a
    32-byte key, the block number is that of the fetched header, and the
    remaining fields are the encodings of what the node returned for
    that account, key and block. *)
Theorem result_internally_consistent options r log :
  run (generate options) = (Ok r, log) ->
  exists blockHeader proof node nodes entry entries blockHash root,
    getBlock (createPublicClient (rpc options)) (blockNumber options)
      = inr blockHeader
    /\ getProof (createPublicClient (rpc options)) (account options)
         [StorageProof.slot r] (blockNumber options) = inr proof
    /\ accountProof proof = node :: nodes
    /\ storageProof proof = entry :: entries
    /\ keccak256 (StorageProof.rlpBlockHeader r) = Some blockHash
    /\ StorageProof.blockHash r = JsString blockHash
    /\ hash blockHeader = JsString blockHash
    /\ keccak256 node = Some root
    /\ StorageProof.stateRoot r = JsString root
    /\ stateRoot (header blockHeader) = JsString root
    /\ StorageProof.account r = account options
    /\ numberToHex (slot options) (Some 32%nat) = Ok (StorageProof.slot r)
    /\ toHex (number (header blockHeader)) = Ok (StorageProof.blockNumber r)
    /\ toRlp (accountProof proof) = Some (StorageProof.rlpAccountProof r)
    /\ toRlp (Rpc.proof entry) = Some (StorageProof.rlpStorageProof r)
    /\ toHex (JsBigInt (value entry)) = Ok (StorageProof.slotValue r).
Proof.
  intros Hrun.
  apply generateStorageProof_ok in Hrun
    as (blockHeader & rlp & log1 & computed & proofs & bnHex & slotHex
        & (Hblock & _ & Hk) & Hhash & Hfetch & Hroot & Hbn & Hslot & ->).
  apply getStorageAndAccountProof_ok in Hfetch
    as (storageKey & proof & node & nodes & entry & entries
        & Hkey & Hproof & _ & Ha & Hnode & HrlpA & Hs & HrlpS & Hsv).
  rewrite Hslot in Hkey. injection Hkey as <-.
  exists blockHeader, proof, node, nodes, entry, entries, computed,
         (computedStateRoot proofs).
  cbn [StorageProof.blockHash StorageProof.stateRoot StorageProof.slot
       StorageProof.rlpAccountProof StorageProof.rlpStorageProof
       StorageProof.blockNumber StorageProof.slotValue StorageProof.account
       StorageProof.rlpBlockHeader StorageProof.sendRoot].
  repeat split; assumption.
Qed.

(** C8 (amended).  The record has a [sendRoot] exactly when the fetched
    block has a [sendRoot] property whose value is truthy (not the empty
    string, [null], [undefined] or zero); it is then that value,
    unchanged; a block without the property yields a record without
    it. *)
Theorem sendRoot_copied_when_truthy options r log :
  run (generate options) = (Ok r, log) ->
  exists blockHeader,
    getBlock (createPublicClient (rpc options)) (blockNumber options)
      = inr blockHeader
    /\ (forall v,
          StorageProof.sendRoot r = Some v
          <-> (Rpc.sendRoot blockHeader = Some v /\ truthy v = true))
    /\ (Rpc.sendRoot blockHeader = None -> StorageProof.sendRoot r = None).
Proof.
  intros Hrun.
  apply generateStorageProof_ok in Hrun
    as (blockHeader & rlp & log1 & computed & proofs & bnHex & slotHex
        & (Hblock & _ & _) & _ & _ & _ & _ & _ & ->).
  exists blockHeader. split; [exact Hblock |].
  cbn [StorageProof.sendRoot]. unfold has_sendRoot.
  destruct (Rpc.sendRoot blockHeader) as [w |]; [| split].
  - destruct (truthy w) eqn:Hw; split.
    + intros v; split.
      * intros H. injection H as <-. split; [reflexivity | exact Hw].
      * intros [H _]. exact H.
    + intros H. discriminate H.
    + intros v; split.
      * intros H. discriminate H.
      * intros [H Hv]. injection H as <-. congruence.
    + intros H. discriminate H.
  - intros v; split; [intros H; discriminate H | intros [H _]; discriminate H].
  - reflexivity.
Qed.

(** C9.  The slot of the record is the requested slot written as 32
    bytes, big-endian, left-padded with zeros (64 digits after the
    prefix; slot 0 gives 64 zeros), and the storage-proof request that
    went out carries that same text as its only storage key. *)
Theorem slot_is_32_byte_key options r log :
  run (generate options) = (Ok r, log) ->
  0 <= slot options < 2 ^ 256
  /\ StorageProof.slot r = "0x" ++ padStart (toString16 (slot options)) 64 "0"
  /\ String.length (StorageProof.slot r) = 66%nat
  /\ canonicalHex (StorageProof.slot r) = true
  /\ (exists bs,
        hexToBytes (StorageProof.slot r) = Some bs
        /\ List.length bs = 32%nat
        /\ Forall is_byte bs
        /\ be_value bs = slot options)
  /\ (slot options = 0 -> StorageProof.slot r = "0x" ++ repeatChar "0" 64)
  /\ In (GetProof (account options) [StorageProof.slot r] (blockNumber options))
        log
  /\ (forall address keys n,
        In (GetProof address keys n) log ->
        address = account options /\ keys = [StorageProof.slot r]
        /\ n = blockNumber options).
Proof.
  intros Hrun.
  apply generateStorageProof_ok in Hrun
    as (blockHeader & rlp & log1 & computed & proofs & bnHex & slotHex
        & (Hblock & (method & Hresolve) & _) & _ & Hfetch & _ & _ & Hslot & ->).
  cbn [StorageProof.slot].
  apply getStorageAndAccountProof_ok in Hfetch
    as (storageKey & proof & node & nodes & entry & entries
        & Hkey & _ & -> & _).
  rewrite Hslot in Hkey. injection Hkey as <-.
  destruct (numberToHex_32 _ _ Hslot) as (Hrange & _ & Htext).
  destruct (numberToHex_32_bytes _ _ Hslot) as (Hlen & Hcan & Hbytes).
  split; [exact Hrange |]. split; [exact Htext |]. split; [exact Hlen |].
  split; [exact Hcan |]. split; [exact Hbytes |].
  split; [intros H0; rewrite Htext, H0; reflexivity |].
  split; [apply in_or_app; right; left; reflexivity |].
  intros address keys n Hin.
  rewrite getRlpBlockHeader_resolve_spec in Hresolve.
  injection Hresolve as _ <-.
  unfold resolverRequests in Hin.
  destruct (toHex (JsBigInt (blockNumber options))); cbn in Hin;
    repeat (destruct Hin as [Hin | Hin];
            [first [discriminate Hin
                   | injection Hin as <- <- <-; repeat split] |]);
    destruct Hin.
Qed.

End Properties.

End GeneratorProperties.

(* ================================================================== *)
(** ** The properties at concrete nodes and requests                   *)
(* ================================================================== *)

Module GeneratorExamples.

Import ProofGeneratorOptions HexFacts ByteFacts EncoderFacts MonadFacts
       GeneratorSpec GeneratorFacts GeneratorStages ToHexFacts Samples
       GeneratorProperties.



(** C3 at a node without the raw-header method whose block hash is not
    the hash of the manual encoding. *)
Lemma block_hash_mismatch_iff_witness :
  run (generateStorageProof sampleKeccak sampleToRlp
         (fun _ => plainNode (JsString (h32 "a")) sampleProof)
         checksummedRequest)
  = (Throw (BlockHashMismatchError (JsString (h32 "a")) (h32 "0")),
     [GetBlock 1; Request "debug_getRawHeader" ["0x1"]]).
Proof.
  apply (proj1 (proj2
    (block_hash_mismatch_iff sampleKeccak sampleToRlp
       (fun _ => plainNode (JsString (h32 "a")) sampleProof)
       checksummedRequest
       {| header := block1Header; hash := JsString (h32 "a"); sendRoot := None |}
       "0xc0" [GetBlock 1; Request "debug_getRawHeader" ["0x1"]] (h32 "0")
       (conj eq_refl (conj (ex_intro _ manual eq_refl) eq_refl))))).
  cbn [hash]. intros H. discriminate H.
Defined.

(** C4 at a node whose account proof does not start at the state root
    of the block. *)
Lemma state_root_mismatch_iff_witness :
  run (generateStorageProof sampleKeccak sampleToRlp
         (fun _ => plainNode (JsString (h32 "0")) staleProof)
         checksummedRequest)
  = (Throw (StateRootMismatchError (JsString (h32 "3")) (h32 "0")),
     [GetBlock 1; Request "debug_getRawHeader" ["0x1"];
      GetProof "0x5aAeb6053F3E94C9b9A09f33669435E7Ef1BeAed" [h32 "0"] 1]).
Proof.
  apply (proj2 (proj2
    (state_root_mismatch_iff sampleKeccak sampleToRlp
       (fun _ => plainNode (JsString (h32 "0")) staleProof)
       checksummedRequest
       {| header := block1Header; hash := JsString (h32 "0"); sendRoot := None |}
       "0xc0" [GetBlock 1; Request "debug_getRawHeader" ["0x1"]] (h32 "0")
       {| computedStateRoot := h32 "0"; rlpAccountProof := "0xc0";
          rlpStorageProof := "0xc0"; slotValue := "0x1" |}
       [GetBlock 1; Request "debug_getRawHeader" ["0x1"];
        GetProof "0x5aAeb6053F3E94C9b9A09f33669435E7Ef1BeAed" [h32 "0"] 1]
       (conj eq_refl (conj (ex_intro _ manual eq_refl) eq_refl))
       eq_refl eq_refl))).
  cbn. intros H. discriminate H.
Defined.

(** C5 at a node without the raw-header method: the resolver returns
    the manual encoding of the fetched header. *)
Lemma resolver_fallback_equivalence_witness :
  fst (getRlpBlockHeader sampleToRlp
         (plainNode (JsString (h32 "0")) sampleProof) 1
         {| header := block1Header; hash := JsString (h32 "0"); sendRoot := None |}
         [GetBlock 1])
  = Ok ("0xc0", manual).
Proof.
  apply (proj1 (proj2 (proj2 (proj2
    (resolver_fallback_equivalence sampleToRlp
       (plainNode (JsString (h32 "0")) sampleProof) 1
       {| header := block1Header; hash := JsString (h32 "0"); sendRoot := None |}
       [GetBlock 1]))
    (RpcFailure "method not found") eq_refl))).
  reflexivity.
Defined.

Lemma goodNode_run :
  run (generateStorageProof sampleKeccak sampleToRlp (fun _ => goodNode None)
         checksummedRequest)
  = (Ok goodResult, goodLog).
Proof. vm_compute. reflexivity. Qed.



(** The fields that break the canonical form in that record, and the
    verbatim copies at a node that answers in capitals. *)
Lemma non_canonical_fields :
  canonicalHex (StorageProof.account goodResult) = false
  /\ canonicalHex (StorageProof.blockNumber goodResult) = false
  /\ canonicalHex (StorageProof.slotValue goodResult) = false
  /\ exists r log,
       run (generateStorageProof sampleKeccak sampleToRlp
              (fun _ => shoutingNode) checksummedRequest) = (Ok r, log)
       /\ StorageProof.rlpBlockHeader r = "0xF90210A0"
       /\ StorageProof.sendRoot r = Some (JsString "0xABCD").
Proof.
  repeat (split; [reflexivity |]).
  eexists _, _. split; [vm_compute; reflexivity |]. split; reflexivity.
Qed.

(** C7 at the healthy node. *)
Lemma result_internally_consistent_witness :
  exists blockHeader proof node nodes entry entries blockHash root,
    getBlock (goodNode None) 1 = inr blockHeader
    /\ getProof (goodNode None) (account checksummedRequest)
         [StorageProof.slot goodResult] 1 = inr proof
    /\ accountProof proof = node :: nodes
    /\ storageProof proof = entry :: entries
    /\ sampleKeccak (StorageProof.rlpBlockHeader goodResult) = Some blockHash
    /\ StorageProof.blockHash goodResult = JsString blockHash
    /\ hash blockHeader = JsString blockHash
    /\ sampleKeccak node = Some root
    /\ StorageProof.stateRoot goodResult = JsString root
    /\ stateRoot (header blockHeader) = JsString root
    /\ StorageProof.account goodResult = account checksummedRequest
    /\ numberToHex (slot checksummedRequest) (Some 32%nat)
       = Ok (StorageProof.slot goodResult)
    /\ toHex (number (header blockHeader))
       = Ok (StorageProof.blockNumber goodResult)
    /\ sampleToRlp (accountProof proof)
       = Some (StorageProof.rlpAccountProof goodResult)
    /\ sampleToRlp (Rpc.proof entry)
       = Some (StorageProof.rlpStorageProof goodResult)
    /\ toHex (JsBigInt (value entry)) = Ok (StorageProof.slotValue goodResult).
Proof.
  exact (result_internally_consistent sampleKeccak sampleToRlp
           (fun _ => goodNode None) checksummedRequest goodResult goodLog
           goodNode_run).
Defined.

(** The record returned when the block has an empty [sendRoot]. *)
Lemma emptySendRoot_run :
  run (generateStorageProof sampleKeccak sampleToRlp
         (fun _ => goodNode (Some (JsString ""))) checksummedRequest)
  = (Ok goodResult, goodLog).
Proof. vm_compute. reflexivity. Qed.

(** C8 as stated fails: a block that carries a [sendRoot] property with
    an empty value yields a record without [sendRoot]. *)
Lemma sendRoot_not_iff_present :
  ~ (forall keccak256 toRlp createPublicClient options r log blockHeader,
        run (generateStorageProof keccak256 toRlp createPublicClient options)
        = (Ok r, log) ->
        getBlock (createPublicClient (rpc options)) (blockNumber options)
        = inr blockHeader ->
        (StorageProof.sendRoot r <> None <-> Rpc.sendRoot blockHeader <> None)).
Proof.
  intros H.
  specialize (H sampleKeccak sampleToRlp
                (fun _ => goodNode (Some (JsString ""))) checksummedRequest
                goodResult goodLog _ emptySendRoot_run eq_refl).
  cbn in H. apply H; [intros Hc; discriminate Hc | reflexivity].
Qed.

(** The same with [sendRoot: null]; a non-empty value is copied. *)
Lemma sendRoot_null_and_text :
  fst (run (generateStorageProof sampleKeccak sampleToRlp
              (fun _ => goodNode (Some JsNull)) checksummedRequest))
  = Ok goodResult
  /\ exists r,
       fst (run (generateStorageProof sampleKeccak sampleToRlp
                   (fun _ => goodNode (Some (JsString "0xabcd")))
                   checksummedRequest)) = Ok r
       /\ StorageProof.sendRoot r = Some (JsString "0xabcd").
Proof.
  split; [vm_compute; reflexivity |].
  eexists. split; [vm_compute; reflexivity | reflexivity].
Qed.

(** C8 (amended) at the block with an empty [sendRoot]. *)
Lemma sendRoot_copied_when_truthy_witness :
  exists blockHeader,
    getBlock (goodNode (Some (JsString ""))) 1 = inr blockHeader
    /\ (forall v,
          StorageProof.sendRoot goodResult = Some v
          <-> (Rpc.sendRoot blockHeader = Some v /\ truthy v = true))
    /\ (Rpc.sendRoot blockHeader = None -> StorageProof.sendRoot goodResult = None).
Proof.
  exact (sendRoot_copied_when_truthy sampleKeccak sampleToRlp
           (fun _ => goodNode (Some (JsString ""))) checksummedRequest
           goodResult goodLog emptySendRoot_run).
Defined.

(** C9 at the healthy node: slot 0. *)
Lemma slot_is_32_byte_key_witness :
  StorageProof.slot goodResult = "0x" ++ repeatChar "0" 64
  /\ In (GetProof (account checksummedRequest) [StorageProof.slot goodResult] 1)
        goodLog.
Proof.
  pose proof (slot_is_32_byte_key sampleKeccak sampleToRlp
                (fun _ => goodNode None) checksummedRequest goodResult goodLog
                goodNode_run)
    as (_ & _ & _ & _ & _ & H0 & Hin & _).
  exact (conj (H0 eq_refl) Hin).
Defined.


End GeneratorExamples.

(* ================================================================== *)
(** ** Further properties of the encoder                               *)
(* ================================================================== *)

Module EncoderMoreFacts.

Import HexFacts ByteFacts EncoderFacts EncoderShape.

Lemma strip0x_zero_cons (c : ascii) (r : string) :
  c <> "x"%char -> strip0x (String "0" (String c r)) = String "0" (String c r).
Proof.
  intros Hc. unfold strip0x.
  destruct c as [[] [] [] [] [] [] [] []]; try reflexivity.
  exfalso. apply Hc. reflexivity.
Qed.

Lemma strip0x_single (c : ascii) : strip0x (String c "") = String c "".
Proof. destruct c as [[] [] [] [] [] [] [] []]; reflexivity. Qed.

(** Text that does not start with the prefix is left alone. *)
Lemma strip0x_id (s : string) :
  (forall r, s <> String "0" (String "x" r)) -> strip0x s = s.
Proof.
  intros H. destruct s as [| c1 [| c2 r]].
  - reflexivity.
  - apply strip0x_single.
  - destruct (ascii_dec c1 "0") as [-> | Hc1]; [| apply strip0x_cons; exact Hc1].
    destruct (ascii_dec c2 "x") as [-> | Hc2]; [| apply strip0x_zero_cons; exact Hc2].
    exfalso. apply (H r). reflexivity.
Qed.

Lemma strip0x_hex_text (cs : list ascii) :
  Forall isHexChar cs ->
  strip0x (string_of_list_ascii cs) = string_of_list_ascii cs.
Proof.
  intros Hcs. apply strip0x_id. intros r Hr.
  destruct cs as [| c1 [| c2 cs]]; try discriminate Hr.
  cbn in Hr. injection Hr as -> -> _.
  inversion Hcs as [| ? ? _ Hcs']; subst.
  inversion Hcs' as [| ? ? Hx _]; subst. apply Hx. reflexivity.
Qed.

Lemma hexPairs_hex (cs : list ascii) :
  Forall isHexChar cs -> Nat.even (List.length cs) = true ->
  hexPairs cs = Some (pairUp (hexValues cs)).
Proof.
  induction cs as [| a | a b l IH] using pair_ind; intros Hd He.
  - reflexivity.
  - discriminate He.
  - inversion Hd as [| ? ? Ha Hd']; subst.
    inversion Hd' as [| ? ? Hb Hl]; subst.
    unfold isHexChar in Ha, Hb.
    cbn [hexPairs hexValues map pairUp].
    destruct (hexVal a) as [x |]; [| congruence].
    destruct (hexVal b) as [y |]; [| congruence].
    fold (hexValues l). rewrite IH by assumption. reflexivity.
Qed.

Lemma length_hexValues (cs : list ascii) :
  List.length (hexValues cs) = List.length cs.
Proof. unfold hexValues. apply length_map. Qed.

(** [cleanHex] on a string, spelled out. *)
Lemma cleanHex_text (s : string) :
  cleanHex (JsString s)
  = Ok ("0x" ++ (if Nat.even (String.length (strip0x s)) then strip0x s
                 else "0" ++ strip0x s)).
Proof. reflexivity. Qed.

Lemma be16_leading_zero (ds : list Z) : be16 0 (0 :: ds) = be16 0 ds.
Proof. reflexivity. Qed.

Lemma be16_evenDigits (ds : list Z) : be16 0 (evenDigits ds) = be16 0 ds.
Proof. unfold evenDigits. destruct (Nat.even (List.length ds)); reflexivity. Qed.

(** The item of an unsigned value denotes that value. *)
Lemma encodeInt_value (n : Z) :
  0 <= n ->
  exists x bs, encodeInt (JsBigInt n) = Ok x
               /\ hexToBytes x = Some bs /\ be_value bs = n.
Proof.
  intros Hn. assert (Hc : n = 0 \/ 0 < n) by lia. destruct Hc as [-> | Hpos].
  - exists "0x", []. repeat split; reflexivity.
  - destruct (encodeInt_positive_minimal n Hpos) as (x & bs & Hx & _ & Hb & _ & Hv & _).
    exists x, bs. repeat split; assumption.
Qed.

Lemma push_if_complete (cond : bool) (k : FieldKind) (v : JsValue)
    (fields out : list Hex) :
  Forall2 encodes (keep cond (k, v)) out ->
  push_if cond (encodeField k v) fields = Ok (fields ++ out)%list.
Proof.
  unfold keep, push_if. destruct cond; intros H.
  - inversion H as [| ? x ? ? He Hr]; subst. inversion Hr; subst.
    unfold encodes in He. cbn [fst snd] in He. rewrite He. reflexivity.
  - inversion H; subst. rewrite app_nil_r. reflexivity.
Qed.

Lemma baseFields_complete (h : RpcBlockHeader) (base : list Hex) :
  Forall2 encodes (baseLayout h) base -> baseFields h = Ok base.
Proof.
  unfold baseLayout. intros H.
  repeat match goal with
         | H : Forall2 encodes (_ :: _) _ |- _ =>
             let He := fresh "He" in
             inversion H as [| ? ? ? ? He ?]; subst; clear H;
             unfold encodes in He; cbn [fst snd encodeField] in He
         | H : Forall2 encodes [] _ |- _ => inversion H; subst; clear H
         end.
  unfold baseFields.
  repeat match goal with
         | He : ?r = Ok _ |- context [rbind ?r _] => rewrite He; cbn [rbind Ok]
         end.
  reflexivity.
Qed.

Lemma headerFields_complete (h : RpcBlockHeader) (items : list Hex) :
  Forall2 encodes (emittedLayout h) items -> headerFields h = Ok items.
Proof.
  unfold emittedLayout. intros H.
  apply Forall2_app_inv_l in H as (base & r1 & Hbase & H & ->).
  apply Forall2_app_inv_l in H as (o1 & r2 & H1 & H & ->).
  apply Forall2_app_inv_l in H as (o2 & r3 & H2 & H & ->).
  apply Forall2_app_inv_l in H as (o3 & r4 & H3 & H & ->).
  apply Forall2_app_inv_l in H as (o4 & r5 & H4 & H & ->).
  apply Forall2_app_inv_l in H as (o5 & o6 & H5 & H6 & ->).
  unfold headerFields. rewrite (baseFields_complete _ _ Hbase). cbn [rbind Ok].
  pose proof (push_if_complete _ IntField _ base o1 H1) as E1.
  cbn [encodeField] in E1. rewrite E1. cbn [rbind Ok].
  pose proof (push_if_complete _ BytesField _ (base ++ o1) o2 H2) as E2.
  cbn [encodeField] in E2. rewrite E2. cbn [rbind Ok].
  pose proof (push_if_complete _ IntField _ ((base ++ o1) ++ o2) o3 H3) as E3.
  cbn [encodeField] in E3. rewrite E3. cbn [rbind Ok].
  pose proof (push_if_complete _ IntField _ (((base ++ o1) ++ o2) ++ o3) o4 H4)
    as E4.
  cbn [encodeField] in E4. rewrite E4. cbn [rbind Ok].
  pose proof (push_if_complete _ BytesField _
                ((((base ++ o1) ++ o2) ++ o3) ++ o4) o5 H5) as E5.
  cbn [encodeField] in E5. rewrite E5. cbn [rbind Ok].
  pose proof (push_if_complete _ BytesField _
                (((((base ++ o1) ++ o2) ++ o3) ++ o4) ++ o5) o6 H6) as E6.
  cbn [encodeField] in E6. rewrite E6.
  rewrite <- !app_assoc. reflexivity.
Qed.

Lemma length_keep (cond : bool) (f : FieldKind * JsValue) :
  List.length (keep cond f) = Nat.b2n cond.
Proof. destruct cond; reflexivity. Qed.

Lemma length_emittedLayout (h : RpcBlockHeader) :
  List.length (emittedLayout h) = (15 + trailingCount h)%nat.
Proof.
  unfold emittedLayout, trailingCount.
  rewrite !length_app, !length_keep. cbn [baseLayout List.length]. lia.
Qed.

(** *** Reading a quantity back *)

Lemma isWhite_hexChar (d : Z) : isWhite (hexChar d) = false.
Proof.
  destruct d as [| p | p]; try reflexivity.
  do 4 (destruct p as [p | p |]; try reflexivity).
Qed.

Lemma trimEnd_digits (ds : list Z) :
  trimEnd (string_of_list_ascii (map hexChar ds))
  = string_of_list_ascii (map hexChar ds).
Proof.
  induction ds as [| d ds IH]; [reflexivity |].
  cbn [map string_of_list_ascii trimEnd].
  rewrite isWhite_hexChar, IH. reflexivity.
Qed.

Lemma parseDigits_digits (ds : list Z) :
  Forall is_digit ds ->
  forall acc,
    parseDigits 16 (string_of_list_ascii (map hexChar ds)) acc
    = Some (be16 acc ds).
Proof.
  induction 1 as [| d ds Hd Hds IH]; intros acc; [reflexivity |].
  cbn [map string_of_list_ascii parseDigits].
  rewrite hexVal_hexChar by exact Hd.
  unfold is_digit in Hd.
  destruct (d <? 16) eqn:E; [| apply Z.ltb_ge in E; lia].
  rewrite IH. reflexivity.
Qed.

(** [BigInt] of prefixed lowercase digits is their value. *)
Lemma BigInt_hex_text (ds : list Z) :
  Forall is_digit ds -> ds <> [] ->
  BigInt (JsString ("0x" ++ string_of_list_ascii (map hexChar ds)))
  = Ok (be16 0 ds).
Proof.
  intros Hd Hne. unfold BigInt, StringToBigInt.
  change (trimStart ("0x" ++ string_of_list_ascii (map hexChar ds)))
    with ("0x" ++ string_of_list_ascii (map hexChar ds)).
  cbn [append trimEnd]. rewrite trimEnd_digits.
  destruct ds as [| d ds]; [congruence |].
  change (isWhite "x") with false. change (isWhite "0") with false.
  cbn [andb]. unfold parseNonEmpty.
  cbn [map string_of_list_ascii].
  change (String (hexChar d) (string_of_list_ascii (map hexChar ds)))
    with (string_of_list_ascii (map hexChar (d :: ds))).
  rewrite parseDigits_digits by exact Hd. reflexivity.
Qed.

End EncoderMoreFacts.

Module EncoderMore.

Import HexFacts ByteFacts EncoderFacts EncoderShape EncoderMoreFacts Samples.

Lemma canonicalHex_shape (s : string) :
  canonicalHex s = true ->
  exists r, s = "0x" ++ r /\ Nat.even (String.length r) = true.
Proof.
  intros H. destruct s as [| c1 s']; [discriminate H |].
  destruct c1 as [[] [] [] [] [] [] [] []]; try discriminate H.
  destruct s' as [| c2 r]; [discriminate H |].
  destruct c2 as [[] [] [] [] [] [] [] []]; try discriminate H.
  exists r. split; [reflexivity |].
  cbn [canonicalHex] in H. apply andb_true_iff in H as [_ H]. exact H.
Qed.

(** X1.  [cleanHex] normalises any text to the prefix followed by an
    even number of characters, it is idempotent, and it returns
    canonical hex text unchanged (no lowercasing, no trimming of
    leading zeros). *)
Theorem cleanHex_normal_form (s : string) :
  exists x,
    cleanHex (JsString s) = Ok x
    /\ (exists body,
          x = "0x" ++ body /\ Nat.even (String.length body) = true)
    /\ cleanHex (JsString x) = Ok x
    /\ (canonicalHex s = true -> x = s).
Proof.
  rewrite cleanHex_text.
  set (body := if Nat.even (String.length (strip0x s)) then strip0x s
               else "0" ++ strip0x s).
  assert (Heven : Nat.even (String.length body) = true).
  { unfold body. destruct (Nat.even (String.length (strip0x s))) eqn:E; [exact E |].
    cbn [append String.length]. rewrite Nat.even_succ, <- Nat.negb_even, E.
    reflexivity. }
  exists ("0x" ++ body). split; [reflexivity |].
  split; [exists body; split; [reflexivity | exact Heven] |].
  split.
  - rewrite cleanHex_text. change (strip0x ("0x" ++ body)) with body.
    rewrite Heven. reflexivity.
  - intros Hc. apply canonicalHex_shape in Hc as (r & -> & Hr).
    unfold body. change (strip0x ("0x" ++ r)) with r. rewrite Hr. reflexivity.
Qed.

Lemma cleanHex_normal_form_witness :
  exists x,
    cleanHex (JsString (h32 "7")) = Ok x
    /\ (exists body,
          x = "0x" ++ body /\ Nat.even (String.length body) = true)
    /\ cleanHex (JsString x) = Ok x
    /\ (canonicalHex (h32 "7") = true -> x = h32 "7").
Proof. exact (cleanHex_normal_form (h32 "7")). Defined.

(** X2.  For hex digits in either letter case, with or without the
    prefix, [cleanHex] keeps the byte string the digits denote: the
    value is unchanged and the length is that of the input rounded up
    to whole bytes, so leading zero bytes are kept and an odd number of
    digits is padded on the left. *)
Theorem cleanHex_keeps_bytes (cs : list ascii) :
  Forall isHexChar cs ->
  exists x bs,
    cleanHex (JsString ("0x" ++ string_of_list_ascii cs)) = Ok x
    /\ cleanHex (JsString (string_of_list_ascii cs)) = Ok x
    /\ hexToBytes x = Some bs
    /\ be_value bs = be16 0 (hexValues cs)
    /\ (2 * List.length bs
        = List.length cs + (if Nat.even (List.length cs) then 0 else 1))%nat.
Proof.
  intros Hcs.
  set (padded := if Nat.even (List.length cs) then cs else "0"%char :: cs).
  assert (Hpad : Forall isHexChar padded).
  { unfold padded. destruct (Nat.even (List.length cs)); [exact Hcs |].
    constructor; [intros H; discriminate H | exact Hcs]. }
  assert (Heven : Nat.even (List.length padded) = true).
  { unfold padded. destruct (Nat.even (List.length cs)) eqn:E; [exact E |].
    cbn [List.length]. rewrite Nat.even_succ, <- Nat.negb_even, E. reflexivity. }
  assert (Htext : cleanHex (JsString (string_of_list_ascii cs))
                  = Ok ("0x" ++ string_of_list_ascii padded)).
  { rewrite cleanHex_text, strip0x_hex_text by exact Hcs.
    rewrite length_string_of_list_ascii. unfold padded.
    destruct (Nat.even (List.length cs)); reflexivity. }
  exists ("0x" ++ string_of_list_ascii padded), (pairUp (hexValues padded)).
  split; [| split; [exact Htext | split; [| split]]].
  - rewrite cleanHex_text.
    change (strip0x ("0x" ++ string_of_list_ascii cs))
      with (string_of_list_ascii cs).
    rewrite length_string_of_list_ascii. unfold padded.
    destruct (Nat.even (List.length cs)); reflexivity.
  - cbn [append hexToBytes]. rewrite list_ascii_of_string_of_list_ascii.
    apply hexPairs_hex; assumption.
  - change (be_value (pairUp (hexValues padded)))
      with (be256 0 (pairUp (hexValues padded))).
    rewrite be256_pairUp by (rewrite length_hexValues; exact Heven).
    unfold padded. destruct (Nat.even (List.length cs)); reflexivity.
  - pose proof (length_pairUp (hexValues padded)) as Hl.
    rewrite length_hexValues in Hl. specialize (Hl Heven). rewrite Hl.
    unfold padded. destruct (Nat.even (List.length cs)); cbn [List.length]; lia.
Qed.

Lemma cleanHex_keeps_bytes_witness :
  exists x bs,
    cleanHex (JsString ("0x" ++ "00A")) = Ok x
    /\ cleanHex (JsString "00A") = Ok x
    /\ hexToBytes x = Some bs
    /\ be_value bs = 10
    /\ (2 * List.length bs = 3 + 1)%nat.
Proof.
  apply (cleanHex_keeps_bytes ["0"; "0"; "A"]%char).
  repeat constructor; intros H; discriminate H.
Defined.

(** X3.  A list that is returned has the fifteen base items first, in
    the fixed order, then one item per trailing field that passes its
    guard: between 15 and 21 items. *)
Theorem headerFields_count (h : RpcBlockHeader) (items : list Hex) :
  headerFields h = Ok items ->
  List.length items = (15 + trailingCount h)%nat
  /\ (15 <= List.length items <= 21)%nat
  /\ Forall2 encodes (baseLayout h) (firstn 15 items).
Proof.
  intros H. apply headerFields_layout in H.
  pose proof (Forall2_length H) as Hlen. rewrite length_emittedLayout in Hlen.
  split; [symmetry; exact Hlen |]. split.
  - rewrite <- Hlen. unfold trailingCount.
    destruct (truthy (baseFeePerGas h)), (truthy (withdrawalsRoot h)),
      (truthy (blobGasUsed h)), (is_defined (excessBlobGas h)),
      (truthy (parentBeaconBlockRoot h)), (truthy (requestsHash h));
      cbn [Nat.b2n]; lia.
  - unfold emittedLayout in H.
    apply Forall2_app_inv_l in H as (base & rest & Hbase & _ & ->).
    pose proof (Forall2_length Hbase) as Hb. cbn [baseLayout List.length] in Hb.
    rewrite firstn_app, <- Hb, Nat.sub_diag, firstn_O, app_nil_r.
    rewrite firstn_all2 by lia. exact Hbase.
Qed.

Lemma headerFields_count_witness :
  List.length
    ["0x" ++ repeatChar "1" 64; "0x" ++ repeatChar "2" 64;
     "0x00000000000000000000000000000000000000aa";
     "0x" ++ repeatChar "3" 64; "0x" ++ repeatChar "4" 64;
     "0x" ++ repeatChar "5" 64; "0x00"; "0x"; "0xbc614e"; "0x01c9c380";
     "0xff"; "0x06502b3f"; "0x"; "0x" ++ repeatChar "6" 64;
     "0x0000000000000000"] = (15 + trailingCount legacyHeader)%nat.
Proof.
  apply (headerFields_count legacyHeader). vm_compute. reflexivity.
Defined.

(** X4.  The encoder returns a list exactly when every emitted field
    can be encoded on its own, and the list is then the field-by-field
    encoding: a field that cannot be encoded (a missing base field, a
    quantity [BigInt] rejects) makes the whole call throw, never a
    partial list. *)
Theorem headerFields_iff_fields_encode (h : RpcBlockHeader) (items : list Hex) :
  headerFields h = Ok items <-> Forall2 encodes (emittedLayout h) items.
Proof.
  split; [apply headerFields_layout | apply headerFields_complete].
Qed.

Lemma headerFields_iff_fields_encode_witness :
  Forall2 encodes (emittedLayout (cancunHeader (JsBigInt 0)))
    ["0x" ++ repeatChar "1" 64; "0x" ++ repeatChar "2" 64;
     "0x00000000000000000000000000000000000000aa";
     "0x" ++ repeatChar "3" 64; "0x" ++ repeatChar "4" 64;
     "0x" ++ repeatChar "5" 64; "0x00"; "0x"; "0x01286d1b"; "0x01c9c380";
     "0xff"; "0x65f1b057"; "0x"; "0x" ++ repeatChar "6" 64;
     "0x0000000000000000"; "0x07"; "0x" ++ repeatChar "7" 64; "0x";
     "0x" ++ repeatChar "8" 64].
Proof.
  apply (proj1 (headerFields_iff_fields_encode (cancunHeader (JsBigInt 0)) _)).
  vm_compute. reflexivity.
Defined.

(** X5.  The item of an integer field depends on the value only, and
    distinct unsigned values have distinct items. *)
Theorem encodeInt_injective (v w : JsValue) (n m : Z) :
  BigInt v = Ok n -> BigInt w = Ok m -> 0 <= n -> 0 <= m ->
  (encodeInt v = encodeInt w <-> n = m).
Proof.
  intros Hv Hw Hn Hm.
  rewrite (encodeInt_BigInt v n Hv), (encodeInt_BigInt w m Hw).
  split; [| intros ->; reflexivity].
  intros Heq.
  destruct (encodeInt_value n Hn) as (x & bs & Hx & Hb & Hval).
  destruct (encodeInt_value m Hm) as (y & cs & Hy & Hc & Hval').
  rewrite Hx, Hy in Heq. injection Heq as <-.
  rewrite Hb in Hc. injection Hc as <-. congruence.
Qed.

Lemma encodeInt_injective_witness :
  encodeInt (JsString "0x00ff") = encodeInt (JsBigInt 255) <-> 255 = 255.
Proof.
  apply (encodeInt_injective (JsString "0x00ff") (JsBigInt 255) 255 255);
    first [reflexivity | lia].
Defined.

(** X6.  The item emitted for a positive value reads back as that value
    and is a fixed point of [encodeInt]; the item emitted for zero, the
    bare prefix, is not a quantity [BigInt] accepts. *)
Theorem encodeInt_reads_back :
  (forall (n : Z) (x : Hex),
      0 < n -> encodeInt (JsBigInt n) = Ok x ->
      BigInt (JsString x) = Ok n /\ encodeInt (JsString x) = Ok x)
  /\ (exists x msg,
        encodeInt (JsBigInt 0) = Ok x
        /\ encodeInt (JsString x) = Throw (SyntaxError msg)).
Proof.
  split.
  - intros n x Hn Hx.
    destruct (evenDigits_spec n Hn) as (Hd & Hv & b & rest & Hp & _).
    assert (Hxeq : x = "0x" ++ string_of_list_ascii
                                 (map hexChar (evenDigits (hexDigits n)))).
    { rewrite (encodeInt_positive n Hn) in Hx. injection Hx as <-. reflexivity. }
    rewrite Hxeq. clear Hx Hxeq.
    assert (Hne : evenDigits (hexDigits n) <> []).
    { intros E. rewrite E in Hp. discriminate Hp. }
    pose proof (BigInt_hex_text _ Hd Hne) as Hbig. rewrite Hv in Hbig.
    split; [exact Hbig |].
    rewrite (encodeInt_BigInt _ n Hbig). apply encodeInt_positive. exact Hn.
  - exists "0x", "Cannot convert string to a BigInt". split; reflexivity.
Qed.

Lemma encodeInt_reads_back_witness :
  BigInt (JsString "0xff") = Ok 255 /\ encodeInt (JsString "0xff") = Ok "0xff".
Proof.
  apply (proj1 encodeInt_reads_back 255 "0xff"); [lia | reflexivity].
Defined.

Lemma hexPairs_bad_first (a b : ascii) (r : list ascii) :
  hexVal a = None -> hexPairs (a :: b :: r) = None.
Proof. intros H. cbn [hexPairs]. rewrite H. reflexivity. Qed.

Lemma hexPairs_bad_second (a b : ascii) (r : list ascii) :
  hexVal b = None -> hexPairs (a :: b :: r) = None.
Proof. intros H. cbn [hexPairs]. rewrite H. destruct (hexVal a); reflexivity. Qed.

(** X7.  A negative quantity is not rejected: [encodeInt] returns text
    that contains the minus sign and denotes no byte string. *)
Theorem encodeInt_negative (n : Z) :
  n < 0 ->
  exists x, encodeInt (JsBigInt n) = Ok x /\ hexToBytes x = None.
Proof.
  intros Hn.
  assert (Hpos : 0 < - n) by lia.
  destruct (hexDigits_spec (- n) Hpos) as (_ & _ & top & rest & Hl & _).
  unfold encodeInt. cbn [BigInt rbind Ok].
  destruct (n =? 0) eqn:E; [apply Z.eqb_eq in E; lia |].
  unfold toString16. destruct (n <? 0) eqn:E'; [| apply Z.ltb_ge in E'; lia].
  rewrite natToString16_digits, Hl. cbn [map string_of_list_ascii append].
  rewrite cleanHex_text, strip0x_cons by (intros H; discriminate H).
  destruct (Nat.even _); eexists; (split; [reflexivity |]).
  - cbn [append hexToBytes list_ascii_of_string].
    apply hexPairs_bad_first. reflexivity.
  - cbn [append hexToBytes list_ascii_of_string].
    apply hexPairs_bad_second. reflexivity.
Qed.

Lemma encodeInt_negative_witness :
  exists x, encodeInt (JsBigInt (-255)) = Ok x /\ hexToBytes x = None.
Proof. apply (encodeInt_negative (-255)). lia. Defined.

(** X8.  When each of the five trailing fields under a truthiness test
    is either missing or present with a truthy value (a non-empty
    string, a non-zero bigint), the list holds exactly the trailing
    fields available in the header, in the fixed order. *)
Theorem available_trailing_fields_emitted (h : RpcBlockHeader)
    (items : list Hex) :
  Forall presentIsTruthy
    [baseFeePerGas h; withdrawalsRoot h; blobGasUsed h;
     parentBeaconBlockRoot h; requestsHash h] ->
  (headerFields h = Ok items <-> Forall2 encodes (specLayout h) items).
Proof.
  intros H.
  inversion H as [| ? ? H1 H']; subst. inversion H' as [| ? ? H2 H'']; subst.
  inversion H'' as [| ? ? H3 H3']; subst. inversion H3' as [| ? ? H4 H4']; subst.
  inversion H4' as [| ? ? H5 _]; subst.
  rewrite <- (emittedLayout_specLayout h H1 H2 H3 H4 H5).
  split; [apply headerFields_layout | apply headerFields_complete].
Qed.

Lemma available_trailing_fields_emitted_witness :
  headerFields (cancunHeaderText (JsString "0x0"))
  = Ok ["0x" ++ repeatChar "1" 64; "0x" ++ repeatChar "2" 64;
        "0x00000000000000000000000000000000000000aa";
        "0x" ++ repeatChar "3" 64; "0x" ++ repeatChar "4" 64;
        "0x" ++ repeatChar "5" 64; "0x00"; "0x"; "0x01286d1b"; "0x01c9c380";
        "0xff"; "0x65f1b057"; "0x"; "0x" ++ repeatChar "6" 64;
        "0x0000000000000000"; "0x07"; "0x" ++ repeatChar "7" 64; "0x"; "0x";
        "0x" ++ repeatChar "8" 64]
  <-> Forall2 encodes (specLayout (cancunHeaderText (JsString "0x0")))
        ["0x" ++ repeatChar "1" 64; "0x" ++ repeatChar "2" 64;
         "0x00000000000000000000000000000000000000aa";
         "0x" ++ repeatChar "3" 64; "0x" ++ repeatChar "4" 64;
         "0x" ++ repeatChar "5" 64; "0x00"; "0x"; "0x01286d1b"; "0x01c9c380";
         "0xff"; "0x65f1b057"; "0x"; "0x" ++ repeatChar "6" 64;
         "0x0000000000000000"; "0x07"; "0x" ++ repeatChar "7" 64; "0x"; "0x";
         "0x" ++ repeatChar "8" 64].
Proof.
  apply (available_trailing_fields_emitted (cancunHeaderText (JsString "0x0"))).
  repeat constructor.
Defined.

End EncoderMore.

(* ================================================================== *)
(** ** Further properties of the proof assembler                       *)
(* ================================================================== *)

Module GeneratorMoreFacts.

Import ProofGeneratorOptions HexFacts ByteFacts EncoderFacts MonadFacts
       GeneratorSpec GeneratorFacts GeneratorStages ToHexFacts
       EncoderMoreFacts.

Lemma numberToHex_out_of_range (n : Z) :
  ~ (0 <= n < 2 ^ 256) ->
  numberToHex n (Some 32%nat) = Throw (LibraryError "IntegerOutOfRangeError").
Proof.
  intros Hn. unfold numberToHex. cbn [andb].
  change (2 ^ (Z.of_nat 32 * 8) - 1) with (2 ^ 256 - 1).
  destruct (2 ^ 256 - 1 <? n) eqn:E1; [reflexivity |].
  destruct (n <? 0) eqn:E2; [reflexivity |].
  apply Z.ltb_ge in E1, E2. exfalso. apply Hn. lia.
Qed.

Lemma toHex_negative (n : Z) :
  n < 0 -> toHex (JsBigInt n) = Throw (LibraryError "IntegerOutOfRangeError").
Proof.
  intros Hn. unfold toHex, numberToHex. cbn [andb orb].
  destruct (n <? 0) eqn:E; [reflexivity | apply Z.ltb_ge in E; lia].
Qed.

Lemma hexDigits_nonempty (n : Z) : 0 <= n -> hexDigits n <> [].
Proof.
  intros Hn. assert (Hc : n = 0 \/ 0 < n) by lia. destruct Hc as [-> | Hpos].
  - discriminate.
  - destruct (hexDigits_spec n Hpos) as (_ & _ & top & rest & -> & _). discriminate.
Qed.

(** Unpadded hex of a bigint reads back as the bigint. *)
Lemma BigInt_numberToHex (n : Z) (x : Hex) :
  numberToHex n None = Ok x -> BigInt (JsString x) = Ok n.
Proof.
  intros H. apply numberToHex_unsized in H as [Hn ->].
  rewrite toString16_nonneg by exact Hn.
  destruct (hexDigits_nonneg n Hn) as [Hv Hd].
  rewrite (BigInt_hex_text _ Hd (hexDigits_nonempty n Hn)), Hv. reflexivity.
Qed.

(** The 32-byte key reads back as the number. *)
Lemma BigInt_numberToHex_32 (n : Z) (x : Hex) :
  numberToHex n (Some 32%nat) = Ok x -> BigInt (JsString x) = Ok n.
Proof.
  intros H. apply numberToHex_32 in H as ([Hn _] & _ & ->).
  rewrite toString16_nonneg by exact Hn.
  destruct (hexDigits_nonneg n Hn) as [Hv Hd].
  set (ds := hexDigits n) in *.
  set (k := (64 - List.length ds)%nat).
  assert (Htext : padStart (string_of_list_ascii (map hexChar ds)) 64 "0"
                  = string_of_list_ascii (map hexChar (repeat 0 k ++ ds))).
  { unfold padStart. rewrite length_string_of_list_ascii, length_map. fold k.
    rewrite <- (string_of_list_ascii_of_string (repeatChar "0" k ++ _)).
    rewrite list_ascii_of_string_append, list_ascii_repeatChar.
    rewrite list_ascii_of_string_of_list_ascii, map_hexChar_repeat, <- map_app.
    reflexivity. }
  rewrite Htext, BigInt_hex_text.
  - rewrite be16_app, be16_zeros, Hv. reflexivity.
  - apply Forall_app. split; [apply Forall_digit_zeros | exact Hd].
  - intros E. apply app_eq_nil in E as [_ E].
    exact (hexDigits_nonempty n Hn E).
Qed.

Section Facts.

Variable keccak256 : Hex -> option Hex.
Variable toRlp : list Hex -> option Hex.
Variable createPublicClient : string -> PublicClient.

Local Abbreviation generate :=
  (generateStorageProof keccak256 toRlp createPublicClient).
Local Abbreviation fetchProofs := (getStorageAndAccountProof keccak256 toRlp).
Local Abbreviation resolve := (getRlpBlockHeader toRlp).
Local Abbreviation atHashCheck :=
  (reachesHashCheck keccak256 toRlp createPublicClient).

(** A storage-proof fetch whose key cannot be built sends nothing. *)
Lemma fetchProofs_no_key client account slot blockNumber log e :
  numberToHex slot (Some 32%nat) = Throw e ->
  fetchProofs client account slot blockNumber log = (Throw e, log).
Proof.
  intros Hkey. unfold getStorageAndAccountProof.
  erewrite bind_throw_eq; [reflexivity |]. rewrite lift_eq, Hkey. reflexivity.
Qed.

(** A storage-proof fetch the node rejects. *)
Lemma fetchProofs_rejected client account slot blockNumber log key reason :
  numberToHex slot (Some 32%nat) = Ok key ->
  getProof client account [key] blockNumber = inl reason ->
  fetchProofs client account slot blockNumber log
  = (Throw (RpcFailure reason), (log ++ [GetProof account [key] blockNumber])%list).
Proof.
  intros Hkey Hproof. unfold getStorageAndAccountProof.
  erewrite bind_ok_eq; [| rewrite lift_eq, Hkey; reflexivity].
  erewrite bind_throw_eq; [reflexivity |].
  unfold call. rewrite Hproof. reflexivity.
Qed.

(** A storage-proof fetch that goes through. *)
Lemma fetchProofs_value client account slot blockNumber log key proof
    node nodes entry entries root rlpA rlpS sv :
  numberToHex slot (Some 32%nat) = Ok key ->
  getProof client account [key] blockNumber = inr proof ->
  accountProof proof = node :: nodes ->
  storageProof proof = entry :: entries ->
  keccak256 node = Some root ->
  toRlp (accountProof proof) = Some rlpA ->
  toRlp (Rpc.proof entry) = Some rlpS ->
  toHex (JsBigInt (value entry)) = Ok sv ->
  fetchProofs client account slot blockNumber log
  = (Ok {| computedStateRoot := root; rlpAccountProof := rlpA;
           rlpStorageProof := rlpS; slotValue := sv |},
     (log ++ [GetProof account [key] blockNumber])%list).
Proof.
  intros Hkey Hproof Ha Hs Hroot HrlpA HrlpS Hsv.
  unfold getStorageAndAccountProof.
  erewrite bind_ok_eq; [| rewrite lift_eq, Hkey; reflexivity].
  erewrite bind_ok_eq; [| apply call_ok_eq; exact Hproof].
  rewrite lift_eq. rewrite HrlpA. rewrite Ha, Hs.
  cbn [keccak256_first first_entry rbind Ok prim].
  rewrite Hroot, HrlpS. cbn [prim rbind Ok]. rewrite Hsv. reflexivity.
Qed.

(** Every run is in one of five situations. *)
Lemma generate_cases options :
  (exists reason,
      getBlock (createPublicClient (rpc options)) (blockNumber options)
      = inl reason
      /\ run (generate options)
         = (Throw (RpcFailure reason), [GetBlock (blockNumber options)]))
  \/ (exists blockHeader e,
        getBlock (createPublicClient (rpc options)) (blockNumber options)
        = inr blockHeader
        /\ is_runtime_error e = true
        /\ run (generate options) = (Throw e, headerLog (blockNumber options)))
  \/ (exists blockHeader rlp computed,
        atHashCheck options blockHeader rlp (headerLog (blockNumber options))
          computed
        /\ hash blockHeader <> JsString computed
        /\ run (generate options)
           = (Throw (BlockHashMismatchError (hash blockHeader) computed),
              headerLog (blockNumber options)))
  \/ (exists blockHeader rlp computed res log2,
        atHashCheck options blockHeader rlp (headerLog (blockNumber options))
          computed
        /\ hash blockHeader = JsString computed
        /\ fetchProofs (createPublicClient (rpc options)) (account options)
             (slot options) (blockNumber options)
             (headerLog (blockNumber options)) = (res, log2)
        /\ snd (run (generate options)) = log2).
Proof.
  destruct (getBlock (createPublicClient (rpc options)) (blockNumber options))
    as [reason | blockHeader] eqn:Hblock.
  { left. exists reason. split; [reflexivity |].
    unfold run, generateStorageProof. cbv zeta.
    unfold bind at 1, call at 1. rewrite Hblock. reflexivity. }
  right.
  pose proof (getRlpBlockHeader_resolve_spec toRlp
                (createPublicClient (rpc options)) (blockNumber options)
                blockHeader [GetBlock (blockNumber options)]) as Hresolve.
  change ([GetBlock (blockNumber options)] ++ resolverRequests (blockNumber options))%list
    with (headerLog (blockNumber options)) in Hresolve.
  destruct (resolve_spec toRlp
              (fastPath (createPublicClient (rpc options)) (blockNumber options))
              (header blockHeader)) as [e | [rlp method]] eqn:Hspec.
  { left. exists blockHeader, e. split; [reflexivity |].
    split; [exact (resolve_spec_runtime_only _ _ _ _ Hspec) |].
    unfold run, generateStorageProof. cbv zeta.
    erewrite bind_ok_eq; [| apply call_ok_eq; exact Hblock].
    erewrite bind_throw_eq; [reflexivity | exact Hresolve]. }
  destruct (keccak256 rlp) as [computed |] eqn:Hk.
  2:{ left. exists blockHeader, (LibraryError "keccak256").
      split; [reflexivity |]. split; [reflexivity |].
      unfold run, generateStorageProof. cbv zeta.
      erewrite bind_ok_eq; [| apply call_ok_eq; exact Hblock].
      erewrite bind_ok_eq; [| exact Hresolve].
      erewrite bind_throw_eq; [reflexivity |].
      rewrite lift_eq. cbn [fst]. rewrite Hk. reflexivity. }
  right.
  assert (Hreach : atHashCheck options blockHeader rlp
                     (headerLog (blockNumber options)) computed).
  { split; [exact Hblock | split; [exists method; exact Hresolve | exact Hk]]. }
  destruct (strict_eq_string computed (hash blockHeader)) eqn:Hhash.
  - right. apply strict_eq_string_true in Hhash.
    destruct (fetchProofs (createPublicClient (rpc options)) (account options)
                (slot options) (blockNumber options)
                (headerLog (blockNumber options))) as [res log2] eqn:Hfetch.
    exists blockHeader, rlp, computed, res, log2.
    split; [exact Hreach |]. split; [exact Hhash |]. split; [reflexivity |].
    exact (proj1 (hash_match_outcome _ _ _ _ _ _ _ _ _ _ Hreach Hhash Hfetch)).
  - left. apply strict_eq_string_false in Hhash.
    exists blockHeader, rlp, computed.
    split; [exact Hreach |]. split; [exact Hhash |].
    exact (hash_mismatch_outcome _ _ _ _ _ _ _ _ Hreach Hhash).
Qed.

(** The log of a run that got to the hash check. *)
Lemma reachesHashCheck_log options blockHeader rlp log1 computed :
  atHashCheck options blockHeader rlp log1 computed ->
  log1 = headerLog (blockNumber options).
Proof.
  intros (_ & (method & Hresolve) & _).
  rewrite getRlpBlockHeader_resolve_spec in Hresolve.
  injection Hresolve as _ <-. reflexivity.
Qed.

End Facts.

End GeneratorMoreFacts.

Module GeneratorMore.

Import ProofGeneratorOptions HexFacts ByteFacts EncoderFacts MonadFacts
       GeneratorSpec GeneratorFacts GeneratorStages ToHexFacts
       EncoderMoreFacts GeneratorMoreFacts Samples.

Section More.

Variable keccak256 : Hex -> option Hex.
Variable toRlp : list Hex -> option Hex.
Variable createPublicClient : string -> PublicClient.

Local Abbreviation generate :=
  (generateStorageProof keccak256 toRlp createPublicClient).
Local Abbreviation fetchProofs := (getStorageAndAccountProof keccak256 toRlp).
Local Abbreviation resolve := (getRlpBlockHeader toRlp).
Local Abbreviation atHashCheck :=
  (reachesHashCheck keccak256 toRlp createPublicClient).

Lemma headerLog_no_proof_request bn address keys n :
  ~ In (GetProof address keys n) (headerLog bn).
Proof.
  unfold headerLog, resolverRequests. intros H.
  destruct (toHex (JsBigInt bn)); cbn in H;
    repeat (destruct H as [H | H]; [discriminate H |]); exact H.
Qed.

(** For a block number that is not negative the resolver sends the
    raw-header request, with the number in hexadecimal. *)
Lemma headerLog_unsigned bn :
  0 <= bn ->
  headerLog bn
  = [GetBlock bn; Request "debug_getRawHeader" ["0x" ++ toString16 bn]].
Proof.
  intros Hbn. unfold headerLog, resolverRequests, toHex, numberToHex.
  cbn [andb orb].
  destruct (bn <? 0) eqn:E; [apply Z.ltb_lt in E; lia | reflexivity].
Qed.

(** X9.  For a block number that is not negative, the requests of a run
    are a prefix of: the block fetch, the raw-header request, one
    storage-proof request; each is pinned to the requested block
    number; and a storage-proof request goes out only after the block
    hash has been verified. *)
Theorem request_log_shape options :
  0 <= blockNumber options ->
  (snd (run (generate options)) = [GetBlock (blockNumber options)]
   \/ snd (run (generate options))
      = [GetBlock (blockNumber options);
         Request "debug_getRawHeader"
           ["0x" ++ toString16 (blockNumber options)]]
   \/ exists key,
        numberToHex (slot options) (Some 32%nat) = Ok key
        /\ snd (run (generate options))
           = [GetBlock (blockNumber options);
              Request "debug_getRawHeader"
                ["0x" ++ toString16 (blockNumber options)];
              GetProof (account options) [key] (blockNumber options)])
  /\ (forall address keys n,
        In (GetProof address keys n) (snd (run (generate options))) ->
        exists blockHeader rlp computed,
          atHashCheck options blockHeader rlp
            [GetBlock (blockNumber options);
             Request "debug_getRawHeader"
               ["0x" ++ toString16 (blockNumber options)]]
            computed
          /\ hash blockHeader = JsString computed).
Proof.
  intros Hbn. pose proof (headerLog_unsigned _ Hbn) as HL.
  destruct (generate_cases keccak256 toRlp createPublicClient options)
    as [(reason & _ & Hrun)
       | [(blockHeader & e & _ & _ & Hrun)
         | [(blockHeader & rlp & computed & _ & _ & Hrun)
           | (blockHeader & rlp & computed & res & log2
              & Hreach & Hhash & Hfetch & Hlog)]]].
  - rewrite Hrun. cbn [snd]. split; [left; reflexivity |].
    intros address keys n [H | []]. discriminate H.
  - rewrite Hrun. cbn [snd]. split; [right; left; exact HL |].
    intros address keys n H. destruct (headerLog_no_proof_request _ _ _ _ H).
  - rewrite Hrun. cbn [snd]. split; [right; left; exact HL |].
    intros address keys n H. destruct (headerLog_no_proof_request _ _ _ _ H).
  - rewrite Hlog. split.
    + destruct (numberToHex (slot options) (Some 32%nat)) as [e | key] eqn:Hkey.
      * rewrite (fetchProofs_no_key keccak256 toRlp _ _ _ _ _ _ Hkey) in Hfetch.
        injection Hfetch as _ <-. right. left. exact HL.
      * right. right. exists key. split; [reflexivity |].
        pose proof (fetchProofs_log keccak256 toRlp
                      (createPublicClient (rpc options)) (account options)
                      (slot options) (blockNumber options)
                      (headerLog (blockNumber options)) key Hkey) as Hl.
        rewrite Hfetch in Hl. cbn [snd] in Hl. rewrite Hl, HL. reflexivity.
    + intros _ _ _ _. exists blockHeader, rlp, computed.
      rewrite HL in Hreach.
      split; [exact Hreach | exact Hhash].
Qed.

(** X10.  A failure of the collaborator is passed on unchanged: a
    failed block fetch ends the run after that single request, and a
    failed storage-proof fetch ends it right after the proof request. *)
Theorem transport_failures_propagate options :
  (forall reason,
      getBlock (createPublicClient (rpc options)) (blockNumber options)
      = inl reason ->
      run (generate options)
      = (Throw (RpcFailure reason), [GetBlock (blockNumber options)]))
  /\ (forall blockHeader rlp log1 computed key reason,
        atHashCheck options blockHeader rlp log1 computed ->
        hash blockHeader = JsString computed ->
        numberToHex (slot options) (Some 32%nat) = Ok key ->
        getProof (createPublicClient (rpc options)) (account options) [key]
          (blockNumber options) = inl reason ->
        run (generate options)
        = (Throw (RpcFailure reason),
           (log1 ++ [GetProof (account options) [key] (blockNumber options)])%list)).
Proof.
  split.
  - intros reason Hblock.
    unfold run, generateStorageProof. cbv zeta.
    unfold bind at 1, call at 1. rewrite Hblock. reflexivity.
  - intros blockHeader rlp log1 computed key reason Hreach Hhash Hkey Hproof.
    pose proof (fetchProofs_rejected keccak256 toRlp
                  (createPublicClient (rpc options)) (account options)
                  (slot options) (blockNumber options) log1 key reason
                  Hkey Hproof) as Hfetch.
    destruct (hash_match_outcome _ _ _ _ _ _ _ _ _ _ Hreach Hhash Hfetch)
      as [Hlog Hout].
    rewrite (surjective_pairing (run (generate options))), Hlog, Hout.
    reflexivity.
Qed.

(** X11.  The raw header is authoritative: when the fast path answers
    and its answer does not hash to the block hash, the run ends in the
    block-hash-mismatch error; the manual encoder is not tried, whatever
    it would have produced. *)
Theorem raw_header_is_authoritative options blockHeader rawHeader computed :
  getBlock (createPublicClient (rpc options)) (blockNumber options)
  = inr blockHeader ->
  fastPath (createPublicClient (rpc options)) (blockNumber options)
  = Ok rawHeader ->
  keccak256 rawHeader = Some computed ->
  hash blockHeader <> JsString computed ->
  run (generate options)
  = (Throw (BlockHashMismatchError (hash blockHeader) computed),
     headerLog (blockNumber options)).
Proof.
  intros Hblock Hfast Hk Hne.
  apply (hash_mismatch_outcome keccak256 toRlp createPublicClient options
           blockHeader rawHeader); [| exact Hne].
  split; [exact Hblock |]. split; [| exact Hk].
  exists debug_getRawHeader.
  rewrite getRlpBlockHeader_resolve_spec, Hfast. reflexivity.
Qed.

(** X12.  A slot outside the 256-bit range is found out only after the
    header has been fetched and verified: the run then ends in the
    library's range error and no storage-proof request is sent. *)
Theorem slot_out_of_range options blockHeader rlp log1 computed :
  atHashCheck options blockHeader rlp log1 computed ->
  hash blockHeader = JsString computed ->
  ~ (0 <= slot options < 2 ^ 256) ->
  run (generate options)
  = (Throw (LibraryError "IntegerOutOfRangeError"), log1).
Proof.
  intros Hreach Hhash Hslot.
  pose proof (fetchProofs_no_key keccak256 toRlp
                (createPublicClient (rpc options)) (account options)
                (slot options) (blockNumber options) log1 _
                (numberToHex_out_of_range _ Hslot)) as Hfetch.
  destruct (hash_match_outcome _ _ _ _ _ _ _ _ _ _ Hreach Hhash Hfetch)
    as [Hlog Hout].
  rewrite (surjective_pairing (run (generate options))), Hlog, Hout.
  reflexivity.
Qed.

(** X13.  With a negative block number the request parameter cannot be
    built inside the [try] block: the resolver sends no request and
    returns the manual encoding, even at a node that supports the raw
    header method. *)
Theorem negative_block_number_skips_fast_path client blockNumber blockHeader log :
  blockNumber < 0 ->
  resolve client blockNumber blockHeader log
  = (rlp <- encodeBlockHeaderToRlp toRlp (header blockHeader) ;;
     Ok (rlp, manual), log).
Proof.
  intros Hn. rewrite getRlpBlockHeader_resolve_spec.
  unfold fastPath, resolverRequests. rewrite (toHex_negative _ Hn).
  cbn [rbind Throw resolve_spec]. rewrite app_nil_r. reflexivity.
Qed.

(** X14.  The hex quantities of a returned record read back as the
    numbers they came from: [slot] as the requested slot, [slotValue]
    as the value the node returned, [blockNumber] as the number of the
    fetched header. *)
Theorem quantities_read_back options r log :
  run (generate options) = (Ok r, log) ->
  exists blockHeader proof entry entries,
    getBlock (createPublicClient (rpc options)) (blockNumber options)
    = inr blockHeader
    /\ getProof (createPublicClient (rpc options)) (account options)
         [StorageProof.slot r] (blockNumber options) = inr proof
    /\ storageProof proof = entry :: entries
    /\ BigInt (JsString (StorageProof.slot r)) = Ok (slot options)
    /\ BigInt (JsString (StorageProof.slotValue r)) = Ok (value entry)
    /\ (forall n, number (header blockHeader) = JsBigInt n ->
                  BigInt (JsString (StorageProof.blockNumber r)) = Ok n).
Proof.
  intros Hrun.
  apply generateStorageProof_ok in Hrun
    as (blockHeader & rlp & log1 & computed & proofs & bnHex & slotHex
        & (Hblock & _ & _) & _ & Hfetch & _ & Hbn & Hslot & ->).
  apply getStorageAndAccountProof_ok in Hfetch
    as (storageKey & proof & node & nodes & entry & entries
        & Hkey & Hproof & _ & _ & _ & _ & Hs & _ & Hsv).
  rewrite Hslot in Hkey. injection Hkey as <-.
  exists blockHeader, proof, entry, entries.
  cbn [StorageProof.slot StorageProof.slotValue StorageProof.blockNumber].
  split; [exact Hblock |]. split; [exact Hproof |]. split; [exact Hs |].
  split; [exact (BigInt_numberToHex_32 _ _ Hslot) |].
  split; [exact (BigInt_numberToHex _ _ Hsv) |].
  intros n Hn. rewrite Hn in Hbn. exact (BigInt_numberToHex _ _ Hbn).
Qed.

(** X15.  The checks are also sufficient: when the block hash matches,
    the node returns a non-empty account proof whose first node hashes
    to the state root of the header and at least one storage-proof
    entry, and the primitives accept their inputs, the run returns the
    record built from these parts, after exactly one storage-proof
    request. *)
Theorem verified_run_returns options blockHeader rlp log1 computed key proof
    node nodes entry entries root rlpA rlpS sv bnHex :
  atHashCheck options blockHeader rlp log1 computed ->
  hash blockHeader = JsString computed ->
  numberToHex (slot options) (Some 32%nat) = Ok key ->
  getProof (createPublicClient (rpc options)) (account options) [key]
    (blockNumber options) = inr proof ->
  accountProof proof = node :: nodes ->
  storageProof proof = entry :: entries ->
  keccak256 node = Some root ->
  stateRoot (header blockHeader) = JsString root ->
  toRlp (accountProof proof) = Some rlpA ->
  toRlp (Rpc.proof entry) = Some rlpS ->
  toHex (JsBigInt (value entry)) = Ok sv ->
  toHex (number (header blockHeader)) = Ok bnHex ->
  run (generate options)
  = (Ok {| StorageProof.blockNumber := bnHex;
           StorageProof.blockHash := hash blockHeader;
           StorageProof.stateRoot := stateRoot (header blockHeader);
           StorageProof.account := account options;
           StorageProof.slot := key;
           StorageProof.slotValue := sv;
           StorageProof.rlpBlockHeader := rlp;
           StorageProof.rlpAccountProof := rlpA;
           StorageProof.rlpStorageProof := rlpS;
           StorageProof.sendRoot :=
             if has_sendRoot blockHeader then Rpc.sendRoot blockHeader
             else None |},
     (log1 ++ [GetProof (account options) [key] (blockNumber options)])%list).
Proof.
  intros (Hblock & (method & Hresolve) & Hk) Hhash Hkey Hproof Ha Hs Hroot
         Hstate HrlpA HrlpS Hsv Hbn.
  pose proof (fetchProofs_value keccak256 toRlp
                (createPublicClient (rpc options)) (account options)
                (slot options) (blockNumber options) log1 key proof node nodes
                entry entries root rlpA rlpS sv
                Hkey Hproof Ha Hs Hroot HrlpA HrlpS Hsv) as Hfetch.
  unfold run, generateStorageProof. cbv zeta.
  erewrite bind_ok_eq; [| apply call_ok_eq; exact Hblock].
  erewrite bind_ok_eq; [| exact Hresolve].
  erewrite bind_ok_eq; [| rewrite lift_eq; cbn [fst]; rewrite Hk; reflexivity].
  cbn [fst].
  rewrite (proj2 (strict_eq_string_true computed (hash blockHeader)) Hhash).
  cbn [negb].
  erewrite bind_ok_eq; [| exact Hfetch].
  cbn [computedStateRoot].
  rewrite (proj2 (strict_eq_string_true root (stateRoot (header blockHeader)))
             Hstate).
  cbn [negb].
  erewrite bind_ok_eq; [| rewrite lift_eq, Hbn; reflexivity].
  erewrite bind_ok_eq; [| rewrite lift_eq, Hkey; reflexivity].
  destruct (has_sendRoot blockHeader); reflexivity.
Qed.

End More.

End GeneratorMore.

(* ================================================================== *)
(** ** Properties of the command line                                  *)
(* ================================================================== *)

Module CliFacts.

Import Cli CliMain MonadFacts GeneratorSpec.

Lemma checkedArgs_some isAddress values options :
  checkedArgs isAddress values = Some options ->
  exists r a s b,
    rpc values = Some r /\ account values = Some a
    /\ slot values = Some s /\ block values = Some b
    /\ (r =? "")%string = false /\ (a =? "")%string = false
    /\ (s =? "")%string = false /\ (b =? "")%string = false
    /\ isAddress a = true
    /\ StringToBigInt s = Some (ProofGeneratorOptions.slot options)
    /\ StringToBigInt b = Some (ProofGeneratorOptions.blockNumber options)
    /\ ProofGeneratorOptions.rpc options = r
    /\ ProofGeneratorOptions.account options = a.
Proof.
  unfold checkedArgs. intros H.
  destruct (rpc values) as [r |]; [| discriminate H].
  destruct (account values) as [a |]; [| discriminate H].
  destruct (slot values) as [s |]; [| discriminate H].
  destruct (block values) as [b |]; [| discriminate H].
  destruct (r =? "")%string eqn:Er; [discriminate H |].
  destruct (a =? "")%string eqn:Ea; [discriminate H |].
  destruct (s =? "")%string eqn:Es; [discriminate H |].
  destruct (b =? "")%string eqn:Eb; [discriminate H |].
  destruct (isAddress a) eqn:Haddr; [| discriminate H]. cbn [orb negb] in H.
  destruct (StringToBigInt s) as [n |] eqn:Hn; [| discriminate H].
  destruct (StringToBigInt b) as [m |] eqn:Hm; [| discriminate H].
  injection H as <-. exists r, a, s, b.
  repeat split; first [assumption | reflexivity].
Qed.

Section Facts.

Variable keccak256 : Hex -> option Hex.
Variable toRlp : list Hex -> option Hex.
Variable createPublicClient : string -> PublicClient.
Variable HELP_TEXT : string.
Variable isAddress : string -> bool.
Variable stringify : StorageProof.t -> string.
Variable writeFileSync : string -> string -> option string.

Local Abbreviation generate :=
  (generateStorageProof keccak256 toRlp createPublicClient).
Local Abbreviation cliMain :=
  (main keccak256 toRlp createPublicClient HELP_TEXT isAddress stringify
     writeFileSync).
Local Abbreviation cliDeliver := (deliver stringify writeFileSync).

(** With [--help] the usage text is printed and the process ends. *)
Lemma main_help values :
  help values = true ->
  cliMain values started
  = (inl 0, {| stdout := [HELP_TEXT]; stderr := []; files := [];
               requests := [] |}).
Proof. intros H. unfold main. rewrite H. reflexivity. Qed.

(** Arguments that fail a check end the process before anything else
    happens. *)
Lemma main_unchecked values :
  help values = false -> checkedArgs isAddress values = None ->
  exists line,
    cliMain values started
    = (inl 1, {| stdout := []; stderr := [line]; files := [];
                 requests := [] |}).
Proof.
  intros Hhelp H. unfold main, checkedArgs in *. rewrite Hhelp.
  unfold required.
  destruct (rpc values) as [r |]; [| eexists; reflexivity].
  destruct (r =? "")%string; [eexists; reflexivity |].
  destruct (account values) as [a |]; [| eexists; reflexivity].
  destruct (a =? "")%string; [eexists; reflexivity |].
  destruct (slot values) as [s |]; [| eexists; reflexivity].
  destruct (s =? "")%string; [eexists; reflexivity |].
  destruct (block values) as [b |]; [| eexists; reflexivity].
  destruct (b =? "")%string; [eexists; reflexivity |].
  cbn [orb] in H.
  unfold pbind at 1 2 3 4 5. cbn [pret].
  destruct (isAddress a); [| eexists; reflexivity].
  cbn [negb] in H.
  unfold pbind at 1. cbn [pret].
  destruct (StringToBigInt s) as [n |]; [| eexists; reflexivity].
  unfold pbind at 1. cbn [pret].
  destruct (StringToBigInt b) as [m |]; [discriminate H | eexists; reflexivity].
Qed.

(** Arguments that pass every check lead to one run of the generator,
    after three lines on the standard output. *)
Lemma main_checked values options :
  help values = false -> checkedArgs isAddress values = Some options ->
  exists lines,
    cliMain values started
    = cliDeliver values (fst (run (generate options)))
        {| stdout := lines; stderr := []; files := [];
           requests := snd (run (generate options)) |}.
Proof.
  intros Hhelp H.
  apply checkedArgs_some in H
    as (r & a & s & b & Hr & Ha & Hs & Hb & Er & Ea & Es & Eb & Haddr
        & Hslot & Hblock & Hor & Hoa).
  destruct options as [orpc oaccount oslot oblock].
  cbn [ProofGeneratorOptions.rpc ProofGeneratorOptions.account
       ProofGeneratorOptions.slot ProofGeneratorOptions.blockNumber] in *.
  subst orpc oaccount.
  unfold main. rewrite Hhelp, Hr, Ha, Hs, Hb. unfold required.
  rewrite Er, Ea, Es, Eb.
  unfold pbind at 1 2 3 4 5. cbn [pret]. rewrite Haddr.
  unfold pbind at 1. cbn [pret]. rewrite Hslot.
  unfold pbind at 1. cbn [pret]. rewrite Hblock.
  unfold pbind at 1. cbn [pret].
  unfold pbind at 1 2 3 4. unfold log, console_log, await, started, run.
  cbn [stdout stderr files requests].
  eexists. reflexivity.
Qed.

(** The [catch] block: one line on the standard error, exit code 1. *)
Lemma deliver_failure values e p :
  exists text,
    cliDeliver values (inl e) p
    = (inl 1, {| stdout := stdout p;
                 stderr := (stderr p
                            ++ [("[storage-proof-generator] Error: " ++ text)%string])%list;
                 files := files p; requests := requests p |})
    /\ (forall expected computed,
          e = BlockHashMismatchError expected computed ->
          text = "Block hash verification failed." ++ newline
                 ++ "  Expected: " ++ toStringJs expected ++ newline
                 ++ "  Computed: " ++ computed)
    /\ (forall expected computed,
          e = StateRootMismatchError expected computed ->
          text = "State root verification failed." ++ newline
                 ++ "  Expected: " ++ toStringJs expected ++ newline
                 ++ "  Computed: " ++ computed)
    /\ (is_mismatch_error e = false -> text = message e).
Proof.
  destruct e; eexists; (split; [reflexivity |]);
    (split; [intros ? ? H; inversion H; subst; reflexivity |]);
    (split; [intros ? ? H; inversion H; subst; reflexivity |]);
    intros H; try discriminate H; reflexivity.
Qed.

(** The [try] block after a proof: printed when no output path is
    given. *)
Lemma deliver_print values proof p :
  output values = None \/ output values = Some "" ->
  cliDeliver values (inr proof) p
  = (inr tt, {| stdout := (stdout p ++ proofLines proof
                           ++ [stringify proof])%list;
                stderr := stderr p; files := files p;
                requests := requests p |}).
Proof.
  intros [H | H]; unfold deliver; rewrite H; cbn [String.eqb];
    unfold pbind, log, console_log, proofLines;
    cbn [stdout stderr files requests];
    rewrite <- !app_assoc; reflexivity.
Qed.

(** The [try] block after a proof: saved when an output path is
    given. *)
Lemma deliver_save values proof p path :
  output values = Some path -> path <> "" ->
  cliDeliver values (inr proof) p
  = match writeFileSync path (stringify proof) with
    | None =>
        (inr tt,
         {| stdout := (stdout p ++ proofLines proof
                       ++ [("[storage-proof-generator] Proof saved to " ++ path)%string])%list;
            stderr := stderr p;
            files := (files p ++ [(path, stringify proof)])%list;
            requests := requests p |})
    | Some msg =>
        (inl 1,
         {| stdout := (stdout p ++ proofLines proof)%list;
            stderr := (stderr p
                       ++ [("[storage-proof-generator] Error: " ++ msg)%string])%list;
            files := files p; requests := requests p |})
    end.
Proof.
  intros H Hne. unfold deliver. rewrite H.
  destruct (String.eqb_spec path "") as [E | _]; [congruence |].
  unfold save. destruct (writeFileSync path (stringify proof)) as [msg |];
    unfold pbind, log, console_log, fail, console_error, process_exit, proofLines;
    cbn [stdout stderr files requests];
    rewrite <- !app_assoc; reflexivity.
Qed.

End Facts.

End CliFacts.

Module CliProperties.

Import Cli CliMain MonadFacts GeneratorSpec CliFacts Samples CliSamples.

Section Properties.

Variable keccak256 : Hex -> option Hex.
Variable toRlp : list Hex -> option Hex.
Variable createPublicClient : string -> PublicClient.
Variable HELP_TEXT : string.
Variable isAddress : string -> bool.
Variable stringify : StorageProof.t -> string.
Variable writeFileSync : string -> string -> option string.

Local Abbreviation generate :=
  (generateStorageProof keccak256 toRlp createPublicClient).
Local Abbreviation cliMain :=
  (main keccak256 toRlp createPublicClient HELP_TEXT isAddress stringify
     writeFileSync).
Local Abbreviation cliRun :=
  (runMain keccak256 toRlp createPublicClient HELP_TEXT isAddress stringify
     writeFileSync).

(** Every run of the command line, sorted by what happened. *)
Lemma runMain_cases values :
  (help values = true /\ fst (cliRun values) = 0
   /\ files (snd (cliRun values)) = [])
  \/ (help values = false /\ checkedArgs isAddress values = None
      /\ fst (cliRun values) = 1 /\ files (snd (cliRun values)) = [])
  \/ (exists options e,
        help values = false /\ checkedArgs isAddress values = Some options
        /\ fst (run (generate options)) = Throw e
        /\ fst (cliRun values) = 1 /\ files (snd (cliRun values)) = [])
  \/ (exists options proof,
        help values = false /\ checkedArgs isAddress values = Some options
        /\ fst (run (generate options)) = Ok proof
        /\ (output values = None \/ output values = Some "")
        /\ fst (cliRun values) = 0 /\ files (snd (cliRun values)) = [])
  \/ (exists options proof path,
        help values = false /\ checkedArgs isAddress values = Some options
        /\ fst (run (generate options)) = Ok proof
        /\ output values = Some path /\ path <> ""
        /\ ((writeFileSync path (stringify proof) = None
             /\ fst (cliRun values) = 0
             /\ files (snd (cliRun values)) = [(path, stringify proof)])
            \/ (exists msg,
                  writeFileSync path (stringify proof) = Some msg
                  /\ fst (cliRun values) = 1
                  /\ files (snd (cliRun values)) = []))).
Proof.
  destruct (help values) eqn:Hhelp.
  { left. unfold runMain.
    rewrite (main_help keccak256 toRlp createPublicClient HELP_TEXT isAddress
               stringify writeFileSync values Hhelp).
    repeat split; reflexivity. }
  right.
  destruct (checkedArgs isAddress values) as [options |] eqn:Hargs.
  2:{ left.
      destruct (main_unchecked keccak256 toRlp createPublicClient HELP_TEXT
                  isAddress stringify writeFileSync values Hhelp Hargs)
        as [line Hm].
      unfold runMain. rewrite Hm. repeat split; reflexivity. }
  right.
  destruct (main_checked keccak256 toRlp createPublicClient HELP_TEXT isAddress
              stringify writeFileSync values options Hhelp Hargs)
    as [lines Hmain].
  unfold runMain. rewrite Hmain.
  destruct (fst (run (generate options))) as [e | proof] eqn:Hrun.
  { left. exists options, e.
    destruct (deliver_failure stringify writeFileSync values e
                {| stdout := lines; stderr := []; files := [];
                   requests := snd (run (generate options)) |})
      as (text & -> & _).
    repeat split; first [exact Hrun | reflexivity]. }
  right.
  destruct (output values) as [path |] eqn:Hout.
  2:{ left. exists options, proof.
      rewrite (deliver_print stringify writeFileSync values proof _
                 (or_introl Hout)).
      repeat split; try exact Hrun; try reflexivity. left. reflexivity. }
  destruct (String.eqb_spec path "") as [-> | Hne].
  { left. exists options, proof.
    rewrite (deliver_print stringify writeFileSync values proof _
               (or_intror Hout)).
    repeat split; try exact Hrun; try reflexivity. right. reflexivity. }
  right. exists options, proof, path.
  rewrite (deliver_save stringify writeFileSync values proof _ path Hout Hne).
  split; [reflexivity |]. split; [reflexivity |]. split; [exact Hrun |].
  split; [reflexivity |]. split; [exact Hne |].
  destruct (writeFileSync path (stringify proof)) as [msg |].
  - right. exists msg. repeat split; reflexivity.
  - left. repeat split; reflexivity.
Qed.

(** X17.  A file is written only for a proof that the generator
    returned, that is, after both checks passed: it is then the single
    file at the output path, it holds the serialised proof, and the
    exit code is 0. *)
Theorem file_written_only_for_verified_proof values :
  files (snd (cliRun values)) <> [] ->
  exists options proof path,
    checkedArgs isAddress values = Some options
    /\ fst (run (generate options)) = Ok proof
    /\ output values = Some path
    /\ files (snd (cliRun values)) = [(path, stringify proof)]
    /\ fst (cliRun values) = 0.
Proof.
  intros Hfiles.
  destruct (runMain_cases values)
    as [(_ & _ & Hf)
       | [(_ & _ & _ & Hf)
         | [(options & e & _ & _ & _ & _ & Hf)
           | [(options & proof & _ & _ & _ & _ & _ & Hf)
             | (options & proof & path & _ & Hargs & Hrun & Hout & _
                & [(_ & Hcode & Hf) | (msg & _ & _ & Hf)])]]]];
    try congruence.
  exists options, proof, path. repeat split; assumption.
Qed.

(** X18.  When the generator throws, the process exits with code 1
    after one line on the standard error and writes no file; for the
    two mismatch errors the line names the check that failed and gives
    the expected and the computed value, for any other error it gives
    the message of the error. *)
Theorem failure_report values options e log :
  help values = false ->
  checkedArgs isAddress values = Some options ->
  run (generate options) = (Throw e, log) ->
  exists text,
    fst (cliRun values) = 1
    /\ files (snd (cliRun values)) = []
    /\ requests (snd (cliRun values)) = log
    /\ stderr (snd (cliRun values))
       = [("[storage-proof-generator] Error: " ++ text)%string]
    /\ (forall expected computed,
          e = BlockHashMismatchError expected computed ->
          text = "Block hash verification failed." ++ newline
                 ++ "  Expected: " ++ toStringJs expected ++ newline
                 ++ "  Computed: " ++ computed)
    /\ (forall expected computed,
          e = StateRootMismatchError expected computed ->
          text = "State root verification failed." ++ newline
                 ++ "  Expected: " ++ toStringJs expected ++ newline
                 ++ "  Computed: " ++ computed)
    /\ (is_mismatch_error e = false -> text = message e).
Proof.
  intros Hhelp Hargs Hrun.
  destruct (main_checked keccak256 toRlp createPublicClient HELP_TEXT isAddress
              stringify writeFileSync values options Hhelp Hargs)
    as [lines Hmain].
  rewrite Hrun in Hmain. cbn [fst snd] in Hmain. unfold Throw in Hmain.
  destruct (deliver_failure stringify writeFileSync values e
              {| stdout := lines; stderr := []; files := []; requests := log |})
    as (text & Hd & Hb & Hs & Ho).
  exists text. unfold runMain. rewrite Hmain, Hd.
  cbn [fst snd files requests stderr app].
  repeat split; assumption.
Qed.


(** X20.  The exit code is 0 or 1, and it is 0 only when the usage text
    was asked for or the generator returned a proof for the request the
    arguments describe. *)
Theorem exit_code_zero_means_proof values :
  (fst (cliRun values) = 0 \/ fst (cliRun values) = 1)
  /\ (fst (cliRun values) = 0 ->
      help values = true
      \/ exists options proof,
           checkedArgs isAddress values = Some options
           /\ fst (run (generate options)) = Ok proof).
Proof.
  destruct (runMain_cases values)
    as [(Hh & Hc & _)
       | [(_ & _ & Hc & _)
         | [(options & e & _ & _ & _ & Hc & _)
           | [(options & proof & _ & Hargs & Hrun & _ & Hc & _)
             | (options & proof & path & _ & Hargs & Hrun & _ & _
                & [(_ & Hc & _) | (msg & _ & Hc & _)])]]]];
    rewrite Hc; (split; [auto |]); intros H0; try discriminate H0;
    first [left; exact Hh | right; exists options, proof; split; assumption].
Qed.

End Properties.

(** X17 at a complete command line with an output path. *)
Lemma file_written_only_for_verified_proof_witness :
  exists options proof path,
    checkedArgs anyAddress (fullArgs (Some "proof.json")) = Some options
    /\ fst (run (generateStorageProof sampleKeccak sampleToRlp
                   (fun _ => goodNode None) options)) = Ok proof
    /\ output (fullArgs (Some "proof.json")) = Some path
    /\ files (snd (runMain sampleKeccak sampleToRlp (fun _ => goodNode None)
                     "usage" anyAddress sampleStringify diskOk
                     (fullArgs (Some "proof.json"))))
       = [(path, sampleStringify proof)]
    /\ fst (runMain sampleKeccak sampleToRlp (fun _ => goodNode None)
              "usage" anyAddress sampleStringify diskOk
              (fullArgs (Some "proof.json"))) = 0.
Proof.
  apply (file_written_only_for_verified_proof sampleKeccak sampleToRlp
           (fun _ => goodNode None) "usage" anyAddress sampleStringify diskOk
           (fullArgs (Some "proof.json"))).
  vm_compute. intros H. discriminate H.
Defined.

(** X18 at a node whose block hash does not match. *)
Lemma failure_report_witness :
  exists text,
    fst (runMain sampleKeccak sampleToRlp
           (fun _ => plainNode (JsString (h32 "a")) sampleProof) "usage"
           anyAddress sampleStringify diskOk (fullArgs None)) = 1
    /\ files (snd (runMain sampleKeccak sampleToRlp
                     (fun _ => plainNode (JsString (h32 "a")) sampleProof)
                     "usage" anyAddress sampleStringify diskOk (fullArgs None)))
       = []
    /\ requests (snd (runMain sampleKeccak sampleToRlp
                        (fun _ => plainNode (JsString (h32 "a")) sampleProof)
                        "usage" anyAddress sampleStringify diskOk
                        (fullArgs None)))
       = [GetBlock 1; Request "debug_getRawHeader" ["0x1"]]
    /\ stderr (snd (runMain sampleKeccak sampleToRlp
                      (fun _ => plainNode (JsString (h32 "a")) sampleProof)
                      "usage" anyAddress sampleStringify diskOk (fullArgs None)))
       = [("[storage-proof-generator] Error: " ++ text)%string]
    /\ (forall expected computed,
          BlockHashMismatchError (JsString (h32 "a")) (h32 "0")
          = BlockHashMismatchError expected computed ->
          text = "Block hash verification failed." ++ newline
                 ++ "  Expected: " ++ toStringJs expected ++ newline
                 ++ "  Computed: " ++ computed)
    /\ (forall expected computed,
          BlockHashMismatchError (JsString (h32 "a")) (h32 "0")
          = StateRootMismatchError expected computed ->
          text = "State root verification failed." ++ newline
                 ++ "  Expected: " ++ toStringJs expected ++ newline
                 ++ "  Computed: " ++ computed)
    /\ (is_mismatch_error
          (BlockHashMismatchError (JsString (h32 "a")) (h32 "0")) = false ->
        text = message (BlockHashMismatchError (JsString (h32 "a")) (h32 "0"))).
Proof.
  apply (failure_report sampleKeccak sampleToRlp
           (fun _ => plainNode (JsString (h32 "a")) sampleProof) "usage"
           anyAddress sampleStringify diskOk (fullArgs None)
           {| ProofGeneratorOptions.rpc := "https://rpc.example.com";
              ProofGeneratorOptions.account :=
                "0x5aAeb6053F3E94C9b9A09f33669435E7Ef1BeAed";
              ProofGeneratorOptions.slot := 0;
              ProofGeneratorOptions.blockNumber := 1 |});
    reflexivity.
Defined.


(** X20 at a healthy node. *)
Lemma exit_code_zero_means_proof_witness :
  help (fullArgs None) = true
  \/ exists options proof,
       checkedArgs anyAddress (fullArgs None) = Some options
       /\ fst (run (generateStorageProof sampleKeccak sampleToRlp
                      (fun _ => goodNode None) options)) = Ok proof.
Proof.
  apply (proj2 (exit_code_zero_means_proof sampleKeccak sampleToRlp
                  (fun _ => goodNode None) "usage" anyAddress sampleStringify
                  diskOk (fullArgs None))).
  reflexivity.
Defined.

End CliProperties.

Module GeneratorMoreExamples.

Import ProofGeneratorOptions GeneratorSpec GeneratorMore Samples MoreSamples.

(** X9 at the healthy node: the three requests of the run, and the
    storage-proof request came after a verified block hash. *)
Lemma request_log_shape_witness :
  (snd (run (generateStorageProof sampleKeccak sampleToRlp
               (fun _ => goodNode None) checksummedRequest))
   = [GetBlock 1; Request "debug_getRawHeader" ["0x1"];
      GetProof "0x5aAeb6053F3E94C9b9A09f33669435E7Ef1BeAed" [h32 "0"] 1])
  /\ exists blockHeader rlp computed,
       reachesHashCheck sampleKeccak sampleToRlp (fun _ => goodNode None)
         checksummedRequest blockHeader rlp
         [GetBlock (blockNumber checksummedRequest);
          Request "debug_getRawHeader"
            ["0x" ++ toString16 (blockNumber checksummedRequest)]]
         computed
       /\ hash blockHeader = JsString computed.
Proof.
  split; [reflexivity |].
  apply (proj2 (request_log_shape sampleKeccak sampleToRlp
                  (fun _ => goodNode None) checksummedRequest
                  ltac:(vm_compute; discriminate))
           "0x5aAeb6053F3E94C9b9A09f33669435E7Ef1BeAed" [h32 "0"] 1).
  right. right. left. reflexivity.
Defined.

(** X10 at a block the node does not have, and at a node that has lost
    the state. *)
Lemma transport_failures_propagate_witness :
  run (generateStorageProof sampleKeccak sampleToRlp (fun _ => goodNode None)
         unknownBlockRequest)
  = (Throw (RpcFailure "block not found"), [GetBlock 2])
  /\ run (generateStorageProof sampleKeccak sampleToRlp (fun _ => prunedNode)
            checksummedRequest)
     = (Throw (RpcFailure "missing trie node"),
        [GetBlock 1; Request "debug_getRawHeader" ["0x1"];
         GetProof "0x5aAeb6053F3E94C9b9A09f33669435E7Ef1BeAed" [h32 "0"] 1]).
Proof.
  split.
  - apply (proj1 (transport_failures_propagate sampleKeccak sampleToRlp
                    (fun _ => goodNode None) unknownBlockRequest)).
    reflexivity.
  - apply (proj2 (transport_failures_propagate sampleKeccak sampleToRlp
                    (fun _ => prunedNode) checksummedRequest)
             block1 rawHeaderText
             [GetBlock 1; Request "debug_getRawHeader" ["0x1"]] (h32 "a")
             (h32 "0") "missing trie node"
             (conj eq_refl (conj (ex_intro _ debug_getRawHeader eq_refl) eq_refl))
             eq_refl eq_refl eq_refl).
Defined.

(** X11 at a node whose raw header is wrong while the manual encoding
    would have matched. *)
Lemma raw_header_is_authoritative_witness :
  run (generateStorageProof sampleKeccak sampleToRlp
         (fun _ => misreportingNode) checksummedRequest)
  = (Throw (BlockHashMismatchError (JsString (h32 "0")) (h32 "a")),
     [GetBlock 1; Request "debug_getRawHeader" ["0x1"]])
  /\ (rlp <- encodeBlockHeaderToRlp sampleToRlp block1Header ;;
      prim (sampleKeccak rlp) "keccak256") = Ok (h32 "0").
Proof.
  split; [| reflexivity].
  apply (raw_header_is_authoritative sampleKeccak sampleToRlp
           (fun _ => misreportingNode) checksummedRequest
           {| header := block1Header; hash := JsString (h32 "0");
              sendRoot := None |}
           rawHeaderText (h32 "a") eq_refl eq_refl eq_refl).
  cbn [hash]. intros H. discriminate H.
Defined.

(** X12 at slot [-1]. *)
Lemma slot_out_of_range_witness :
  run (generateStorageProof sampleKeccak sampleToRlp (fun _ => goodNode None)
         negativeSlotRequest)
  = (Throw (LibraryError "IntegerOutOfRangeError"),
     [GetBlock 1; Request "debug_getRawHeader" ["0x1"]]).
Proof.
  apply (slot_out_of_range sampleKeccak sampleToRlp (fun _ => goodNode None)
           negativeSlotRequest block1 rawHeaderText
           [GetBlock 1; Request "debug_getRawHeader" ["0x1"]] (h32 "a")
           (conj eq_refl (conj (ex_intro _ debug_getRawHeader eq_refl) eq_refl))
           eq_refl).
  cbn [slot negativeSlotRequest]. lia.
Defined.

(** X13 at block number [-1], at a node with the raw-header method. *)
Lemma negative_block_number_skips_fast_path_witness :
  getRlpBlockHeader sampleToRlp (goodNode None) (-1) block1 []
  = (Ok ("0xc0", manual), []).
Proof.
  apply (negative_block_number_skips_fast_path sampleToRlp (goodNode None)
           (-1) block1 []).
  lia.
Defined.

(** X14 at the healthy node. *)
Lemma quantities_read_back_witness :
  exists blockHeader proof entry entries,
    getBlock (goodNode None) 1 = inr blockHeader
    /\ getProof (goodNode None) (account checksummedRequest)
         [StorageProof.slot goodResult] 1 = inr proof
    /\ storageProof proof = entry :: entries
    /\ BigInt (JsString (StorageProof.slot goodResult)) = Ok 0
    /\ BigInt (JsString (StorageProof.slotValue goodResult)) = Ok (value entry)
    /\ (forall n, number (header blockHeader) = JsBigInt n ->
                  BigInt (JsString (StorageProof.blockNumber goodResult)) = Ok n).
Proof.
  apply (quantities_read_back sampleKeccak sampleToRlp (fun _ => goodNode None)
           checksummedRequest goodResult goodLog).
  vm_compute. reflexivity.
Defined.

(** X15 at the healthy node. *)
Lemma verified_run_returns_witness :
  run (generateStorageProof sampleKeccak sampleToRlp (fun _ => goodNode None)
         checksummedRequest)
  = (Ok goodResult, goodLog).
Proof.
  apply (verified_run_returns sampleKeccak sampleToRlp (fun _ => goodNode None)
           checksummedRequest block1 rawHeaderText
           [GetBlock 1; Request "debug_getRawHeader" ["0x1"]] (h32 "a")
           (h32 "0") sampleProof rootNode ["0xf8518080"]
           {| key := h32 "0"; proof := ["0xe3a120"]; value := 1 |} []
           (h32 "3") "0xc0" "0xc0" "0x1" "0x1"
           (conj eq_refl (conj (ex_intro _ debug_getRawHeader eq_refl) eq_refl))
           eq_refl eq_refl eq_refl eq_refl eq_refl eq_refl eq_refl eq_refl
           eq_refl eq_refl eq_refl).
Defined.

End GeneratorMoreExamples.

Module EncoderNull.

Import HexFacts ByteFacts EncoderFacts EncoderShape EncoderMoreFacts
       GeneratorSpec GeneratorFacts Samples MoreSamples.

(** X21.  [null] in a trailing field: under the truthiness test it
    counts as absent, so a header whose five fields under that test are
    [null] and whose [excessBlobGas] is missing encodes as a legacy
    header of fifteen items; under the [!== undefined] test of
    [excessBlobGas] it counts as present, and the encoder then throws a
    run-time error instead of returning a list. *)
Theorem null_trailing_fields (h : RpcBlockHeader) :
  (excessBlobGas h = JsNull ->
   exists e, headerFields h = Throw e /\ is_runtime_error e = true)
  /\ (baseFeePerGas h = JsNull -> withdrawalsRoot h = JsNull ->
      blobGasUsed h = JsNull -> parentBeaconBlockRoot h = JsNull ->
      requestsHash h = JsNull -> excessBlobGas h = JsUndefined ->
      headerFields h = baseFields h).
Proof.
  split.
  - intros Hnull. destruct (headerFields h) as [e | items] eqn:H.
    + exists e. split; [reflexivity |].
      exact (runtime_only_headerFields h e H).
    + exfalso. apply headerFields_layout in H. unfold emittedLayout in H.
      apply Forall2_app_inv_l in H as (base & r1 & _ & H & _).
      apply Forall2_app_inv_l in H as (o1 & r2 & _ & H & _).
      apply Forall2_app_inv_l in H as (o2 & r3 & _ & H & _).
      apply Forall2_app_inv_l in H as (o3 & r4 & _ & H & _).
      apply Forall2_app_inv_l in H as (o4 & r5 & H4 & _ & _).
      rewrite Hnull in H4. cbn [is_defined keep] in H4.
      inversion H4 as [| ? ? ? ? He _]; subst. discriminate He.
  - intros H1 H2 H3 H4 H5 H6. unfold headerFields.
    rewrite H1, H2, H3, H4, H5, H6. cbn [truthy is_defined push_if].
    destruct (baseFields h); reflexivity.
Qed.

Lemma null_trailing_fields_witness :
  exists e,
    headerFields nullTrailingHeader = Throw e /\ is_runtime_error e = true.
Proof. exact (proj1 (null_trailing_fields nullTrailingHeader) eq_refl). Defined.

End EncoderNull.

Module CliEntryProperties.

Import Cli CliMain CliEntry CliFacts Samples CliSamples CliEntrySamples.

Section Properties.

Variable keccak256 : Hex -> option Hex.
Variable toRlp : list Hex -> option Hex.
Variable createPublicClient : string -> PublicClient.
Variable HELP_TEXT : string.
Variable isAddress : string -> bool.
Variable stringify : StorageProof.t -> string.
Variable writeFileSync : string -> string -> option string.
Variable parseArgs : list string -> string + Values.
Variable uncaught : string -> string.

Local Abbreviation cliMain :=
  (main keccak256 toRlp createPublicClient HELP_TEXT isAddress stringify
     writeFileSync).
Local Abbreviation cliScript :=
  (script keccak256 toRlp createPublicClient HELP_TEXT isAddress stringify
     writeFileSync parseArgs uncaught).

(** Values with a required option absent, or with an account that is
    not an address, do not pass the checks. *)
Lemma incomplete_unchecked values :
  incomplete isAddress values = true -> checkedArgs isAddress values = None.
Proof.
  unfold incomplete, checkedArgs, absent. intros H.
  destruct (rpc values) as [r |]; [| reflexivity].
  destruct (account values) as [a |]; [| reflexivity].
  destruct (slot values) as [s |]; [| reflexivity].
  destruct (block values) as [b |]; [| reflexivity].
  rewrite H. reflexivity.
Qed.

(** Values that fail a check end [main] with one complaint, written by
    [fail], before anything else happens. *)
Lemma main_complains values :
  help values = false -> checkedArgs isAddress values = None ->
  exists msg,
    cliMain values started
    = (inl 1, {| stdout := [];
                 stderr := ["[storage-proof-generator] Error: " ++ msg];
                 files := []; requests := [] |}).
Proof.
  intros Hhelp H. unfold main, checkedArgs in *. rewrite Hhelp.
  unfold required.
  destruct (rpc values) as [r |]; [| eexists; reflexivity].
  destruct (r =? "")%string; [eexists; reflexivity |].
  destruct (account values) as [a |]; [| eexists; reflexivity].
  destruct (a =? "")%string; [eexists; reflexivity |].
  destruct (slot values) as [s |]; [| eexists; reflexivity].
  destruct (s =? "")%string; [eexists; reflexivity |].
  destruct (block values) as [b |]; [| eexists; reflexivity].
  destruct (b =? "")%string; [eexists; reflexivity |].
  cbn [orb] in H.
  unfold pbind at 1 2 3 4 5. cbn [pret].
  destruct (isAddress a); [| eexists; reflexivity].
  cbn [negb] in H.
  unfold pbind at 1. cbn [pret].
  destruct (StringToBigInt s) as [n |]; [| eexists; reflexivity].
  unfold pbind at 1. cbn [pret].
  destruct (StringToBigInt b) as [m |]; [discriminate H | eexists; reflexivity].
Qed.

(** X16.  The command line is checked before anything else happens.
    When [parseArgs] throws (an unknown option, a positional argument,
    an option without its value), the process ends with exit code 1
    and nothing on the standard output, [--help] among the arguments
    or not.  When it returns values with [help] set, the usage text is
    printed and the exit code is 0, whatever the other values are.
    Otherwise, when a required option is missing or empty or the
    account is not an address, or when the slot and the block number
    are ASCII text and one of them is not an integer literal, the
    process writes one line on the standard error, written by [fail],
    and exits with code 1.  In none of these cases is a request sent
    or a file written. *)
Theorem command_line_checked_first (argv : list string) :
  (forall error,
      parseArgs argv = inl error ->
      cliScript argv
      = (1, {| stdout := []; stderr := [uncaught error]; files := [];
               requests := [] |}))
  /\ (forall values,
        parseArgs argv = inr values -> help values = true ->
        cliScript argv
        = (0, {| stdout := [HELP_TEXT]; stderr := []; files := [];
                 requests := [] |}))
  /\ (forall values,
        parseArgs argv = inr values -> help values = false ->
        incomplete isAddress values = true
        \/ (asciiOption (slot values) = true
            /\ asciiOption (block values) = true
            /\ checkedArgs isAddress values = None) ->
        exists msg,
          cliScript argv
          = (1, {| stdout := [];
                   stderr := ["[storage-proof-generator] Error: " ++ msg];
                   files := []; requests := [] |})).
Proof.
  split; [| split].
  - intros error H. unfold script. rewrite H. reflexivity.
  - intros values H Hhelp. unfold script, runMain. rewrite H.
    rewrite (main_help keccak256 toRlp createPublicClient HELP_TEXT isAddress
               stringify writeFileSync values Hhelp).
    reflexivity.
  - intros values H Hhelp Hbad.
    assert (Hnone : checkedArgs isAddress values = None).
    { destruct Hbad as [Hinc | (_ & _ & Hnone)];
        [exact (incomplete_unchecked values Hinc) | exact Hnone]. }
    destruct (main_complains values Hhelp Hnone) as [msg Hm].
    exists msg. unfold script, runMain. rewrite H, Hm. reflexivity.
Qed.

End Properties.

(** X16 at three command lines: an unknown option beside [--help],
    [--help] alone, and a slot that is not an integer literal. *)
Lemma command_line_checked_first_witness :
  script sampleKeccak sampleToRlp (fun _ => goodNode None) "usage"
    anyAddress sampleStringify diskOk sampleParseArgs sampleUncaught
    ["--help"; "--bogus"]
  = (1, {| stdout := [];
           stderr := ["TypeError [ERR_PARSE_ARGS_UNKNOWN_OPTION]: Unknown option '--bogus'"];
           files := []; requests := [] |})
  /\ script sampleKeccak sampleToRlp (fun _ => goodNode None) "usage"
       anyAddress sampleStringify diskOk sampleParseArgs sampleUncaught
       ["--help"]
     = (0, {| stdout := ["usage"]; stderr := []; files := [];
              requests := [] |})
  /\ exists msg,
       script sampleKeccak sampleToRlp (fun _ => goodNode None) "usage"
         anyAddress sampleStringify diskOk sampleParseArgs sampleUncaught
         ["--rpc"; "https://rpc.example.com";
          "--account"; "0x5aAeb6053F3E94C9b9A09f33669435E7Ef1BeAed";
          "--slot"; "1e3"; "--block"; "1"]
       = (1, {| stdout := [];
                stderr := ["[storage-proof-generator] Error: " ++ msg];
                files := []; requests := [] |}).
Proof.
  split; [| split].
  - apply (proj1 (command_line_checked_first sampleKeccak sampleToRlp
                    (fun _ => goodNode None) "usage" anyAddress
                    sampleStringify diskOk sampleParseArgs sampleUncaught
                    ["--help"; "--bogus"])
             "Unknown option '--bogus'").
    reflexivity.
  - apply (proj1 (proj2 (command_line_checked_first sampleKeccak sampleToRlp
                           (fun _ => goodNode None) "usage" anyAddress
                           sampleStringify diskOk sampleParseArgs
                           sampleUncaught ["--help"]))
             helpArgs); reflexivity.
  - apply (proj2 (proj2 (command_line_checked_first sampleKeccak sampleToRlp
                           (fun _ => goodNode None) "usage" anyAddress
                           sampleStringify diskOk sampleParseArgs
                           sampleUncaught
                           ["--rpc"; "https://rpc.example.com";
                            "--account";
                            "0x5aAeb6053F3E94C9b9A09f33669435E7Ef1BeAed";
                            "--slot"; "1e3"; "--block"; "1"]))
             badSlotArgs).
    + reflexivity.
    + reflexivity.
    + right. split; [reflexivity |]. split; reflexivity.
Defined.

End CliEntryProperties.
